(** * Excel interview agent: session service and interview engine

    Two parts of the repository are embedded here.

    - [SessionService] and [InterviewService] follow the TypeScript backend
      (services/session.service.ts, services/interview.service.ts, the
      entities, the table migration, the Joi schema of the evaluation
      route).  The relational store is an explicit value threaded through
      every operation; the clock ([new Date()], [now()]) is an argument of
      the operations that read it.  The column types of the migration are
      part of the store: integer columns hold 32 bits, varchar(255) columns
      255 characters, text has no NUL, numeric(5,2) rounds to two decimals
      and overflows at 1000, and is handed back by the driver as a string.
    - [InterviewApp] follows the Python skeleton of the technical
      specification (interview_app.py: models, Evaluator, Reporter,
      InterviewEngine, on_submit).  The scorer's reply is an untyped,
      JSON-like value; the scorer, the clock and the str coercion of the
      installed pydantic are arguments of the call that consumes them.

    Numbers ([number] in TypeScript, [float] in Python) are exact
    rationals: the rounding of IEEE arithmetic is outside the model.
    Strings are held as their UTF-8 bytes. *)

From Stdlib Require Import ZArith NArith QArith Lqa Lia List Bool Ascii.
From Stdlib Require Import DecimalString DecimalN Sorted Permutation.
From stdpp Require Import base option list strings gmap.

Local Open Scope string_scope.
Local Open Scope list_scope.

#[local] Set Warnings "-register-all".

(* ===================================================================== *)
(** ** Text and column types                                             *)
(* ===================================================================== *)

Module Text.

(** a byte 10xxxxxx continues the character begun before it *)
Definition continues (c : ascii) : bool :=
  (128 <=? nat_of_ascii c)%nat && (nat_of_ascii c <? 192)%nat.

(** the number of characters (code points) *)
Fixpoint char_length (s : string) : nat :=
  match s with
  | EmptyString => 0
  | String c s' => if continues c then char_length s' else S (char_length s')
  end.

(** the first [n] characters, [s[:n]] *)
Fixpoint take_chars (n : nat) (s : string) : string :=
  match s with
  | EmptyString => EmptyString
  | String c s' =>
      if continues c then String c (take_chars n s')
      else match n with
           | 0 => EmptyString
           | S n' => String c (take_chars n' s')
           end
  end.

(** what follows the first [n] characters, [s[n:]] *)
Fixpoint drop_chars (n : nat) (s : string) : string :=
  match s with
  | EmptyString => EmptyString
  | String c s' =>
      if continues c then drop_chars n s'
      else match n with
           | 0 => s
           | S n' => drop_chars n' s'
           end
  end.

Fixpoint has_nul (s : string) : bool :=
  match s with
  | EmptyString => false
  | String c s' => Ascii.eqb c Ascii.zero || has_nul s'
  end.

Fixpoint all_spaces (s : string) : bool :=
  match s with
  | EmptyString => true
  | String c s' => Ascii.eqb c " " && all_spaces s'
  end.

End Text.

(** What the store makes of a value written to a column of the migration:
    the value the column then holds, or nothing when the statement is
    refused. *)
Module Postgres.

(** integer *)
Definition int4 (z : Z) : option Z :=
  if (-2147483648 <=? z)%Z && (z <=? 2147483647)%Z then Some z else None.

(** text: any string without a NUL character *)
Definition text (s : string) : option string :=
  if Text.has_nul s then None else Some s.

(** character varying(n): a longer value is refused, unless what exceeds
    the n characters is all spaces, which are then cut off *)
Definition varchar (n : nat) (s : string) : option string :=
  if Text.has_nul s then None
  else if (Text.char_length s <=? n)%nat then Some s
  else if Text.all_spaces (Text.drop_chars n s) then Some (Text.take_chars n s)
  else None.

(** a nullable column *)
Definition nullable {A B : Type} (column : A -> option B) (v : option A)
    : option (option B) :=
  match v with
  | Some a => option_map Some (column a)
  | None => Some None
  end.

(** the number of hundredths nearest to q, ties away from zero *)
Definition round_hundredths (q : Q) : Z :=
  let n := (Qnum q * 100)%Z in
  let d := Z.pos (Qden q) in
  if (0 <=? n)%Z then ((2 * n + d) / (2 * d))%Z
  else (- ((2 * (- n) + d) / (2 * d)))%Z.

(** numeric(5,2): rounded to two decimals, refused from 1000 on *)
Definition numeric_5_2 (q : Q) : option Q :=
  let c := round_hundredths q in
  if (Z.abs c <? 100000)%Z then Some (c # 100) else None.

Definition decimal (n : N) : string := NilZero.string_of_uint (N.to_uint n).

Definition two_digits (n : N) : string :=
  if (n <? 10)%N then "0" ++ decimal n else decimal n.

(** the sign a stored value is written with *)
Definition sign_of (q : Q) : string :=
  if (round_hundredths q <? 0)%Z then "-" else EmptyString.

(** the text of a numeric(5,2) value, as the driver hands it to the
    entity: 100.00, 3.50, -0.25 *)
Definition numeric_out (q : Q) : string :=
  let a := Z.to_N (Z.abs (round_hundredths q)) in
  sign_of q ++ decimal (a / 100) ++ "." ++ two_digits (a mod 100).

(** the text before the first point, and the text after it when there is
    a point *)
Fixpoint split_point (s : string) : string * option string :=
  match s with
  | EmptyString => (EmptyString, None)
  | String c s' =>
      if Ascii.eqb c "." then (EmptyString, Some s')
      else let '(a, b) := split_point s' in (String c a, b)
  end.

(** a run of decimal digits (possibly empty) and its value *)
Definition digits (s : string) : option N :=
  option_map N.of_uint (NilEmpty.uint_of_string s).

(** digits with at most one point among them, and at least one digit *)
Definition unsigned_decimal (s : string) : option Q :=
  let '(a, b) := split_point s in
  match digits a, b with
  | Some i, None =>
      if String.eqb a EmptyString then None else Some (inject_Z (Z.of_N i))
  | Some i, Some f =>
      match digits f with
      | Some j =>
          if String.eqb a EmptyString && String.eqb f EmptyString then None
          else
            let p := Z.to_pos (10 ^ Z.of_nat (String.length f)) in
            Some ((Z.of_N i * Z.pos p + Z.of_N j) # p)
      | None => None
      end
  | None, _ => None
  end.

(** the number a text parameter stands for when it is written to a numeric
    column, or nothing when its syntax is refused.  Covered here: an
    optional sign, digits, at most one point.  (The store also reads
    exponents, NaN and surrounding blanks; the texts that reach this
    function are made of digits, points and minus signs, see
    [SessionService.totalScore].) *)
Definition numeric_in (s : string) : option Q :=
  match s with
  | String "-" s' => option_map Qopp (unsigned_decimal s')
  | String "+" s' => unsigned_decimal s'
  | _ => unsigned_decimal s
  end.

(** is the text a run of decimal digits? *)
Fixpoint all_digits (s : string) : bool :=
  match s with
  | EmptyString => true
  | String c s' =>
      bool_decide (is_Some (uint_of_char c (Some Decimal.Nil)))
      && all_digits s'
  end.

End Postgres.

(* ===================================================================== *)
(** ** Backend: entities, store, session service                         *)
(* ===================================================================== *)

(** uuid primary keys, drawn by the store from a counter *)
Definition uuid := N.

(** timestamps, milliseconds since the epoch *)
Definition Date := Z.

Inductive SessionStatus : Set :=
  | PENDING
  | IN_PROGRESS
  | COMPLETED
  | ABANDONED.

(** the error raised by the services: message and HTTP status *)
Record AppError : Set := mkAppError {
  message : string;
  statusCode : Z
}.

(** entity [SessionResponse], table session_responses *)
Module SessionResponse.
Record t : Set := mk {
  id : uuid;
  session_id : uuid;
  question_id : uuid;
  answer : string;
  score : option Q;
  time_taken : Z;
  is_correct : bool;
  created_at : Date
}.
End SessionResponse.

(** entity [InterviewSession], table interview_sessions; the [responses]
    relation is loaded on demand, see [Loaded] below *)
Module InterviewSession.
Record t : Set := mk {
  id : uuid;
  interview_id : uuid;
  candidate_name : string;
  candidate_email : string;
  status : SessionStatus;
  started_at : option Date;
  completed_at : option Date;
  total_score : option Q;
  created_at : Date
}.
End InterviewSession.

(** a session row together with its loaded [responses] relation *)
Record Loaded : Set := mkLoaded {
  row : InterviewSession.t;
  responses : list SessionResponse.t
}.

(** The store.  [interviews] and [interview_questions] carry only the
    primary keys the foreign keys of the other two tables point to. *)
Record Database : Set := mkDatabase {
  interviews : list uuid;
  interview_questions : list uuid;
  interview_sessions : list InterviewSession.t;
  session_responses : list SessionResponse.t;
  next_uuid : uuid
}.

Module SessionService.

Definition mem (x : uuid) (l : list uuid) : bool := existsb (N.eqb x) l.

(** responses ordered by created_at ASC (insertion into a sorted list;
    rows with the same timestamp keep their table order) *)
Fixpoint insert_by_created_at (r : SessionResponse.t)
    (l : list SessionResponse.t) : list SessionResponse.t :=
  match l with
  | [] => [r]
  | x :: l' =>
      if (SessionResponse.created_at r <=? SessionResponse.created_at x)%Z
      then r :: x :: l'
      else x :: insert_by_created_at r l'
  end.

Definition order_by_created_at (l : list SessionResponse.t)
    : list SessionResponse.t :=
  fold_right insert_by_created_at [] l.

(** sessions ordered by created_at DESC *)
Fixpoint insert_by_created_at_desc (s : InterviewSession.t)
    (l : list InterviewSession.t) : list InterviewSession.t :=
  match l with
  | [] => [s]
  | x :: l' =>
      if (InterviewSession.created_at x <=? InterviewSession.created_at s)%Z
      then s :: x :: l'
      else x :: insert_by_created_at_desc s l'
  end.

(** responseRepository.find({ where: { session_id } }) *)
Definition find_responses (sid : uuid) (db : Database)
    : list SessionResponse.t :=
  List.filter (fun r => N.eqb (SessionResponse.session_id r) sid)
              (session_responses db).

(** sessionRepository.findOne({ where: { id }, relations: ["responses"],
    order: { responses: { created_at: "ASC" } } }) *)
Definition findOne_session (sid : uuid) (db : Database) : option Loaded :=
  match List.find (fun s => N.eqb (InterviewSession.id s) sid)
                  (interview_sessions db) with
  | Some s => Some (mkLoaded s (order_by_created_at (find_responses sid db)))
  | None => None
  end.

(** responseRepository.findOne({ where: { id } }) *)
Definition findOne_response (rid : uuid) (db : Database)
    : option SessionResponse.t :=
  List.find (fun r => N.eqb (SessionResponse.id r) rid) (session_responses db).

(** sessionRepository.update(id, partial): rows with that key are
    rewritten, a missing key updates nothing and raises nothing *)
Definition update_session (sid : uuid)
    (f : InterviewSession.t -> InterviewSession.t) (db : Database)
    : Database :=
  mkDatabase (interviews db) (interview_questions db)
    (map (fun s => if N.eqb (InterviewSession.id s) sid then f s else s)
         (interview_sessions db))
    (session_responses db) (next_uuid db).

(** responseRepository.update(id, partial) *)
Definition update_response (rid : uuid)
    (f : SessionResponse.t -> SessionResponse.t) (db : Database)
    : Database :=
  mkDatabase (interviews db) (interview_questions db) (interview_sessions db)
    (map (fun r => if N.eqb (SessionResponse.id r) rid then f r else r)
         (session_responses db))
    (next_uuid db).

(** the pair under UNIQUE ("session_id", "question_id") *)
Definition key (r : SessionResponse.t) : uuid * uuid :=
  (SessionResponse.session_id r, SessionResponse.question_id r).

Definition has_key (sid qid : uuid) (db : Database) : bool :=
  existsb (fun r => N.eqb (SessionResponse.session_id r) sid
                    && N.eqb (SessionResponse.question_id r) qid)
          (session_responses db).

Definition session_exists (sid : uuid) (db : Database) : bool :=
  existsb (fun s => N.eqb (InterviewSession.id s) sid) (interview_sessions db).

(** the row interview_sessions holds for a new entity: the two names as
    character varying(255) *)
Definition session_columns (s : InterviewSession.t)
    : option InterviewSession.t :=
  match Postgres.varchar 255 (InterviewSession.candidate_name s),
        Postgres.varchar 255 (InterviewSession.candidate_email s) with
  | Some name, Some email =>
      Some (InterviewSession.mk (InterviewSession.id s)
              (InterviewSession.interview_id s) name email
              (InterviewSession.status s) (InterviewSession.started_at s)
              (InterviewSession.completed_at s)
              (InterviewSession.total_score s)
              (InterviewSession.created_at s))
  | _, _ => None
  end.

(** the row session_responses holds for a new entity: answer as text,
    score as numeric(5,2), time_taken as integer *)
Definition response_columns (r : SessionResponse.t)
    : option SessionResponse.t :=
  match Postgres.text (SessionResponse.answer r),
        Postgres.nullable Postgres.numeric_5_2 (SessionResponse.score r),
        Postgres.int4 (SessionResponse.time_taken r) with
  | Some answer, Some score, Some time_taken =>
      Some (SessionResponse.mk (SessionResponse.id r)
              (SessionResponse.session_id r) (SessionResponse.question_id r)
              answer score time_taken (SessionResponse.is_correct r)
              (SessionResponse.created_at r))
  | _, _, _ => None
  end.

(** sessionRepository.save of a new entity: INSERT under the column types
    and FK_interview_sessions_interview_id.  The entity comes back with
    its key; the table holds the row the columns make of it. *)
Definition insert_session (s : uuid -> InterviewSession.t) (db : Database)
    : option (InterviewSession.t * Database) :=
  let s' := s (next_uuid db) in
  match session_columns s' with
  | Some stored =>
      if mem (InterviewSession.interview_id s') (interviews db)
      then Some (s',
                 mkDatabase (interviews db) (interview_questions db)
                   (interview_sessions db ++ [stored]) (session_responses db)
                   (N.succ (next_uuid db)))
      else None
  | None => None
  end.

(** responseRepository.save of a new entity: INSERT under the column
    types, the two foreign keys and
    UQ_session_responses_session_id_question_id *)
Definition insert_response (r : uuid -> SessionResponse.t) (db : Database)
    : option (SessionResponse.t * Database) :=
  let r' := r (next_uuid db) in
  match response_columns r' with
  | Some stored =>
      if session_exists (SessionResponse.session_id r') db
         && mem (SessionResponse.question_id r') (interview_questions db)
         && negb (has_key (SessionResponse.session_id r')
                          (SessionResponse.question_id r') db)
      then Some (r',
                 mkDatabase (interviews db) (interview_questions db)
                   (interview_sessions db) (session_responses db ++ [stored])
                   (N.succ (next_uuid db)))
      else None
  | None => None
  end.

Record CreateSessionData : Set := mkCreateSessionData {
  cs_interview_id : uuid;
  cs_candidate_name : string;
  cs_candidate_email : string
}.

Definition createSession (now : Date) (data : CreateSessionData)
    (db : Database) : Database * (AppError + Loaded) :=
  match insert_session
          (fun i => InterviewSession.mk i (cs_interview_id data)
                      (cs_candidate_name data) (cs_candidate_email data)
                      PENDING None None None now) db with
  | Some (savedSession, db') => (db', inr (mkLoaded savedSession []))
  | None => (db, inl (mkAppError "Failed to create interview session" 500))
  end.


Definition set_started (now : Date) (s : InterviewSession.t)
    : InterviewSession.t :=
  InterviewSession.mk (InterviewSession.id s) (InterviewSession.interview_id s)
    (InterviewSession.candidate_name s) (InterviewSession.candidate_email s)
    IN_PROGRESS (Some now) (InterviewSession.completed_at s)
    (InterviewSession.total_score s) (InterviewSession.created_at s).

Definition startSession (now : Date) (sessionId : uuid) (db : Database)
    : Database * (AppError + option Loaded) :=
  let db' := update_session sessionId (set_started now) db in
  (db', inr (findOne_session sessionId db')).

(** The object submitResponse receives.  Beside the four declared
    properties it may carry a [score]: the controller hands over the
    request body as it came (the validation middleware does not put the
    stripped value in its place) and create copies every property that is
    a column of the entity.  Bodies that set the key or the timestamps of
    the row, or a time_taken that is no whole number, are not covered. *)
Record SubmitResponseData : Set := mkSubmitResponseData {
  sr_session_id : uuid;
  sr_question_id : uuid;
  sr_answer : string;
  sr_time_taken : Z;
  sr_score : option Q
}.

(** create({ ...data, is_correct: false }) then save *)
Definition submitResponse (now : Date) (data : SubmitResponseData)
    (db : Database) : Database * (AppError + SessionResponse.t) :=
  match insert_response
          (fun i => SessionResponse.mk i (sr_session_id data)
                      (sr_question_id data) (sr_answer data) (sr_score data)
                      (sr_time_taken data) false now) db with
  | Some (savedResponse, db') => (db', inr savedResponse)
  | None => (db, inl (mkAppError "Failed to submit response" 500))
  end.

Definition set_evaluation (score : Q) (isCorrect : bool)
    (r : SessionResponse.t) : SessionResponse.t :=
  SessionResponse.mk (SessionResponse.id r) (SessionResponse.session_id r)
    (SessionResponse.question_id r) (SessionResponse.answer r) (Some score)
    (SessionResponse.time_taken r) isCorrect (SessionResponse.created_at r).

(** update(responseId, { score, is_correct }) then findOne; a score the
    column refuses fails the statement whether or not the key exists *)
Definition evaluateResponse (responseId : uuid) (score : Q) (isCorrect : bool)
    (db : Database) : Database * (AppError + option SessionResponse.t) :=
  match Postgres.numeric_5_2 score with
  | Some stored =>
      let db' :=
        update_response responseId (set_evaluation stored isCorrect) db in
      (db', inr (findOne_response responseId db'))
  | None => (db, inl (mkAppError "Failed to evaluate response" 500))
  end.

(** The values met by the reduce of completeSession: numbers (the literal
    0 and sums of it, all integers) and strings. *)
Inductive JsValue : Set :=
  | JsNumber (z : Z)
  | JsString (s : string).

(** String(v), for an integer below 10^21 in size *)
Definition js_string (v : JsValue) : string :=
  match v with
  | JsNumber z =>
      (if (z <? 0)%Z then "-" else EmptyString) ++ Postgres.decimal (Z.to_N (Z.abs z))
  | JsString s => s
  end.

(** a + b: addition of two numbers, concatenation as soon as one side is
    a string *)
Definition js_add (a b : JsValue) : JsValue :=
  match a, b with
  | JsNumber x, JsNumber y => JsNumber (x + y)
  | _, _ => JsString (js_string a ++ js_string b)
  end.

(** [response.score] as the entity holds it once read from the store: the
    driver hands a numeric column over as text *)
Definition score_read (s : option Q) : option JsValue :=
  option_map (fun q => JsString (Postgres.numeric_out q)) s.

(** [response.score || 0]: a missing score and the empty string read
    as 0 *)
Definition score_or_0 (s : option Q) : JsValue :=
  match score_read s with
  | Some (JsString t) => if String.eqb t EmptyString then JsNumber 0
                         else JsString t
  | Some (JsNumber z) => JsNumber z
  | None => JsNumber 0
  end.

Definition is_scored (r : SessionResponse.t) : bool :=
  match SessionResponse.score r with Some _ => true | None => false end.

(** scoredResponses.reduce((sum, response) => sum + (response.score || 0), 0) *)
Definition totalScore (rs : list SessionResponse.t) : JsValue :=
  fold_left
    (fun sum response => js_add sum (score_or_0 (SessionResponse.score response)))
    (List.filter is_scored rs) (JsNumber 0).

(** the texts of the scores of some rows, one after the other *)
Definition texts_of (rs : list SessionResponse.t) : string :=
  fold_right
    (fun response rest =>
       match SessionResponse.score response with
       | Some q => (Postgres.numeric_out q ++ rest)%string
       | None => rest
       end)
    EmptyString rs.

(** what the column total_score makes of the value handed to the UPDATE *)
Definition total_score_column (v : JsValue) : option Q :=
  match v with
  | JsNumber z => Postgres.numeric_5_2 (inject_Z z)
  | JsString s =>
      match Postgres.numeric_in s with
      | Some q => Postgres.numeric_5_2 q
      | None => None
      end
  end.

Definition set_completed (now : Date) (total : Q) (s : InterviewSession.t)
    : InterviewSession.t :=
  InterviewSession.mk (InterviewSession.id s) (InterviewSession.interview_id s)
    (InterviewSession.candidate_name s) (InterviewSession.candidate_email s)
    COMPLETED (InterviewSession.started_at s) (Some now) (Some total)
    (InterviewSession.created_at s).

(** find, reduce, update, findOne; a total the column refuses fails the
    UPDATE, whether or not the session exists, and the catch turns that
    into the service's error *)
Definition completeSession (now : Date) (sessionId : uuid) (db : Database)
    : Database * (AppError + option Loaded) :=
  let responses := find_responses sessionId db in
  match total_score_column (totalScore responses) with
  | Some total =>
      let db' := update_session sessionId (set_completed now total) db in
      (db', inr (findOne_session sessionId db'))
  | None => (db, inl (mkAppError "Failed to complete session" 500))
  end.

(** SessionService.getSessionsByInterview: created_at DESC, each session
    with its responses created_at ASC *)
Definition getSessionsByInterview (interviewId : uuid) (db : Database)
    : AppError + list Loaded :=
  inr (map (fun s =>
              mkLoaded s
                (order_by_created_at
                   (find_responses (InterviewSession.id s) db)))
           (fold_right insert_by_created_at_desc []
              (List.filter
                 (fun s => N.eqb (InterviewSession.interview_id s) interviewId)
                 (interview_sessions db)))).

Definition set_abandoned (s : InterviewSession.t) : InterviewSession.t :=
  InterviewSession.mk (InterviewSession.id s) (InterviewSession.interview_id s)
    (InterviewSession.candidate_name s) (InterviewSession.candidate_email s)
    ABANDONED (InterviewSession.started_at s) (InterviewSession.completed_at s)
    (InterviewSession.total_score s) (InterviewSession.created_at s).

Definition abandonSession (sessionId : uuid) (db : Database)
    : Database * (AppError + option Loaded) :=
  let db' := update_session sessionId set_abandoned db in
  (db', inr (findOne_session sessionId db')).

(** evaluateResponseSchema: score is a number in [0, 100], is_correct a
    boolean (the type already says so) *)
Definition evaluateResponseSchema (score : Q) : bool :=
  Qle_bool 0 score && Qle_bool score 100.

(** PUT /responses/:responseId/evaluate, for a body whose score is a JSON
    number and whose is_correct is a JSON boolean:
    validate(evaluateResponseSchema), then the controller, which reads
    these two properties of the body and answers 404 on a missing
    response.  The 400 message carries Joi's detail text after
    "Validation failed", which is left out here. *)
Definition evaluateResponse_route (responseId : uuid) (score : Q)
    (is_correct : bool) (db : Database)
    : Database * (AppError + SessionResponse.t) :=
  if evaluateResponseSchema score then
    match evaluateResponse responseId score is_correct db with
    | (db', inr (Some responseData)) => (db', inr responseData)
    | (db', inr None) => (db', inl (mkAppError "Response not found" 404))
    | (db', inl e) => (db', inl e)
    end
  else (db, inl (mkAppError "Validation failed" 400)).

(** one request to the session service, with the clock reading it sees;
    an evaluation comes through its route *)
Inductive op : Set :=
  | OpCreateSession (now : Date) (data : CreateSessionData)
  | OpStartSession (now : Date) (sessionId : uuid)
  | OpSubmitResponse (now : Date) (data : SubmitResponseData)
  | OpEvaluateResponse (responseId : uuid) (score : Q) (is_correct : bool)
  | OpCompleteSession (now : Date) (sessionId : uuid)
  | OpAbandonSession (sessionId : uuid).

(** the store after one request *)
Definition step (o : op) (db : Database) : Database :=
  match o with
  | OpCreateSession now data => fst (createSession now data db)
  | OpStartSession now sid => fst (startSession now sid db)
  | OpSubmitResponse now data => fst (submitResponse now data db)
  | OpEvaluateResponse rid score ok =>
      fst (evaluateResponse_route rid score ok db)
  | OpCompleteSession now sid => fst (completeSession now sid db)
  | OpAbandonSession sid => fst (abandonSession sid db)
  end.

Definition run (ops : list op) (db : Database) : Database :=
  fold_left (fun d o => step o d) ops db.

(** does the request evaluate response [rid]? *)
Definition evaluates (rid : uuid) (o : op) : bool :=
  match o with
  | OpEvaluateResponse rid' _ _ => N.eqb rid rid'
  | _ => false
  end.

(** does the request hand a score to submitResponse? *)
Definition submits_a_score (o : op) : bool :=
  match o with
  | OpSubmitResponse _ data =>
      match sr_score data with Some _ => true | None => false end
  | _ => false
  end.

(** did the call return a value rather than raise? *)
Definition returned {A : Type} (out : Database * (AppError + A)) : bool :=
  match snd out with
  | inr _ => true
  | inl _ => false
  end.

End SessionService.

(* ===================================================================== *)
(** ** Interview engine (interview_app.py)                               *)
(* ===================================================================== *)

Module InterviewApp.

(** exceptions the engine can let through: a missing dictionary key, an
    operation on a value of the wrong type, a field pydantic refuses, or
    whatever the scorer itself raises (time-out, transport, parsing) *)
Inductive exn : Set :=
  | KeyError (key : string)
  | TypeError
  | ValidationError
  | LLMError (reason : string).

(** JSON-like values, what a scorer can hand back *)
Inductive PyVal : Type :=
  | PyNone
  | PyBool (b : bool)
  | PyInt (z : Z)
  | PyFloat (q : Q)
  | PyStr (s : string)
  | PyList (l : list PyVal)
  | PyDict (d : gmap string PyVal).

Module Question.
Record t : Set := mk {
  id : string;
  text : string;
  type : string
}.
End Question.

(** Question(id=..., text=...), with the default type "qa" *)
Definition mkQuestion (id text : string) : Question.t :=
  Question.mk id text "qa".

Module ResponseRecord.
Record t : Type := mk {
  question_id : string;
  question_text : string;
  answer_text : string;
  timestamp : Date;
  evaluator_id : string;
  scores : gmap string PyVal;
  rationale : string;
  deterministic_results : gmap string PyVal
}.
End ResponseRecord.

(** the dictionary built by Reporter.generate_report *)
Inductive Report : Type :=
  | ReportMessage (message : string)
  | ReportSummary (avg_score : Q) (strengths : string)
                  (responses : list ResponseRecord.t).

(** InterviewState, the class of the skeleton *)
Module InterviewState.
Record t : Type := mk {
  session_id : string;
  phase : string;
  q_index : nat;
  questions : list Question.t;
  responses : list ResponseRecord.t;
  start_time : Date;
  end_time : option Date;
  feedback_report : option Report;
  meta : gmap string PyVal
}.
End InterviewState.

Import InterviewState.

(** The scorer behind the evaluator (mock_llm_evaluate, or the model call
    put in its place).  It is an effectful callable, so one call may raise
    and the next return: [call n question_text answer_text] is the outcome
    of the call made after n earlier calls within the same request. *)
Definition LLM : Type := nat -> string -> string -> exn + PyVal.

(** per-call environment: the scorer, the clock, and what the installed
    pydantic makes of a value that is no str when the field is declared
    str (the string it coerces it to, or nothing when it refuses it) *)
Record Env : Type := mkEnv {
  llm : LLM;
  utcnow : Date;
  coerce_str : PyVal -> option string
}.

Definition make_questions : list Question.t :=
  [ mkQuestion "q1" "Tell me about a project you are proud of.";
    mkQuestion "q2" "How would you optimize a slow SQL query?";
    mkQuestion "q3" "Explain multithreading vs multiprocessing." ].

(** float(random.randint(a, b)), the draw being read off an entropy word *)
Definition randint (a b : Z) (entropy : Z) : Q :=
  inject_Z (a + entropy mod (b - a + 1)).

Definition mock_llm_evaluate (entropy : Z * Z * Z)
    (question_text answer_text : string) : PyVal :=
  let '(e1, e2, e3) := entropy in
  PyDict
    {[ "scores" :=
         PyDict {[ "correctness" := PyFloat (randint 3 5 e1);
                   "design" := PyFloat (randint 2 5 e2);
                   "communication" := PyFloat (randint 2 5 e3) ]};
       "rationale" := PyStr "Reason: concise and mostly correct.";
       "advice" := PyList [PyStr "Add examples"; PyStr "Explain tradeoffs"];
       "evidence" := PyList [PyStr (Text.take_chars 40 answer_text)] ]}.

(** the mock as a scorer: every call draws anew *)
Definition mock_llm (entropy : nat -> Z * Z * Z) : LLM :=
  fun n question_text answer_text =>
    inr (mock_llm_evaluate (entropy n) question_text answer_text).

Definition bind {A B : Type} (m : exn + A) (f : A -> exn + B) : exn + B :=
  match m with
  | inl e => inl e
  | inr a => f a
  end.

Notation "'let*' x ':=' m 'in' k" := (bind m (fun x => k))
  (at level 10, x name, m at level 100, k at level 200).

(** v[k] for a str key: KeyError on a dictionary without the key,
    TypeError on anything that is not a dictionary *)
Definition subscript (v : PyVal) (k : string) : exn + PyVal :=
  match v with
  | PyDict d =>
      match d !! k with
      | Some x => inr x
      | None => inl (KeyError k)
      end
  | _ => inl TypeError
  end.

(** the number a value is in arithmetic: int, float, and bool as 0 or 1 *)
Definition as_number (v : PyVal) : option Q :=
  match v with
  | PyBool b => Some (if b then 1%Q else 0%Q)
  | PyInt z => Some (inject_Z z)
  | PyFloat q => Some q
  | _ => None
  end.

(** v * f for a float f *)
Definition times (v : PyVal) (f : Q) : exn + Q :=
  match as_number v with
  | Some x => inr (x * f)%Q
  | None => inl TypeError
  end.

(** {**v}: the items of a dictionary *)
Definition unpack (v : PyVal) : exn + gmap string PyVal :=
  match v with
  | PyDict d => inr d
  | _ => inl TypeError
  end.

(** a field declared str: a str passes as it is, anything else is up to
    the coercion of pydantic *)
Definition str_field (coerce : PyVal -> option string) (v : PyVal)
    : exn + string :=
  match v with
  | PyStr s => inr s
  | _ =>
      match coerce v with
      | Some s => inr s
      | None => inl ValidationError
      end
  end.

Record EvalResult : Type := mkEvalResult {
  eval_scores : PyVal;
  eval_overall : Q;
  eval_rationale : PyVal;
  eval_advice : PyVal;
  eval_evidence : PyVal
}.

Module Evaluator.
(** one call of the scorer, the first of the request *)
Definition evaluate (call : LLM) (question : Question.t)
    (answer_text : string) : exn + EvalResult :=
  let* r := call 0 (Question.text question) answer_text in
  let* scores := subscript r "scores" in
  let* correctness := subscript scores "correctness" in
  let* c := times correctness (4 # 10) in
  let* design := subscript scores "design" in
  let* d := times design (3 # 10) in
  let* communication := subscript scores "communication" in
  let* m := times communication (3 # 10) in
  let overall := (c + d + m)%Q in
  let* rationale := subscript r "rationale" in
  let* advice := subscript r "advice" in
  let* evidence := subscript r "evidence" in
  inr (mkEvalResult scores overall rationale advice evidence).
End Evaluator.

Module Reporter.
(** resp.scores.get("overall", 0) *)
Definition overall_of (resp : ResponseRecord.t) : PyVal :=
  default (PyInt 0) (ResponseRecord.scores resp !! "overall").

(** sum([...]): 0 + x1 + x2 + ..., TypeError at the first value that is
    no number *)
Definition total (rs : list ResponseRecord.t) : exn + Q :=
  fold_left
    (fun acc resp =>
       let* a := acc in
       match as_number (overall_of resp) with
       | Some x => inr (a + x)%Q
       | None => inl TypeError
       end)
    rs (inr 0%Q).

Definition generate_report (state : InterviewState.t) : exn + Report :=
  match responses state with
  | [] => inr (ReportMessage "No responses")
  | _ :: _ =>
      let* total := total (responses state) in
      let avg :=
        (total / inject_Z (Z.of_nat (length (responses state))))%Q in
      let strengths :=
        if Qlt_le_dec 6 avg then "Good communication."
        else "Needs more depth." in
      inr (ReportSummary avg strengths (responses state))
  end.
End Reporter.

Module InterviewEngine.

(** __init__: a fresh state around the question list; the session id
    (uuid4) and the start time (utcnow) come from the environment *)
Definition init (session_id : string) (start_time : Date)
    (questions : list Question.t) : InterviewState.t :=
  InterviewState.mk session_id "intro" 0 questions [] start_time None None ∅.

Definition set_phase (p : string) (s : InterviewState.t) : InterviewState.t :=
  InterviewState.mk (session_id s) p (q_index s) (questions s) (responses s)
    (start_time s) (end_time s) (feedback_report s) (meta s).

Definition ask_next (s : InterviewState.t) : string * InterviewState.t :=
  if String.eqb (phase s) "intro" then
    ("Welcome! I'll ask a few technical questions.", set_phase "qa" s)
  else if String.eqb (phase s) "qa" then
    match nth_error (questions s) (q_index s) with
    | Some q => (Question.text q, s)
    | None =>
        ("Reflect: what's one thing you would improve?",
         set_phase "reflection" s)
    end
  else if String.eqb (phase s) "reflection" then
    ("Thank you — generating report...", set_phase "closing" s)
  else ("Interview complete.", s).

(** self.state.responses.append(resp); self.state.q_index += 1 *)
Definition record_response (resp : ResponseRecord.t) (s : InterviewState.t)
    : InterviewState.t :=
  InterviewState.mk (session_id s) (phase s) (S (q_index s)) (questions s)
    (responses s ++ [resp]) (start_time s) (end_time s) (feedback_report s)
    (meta s).

Definition set_end_time (now : Date) (s : InterviewState.t)
    : InterviewState.t :=
  InterviewState.mk (session_id s) (phase s) (q_index s) (questions s)
    (responses s) (start_time s) (Some now) (feedback_report s) (meta s).

Definition set_feedback_report (r : Report) (s : InterviewState.t)
    : InterviewState.t :=
  InterviewState.mk (session_id s) (phase s) (q_index s) (questions s)
    (responses s) (start_time s) (end_time s) (Some r) (meta s).

(** ResponseRecord(question_id=q.id, ..., scores={**eval_result["scores"],
    "overall": eval_result["overall"]}, rationale=...): the scores are
    unpacked, then pydantic checks the fields; deterministic_results keeps
    its default, the empty dictionary *)
Definition response_record (coerce : PyVal -> option string)
    (q : Question.t) (user_text : string) (now : Date)
    (eval_result : EvalResult) : exn + ResponseRecord.t :=
  let* scores := unpack (eval_scores eval_result) in
  let* rationale := str_field coerce (eval_rationale eval_result) in
  inr (ResponseRecord.mk (Question.id q) (Question.text q) user_text now
         "mock-v0"
         (<["overall" := PyFloat (eval_overall eval_result)]> scores)
         rationale ∅).

(** eval_result = self.evaluator.evaluate(q, user_text), then
    resp = ResponseRecord(...) *)
Definition evaluated_record (env : Env) (q : Question.t) (user_text : string)
    : exn + ResponseRecord.t :=
  let* eval_result := Evaluator.evaluate (llm env) q user_text in
  response_record (coerce_str env) q user_text (utcnow env) eval_result.

(** process_response: the reply, or the exception that escaped, together
    with the state the call leaves behind *)
Definition process_response (env : Env) (user_text : string)
    (s : InterviewState.t) : (exn + string) * InterviewState.t :=
  if String.eqb (phase s) "qa" then
    match nth_error (questions s) (q_index s) with
    | Some q =>
        match evaluated_record env q user_text with
        | inl e => (inl e, s)
        | inr resp =>
            let '(msg, s') := ask_next (record_response resp s) in
            (inr msg, s')
        end
    | None =>
        let '(msg, s') := ask_next s in (inr msg, s')
    end
  else if String.eqb (phase s) "reflection" then
    let s1 := set_end_time (utcnow env) s in
    match Reporter.generate_report s1 with
    | inl e => (inl e, s1)
    | inr report =>
        (inr "Report ready.",
         set_phase "closing" (set_feedback_report report s1))
    end
  else
    let '(msg, s') := ask_next s in (inr msg, s').

(** phase: Literal["intro","qa","scenario","reflection","closing"] *)
Definition phase_literals : list string :=
  ["intro"; "qa"; "scenario"; "reflection"; "closing"].

(** the phases the engine's methods assign, in the order they do *)
Definition engine_phases : list string :=
  ["intro"; "qa"; "reflection"; "closing"].

(** the tail of [engine_phases] that starts at a phase; any other string
    is a phase the methods leave alone *)
Definition phases_from (p : string) : list string :=
  if String.eqb p "intro" then ["intro"; "qa"; "reflection"; "closing"]
  else if String.eqb p "qa" then ["qa"; "reflection"; "closing"]
  else if String.eqb p "reflection" then ["reflection"; "closing"]
  else [p].

(** a phase either stays, or moves to the next entry of the engine's
    order *)
Definition advances (p p' : string) : Prop :=
  p' = p \/ (p' <> p /\ phases_from p = p :: phases_from p').


(** one call on the engine *)
Inductive op : Type :=
  | OpAskNext
  | OpProcessResponse (env : Env) (user_text : string).

Definition step (o : op) (s : InterviewState.t) : InterviewState.t :=
  match o with
  | OpAskNext => snd (ask_next s)
  | OpProcessResponse env user_text => snd (process_response env user_text s)
  end.

Definition run (ops : list op) (s : InterviewState.t) : InterviewState.t :=
  fold_left (fun st o => step o st) ops s.

(** the phase read before the first call and after each call *)
Fixpoint observed_phases (ops : list op) (s : InterviewState.t)
    : list string :=
  phase s ::
  match ops with
  | [] => []
  | o :: ops' => observed_phases ops' (step o s)
  end.

(** a run of equal consecutive entries counts once *)
Fixpoint distinct_phases (l : list string) : list string :=
  match l with
  | [] => []
  | x :: l' =>
      match l' with
      | [] => [x]
      | y :: _ =>
          if String.eqb x y then distinct_phases l'
          else x :: distinct_phases l'
      end
  end.

(** k answers handed to process_response one after the other *)
Definition submit_all (inputs : list (Env * string)) (s : InterviewState.t)
    : InterviewState.t :=
  fold_left (fun st i => snd (process_response (fst i) (snd i) st)) inputs s.

(** how many of these k calls returned, rather than raised *)
Fixpoint returned_calls (inputs : list (Env * string)) (s : InterviewState.t)
    : nat :=
  match inputs with
  | [] => 0
  | i :: inputs' =>
      let out := process_response (fst i) (snd i) s in
      (match fst out with inr _ => 1 | inl _ => 0 end)
      + returned_calls inputs' (snd out)
  end.

(** what a call of process_response that returns does to the phase and the
    index, given the number of questions *)
Definition advance (n : nat) (x : string * nat) : string * nat :=
  let '(p, i) := x in
  if String.eqb p "qa" then
    if (i <? n)%nat then
      if (S i <? n)%nat then ("qa", S i) else ("reflection", S i)
    else ("reflection", i)
  else if String.eqb p "reflection" then ("closing", i)
  else if String.eqb p "intro" then ("qa", i)
  else (p, i).



(** the correctness axis of a stored record *)
Definition correctness_of (r : ResponseRecord.t) : option PyVal :=
  ResponseRecord.scores r !! "correctness".

(** what the engine holds beside the stored records *)
Definition outside_records (s : InterviewState.t)
    : string * string * nat * list Question.t * Date * option Date
      * gmap string PyVal :=
  (session_id s, phase s, q_index s, questions s, start_time s, end_time s,
   meta s).

End InterviewEngine.

End InterviewApp.

(* ===================================================================== *)
(** ** Chat handler (interview_app.py, Gradio part)                      *)
(* ===================================================================== *)

Module InterviewUI.

Import InterviewApp InterviewApp.InterviewState InterviewApp.InterviewEngine.

(** the chat box: (role, message) pairs, oldest first *)
Definition ChatHistory : Type := list (string * string).

(** on_submit.  json.dumps is the argument [dumps]; the engine is the
    module-level one, threaded here as the state.  An exception of
    process_response leaves the handler before ask_next is reached. *)
Definition on_submit (dumps : Report -> exn + string) (env : Env)
    (user_message : string) (chat_history : ChatHistory)
    (s : InterviewState.t)
    : (exn + (string * ChatHistory)) * InterviewState.t :=
  let chat1 := chat_history ++ [("user", user_message)] in
  match process_response env user_message s with
  | (inl e, s1) => (inl e, s1)
  | (inr reply, s1) =>
      let '(next_msg, s2) := ask_next s1 in
      let chat2 := chat1 ++ [("assistant", next_msg)] in
      match feedback_report s2 with
      | Some report =>
          match dumps report with
          | inl e => (inl e, s2)
          | inr text => (inr (EmptyString, chat2 ++ [("assistant", text)]), s2)
          end
      | None => (inr (EmptyString, chat2), s2)
      end
  end.

(** the chat box and the engine after one message: a handler that raises
    updates no output, so the chat box keeps what it showed *)
Definition submit (dumps : Report -> exn + string)
    (x : ChatHistory * InterviewState.t) (i : Env * string)
    : ChatHistory * InterviewState.t :=
  match on_submit dumps (fst i) (snd i) (fst x) (snd x) with
  | (inl _, s') => (fst x, s')
  | (inr (_, chat'), s') => (chat', s')
  end.

Definition submit_messages (dumps : Report -> exn + string)
    (inputs : list (Env * string)) (x : ChatHistory * InterviewState.t)
    : ChatHistory * InterviewState.t :=
  fold_left (submit dumps) inputs x.

(** the call is one the skeleton itself can make: ask_next, or an answer
    scored by mock_llm_evaluate *)
Definition uses_mock (o : op) : Prop :=
  match o with
  | OpAskNext => True
  | OpProcessResponse env _ => exists entropy, llm env = mock_llm entropy
  end.

(** identity and text of a stored record, and of a question *)
Definition asked (r : ResponseRecord.t) : string * string :=
  (ResponseRecord.question_id r, ResponseRecord.question_text r).

Definition asks (q : Question.t) : string * string :=
  (Question.id q, Question.text q).

(** where the engine of a run of on_submit calls rests between two
    messages when there is a question to ask: before or at a pending
    question, or closed; no report stored *)
Definition between_messages (s : InterviewState.t) : Prop :=
  feedback_report s = None
  /\ q_index s < length (questions s)
     /\ (phase s = "intro" \/ phase s = "qa")
     \/ feedback_report s = None /\ phase s = "closing".

(** ... and where process_response leaves it, before the handler's own
    ask_next *)
Definition after_answer (s : InterviewState.t) : Prop :=
  feedback_report s = None
  /\ ((phase s = "qa" /\ q_index s < length (questions s))
      \/ phase s = "reflection"
      \/ phase s = "closing").

End InterviewUI.

(* ===================================================================== *)
(** ** The store's constraints, as properties of a store                 *)
(* ===================================================================== *)

Module Constraints.

Import SessionService.

(** the three foreign keys of interview_sessions and session_responses *)
Definition references_hold (db : Database) : Prop :=
  (forall s, In s (interview_sessions db) ->
             mem (InterviewSession.interview_id s) (interviews db) = true)
  /\ (forall r, In r (session_responses db) ->
                session_exists (SessionResponse.session_id r) db = true
                /\ mem (SessionResponse.question_id r)
                       (interview_questions db) = true).

(** primary keys: drawn below the counter, no two rows of a table alike *)
Definition keys_fresh (db : Database) : Prop :=
  (forall s, In s (interview_sessions db) ->
             (InterviewSession.id s < next_uuid db)%N)
  /\ (forall r, In r (session_responses db) ->
                (SessionResponse.id r < next_uuid db)%N)
  /\ List.NoDup (map InterviewSession.id (interview_sessions db))
  /\ List.NoDup (map SessionResponse.id (session_responses db)).

(** a value a numeric(5,2) column can hold: hundredths, below 1000 *)
Definition is_numeric_5_2 (q : Q) : Prop :=
  exists c, q = c # 100 /\ (Z.abs c < 100000)%Z.

(** a value a character varying(n) or text column can hold *)
Definition is_varchar (n : nat) (s : string) : Prop :=
  Text.has_nul s = false /\ Text.char_length s <= n.

(** every row of the two tables fits the types of its columns *)
Definition columns_fit (db : Database) : Prop :=
  (forall s, In s (interview_sessions db) ->
             is_varchar 255 (InterviewSession.candidate_name s)
             /\ is_varchar 255 (InterviewSession.candidate_email s)
             /\ (forall t, InterviewSession.total_score s = Some t ->
                           is_numeric_5_2 t))
  /\ (forall r, In r (session_responses db) ->
                Text.has_nul (SessionResponse.answer r) = false
                /\ (-2147483648 <= SessionResponse.time_taken r
                    <= 2147483647)%Z
                /\ (forall q, SessionResponse.score r = Some q ->
                              is_numeric_5_2 q)).

End Constraints.

(* ===================================================================== *)
(** ** Interviews and questions: entities, full store, interview service *)
(* ===================================================================== *)

Inductive DifficultyLevel : Set :=
  | BEGINNER
  | INTERMEDIATE
  | ADVANCED
  | EXPERT.

Inductive InterviewStatus : Set :=
  | DRAFT
  | ACTIVE
  | ARCHIVED.

Inductive QuestionType : Set :=
  | MULTIPLE_CHOICE
  | TEXT_INPUT
  | FORMULA
  | PRACTICAL.

Record ExcelScenario : Set := mkExcelScenario {
  data_setup : string;
  required_formulas : option (list string);
  expected_output : string;
  hints : option (list string)
}.

(** entity [Interview], table interviews *)
Module Interview.
Record t : Set := mk {
  id : uuid;
  title : string;
  description : option string;
  difficulty_level : DifficultyLevel;
  estimated_duration : Z;
  status : InterviewStatus;
  created_at : Date
}.
End Interview.

(** entity [InterviewQuestion], table interview_questions *)
Module InterviewQuestion.
Record t : Set := mk {
  id : uuid;
  interview_id : uuid;
  question_text : string;
  question_type : QuestionType;
  expected_answer : option string;
  points : Z;
  order_index : Z;
  excel_scenario : option ExcelScenario;
  created_at : Date
}.
End InterviewQuestion.

(** an interview row together with its loaded [questions] relation *)
Record LoadedInterview : Set := mkLoadedInterview {
  interview : Interview.t;
  questions : list InterviewQuestion.t
}.

(** The four tables with all their columns.  [database_of] is the view
    the session service works on; [with_database] writes its two tables
    and the key counter back. *)
Record Store : Set := mkStore {
  interview_rows : list Interview.t;
  question_rows : list InterviewQuestion.t;
  session_rows : list InterviewSession.t;
  response_rows : list SessionResponse.t;
  next_key : uuid
}.

Definition database_of (st : Store) : Database :=
  mkDatabase (map Interview.id (interview_rows st))
    (map InterviewQuestion.id (question_rows st))
    (session_rows st) (response_rows st) (next_key st).

Definition with_database (st : Store) (db : Database) : Store :=
  mkStore (interview_rows st) (question_rows st) (interview_sessions db)
    (session_responses db) (next_uuid db).

Module InterviewService.

(** questions ordered by order_index ASC *)
Fixpoint insert_by_order_index (q : InterviewQuestion.t)
    (l : list InterviewQuestion.t) : list InterviewQuestion.t :=
  match l with
  | [] => [q]
  | x :: l' =>
      if (InterviewQuestion.order_index q
          <=? InterviewQuestion.order_index x)%Z
      then q :: x :: l'
      else x :: insert_by_order_index q l'
  end.

Definition questions_of (interviewId : uuid) (st : Store)
    : list InterviewQuestion.t :=
  List.filter (fun q => N.eqb (InterviewQuestion.interview_id q) interviewId)
              (question_rows st).

(** an interview with relations: ["questions"],
    order: { questions: { order_index: "ASC" } } *)
Definition load (st : Store) (i : Interview.t) : LoadedInterview :=
  mkLoadedInterview i
    (fold_right insert_by_order_index [] (questions_of (Interview.id i) st)).

(** the fields createInterview receives; a missing status takes the
    column default *)
Record CreateInterviewData : Set := mkCreateInterviewData {
  ci_title : string;
  ci_description : option string;
  ci_difficulty_level : DifficultyLevel;
  ci_estimated_duration : Z;
  ci_status : option InterviewStatus
}.

(** the row interviews holds for a new entity: title as character
    varying(255), description as text, estimated_duration as integer *)
Definition interview_columns (i : Interview.t) : option Interview.t :=
  match Postgres.varchar 255 (Interview.title i),
        Postgres.nullable Postgres.text (Interview.description i),
        Postgres.int4 (Interview.estimated_duration i) with
  | Some title, Some description, Some estimated_duration =>
      Some (Interview.mk (Interview.id i) title description
              (Interview.difficulty_level i) estimated_duration
              (Interview.status i) (Interview.created_at i))
  | _, _, _ => None
  end.

(** create(data) then save: INSERT under the column types; the entity
    comes back with its key and the defaults of the columns it left out *)
Definition createInterview (now : Date) (data : CreateInterviewData)
    (st : Store) : Store * (AppError + LoadedInterview) :=
  let savedInterview :=
    Interview.mk (next_key st) (ci_title data) (ci_description data)
      (ci_difficulty_level data) (ci_estimated_duration data)
      (default DRAFT (ci_status data)) now in
  match interview_columns savedInterview with
  | Some stored =>
      (mkStore (interview_rows st ++ [stored]) (question_rows st)
         (session_rows st) (response_rows st) (N.succ (next_key st)),
       inr (mkLoadedInterview savedInterview []))
  | None => (st, inl (mkAppError "Failed to create interview" 500))
  end.

Definition getInterviewById (id : uuid) (st : Store)
    : AppError + option LoadedInterview :=
  inr (option_map (load st)
         (List.find (fun i => N.eqb (Interview.id i) id) (interview_rows st))).

(** DELETE FROM interviews WHERE id = ..., with the ON DELETE CASCADE of
    the three foreign keys that lead to it; true when a row was deleted *)
Definition deleteInterview (id : uuid) (st : Store)
    : Store * (AppError + bool) :=
  let of_it_q q := N.eqb (InterviewQuestion.interview_id q) id in
  let of_it_s s := N.eqb (InterviewSession.interview_id s) id in
  let gone_q :=
    map InterviewQuestion.id (List.filter of_it_q (question_rows st)) in
  let gone_s :=
    map InterviewSession.id (List.filter of_it_s (session_rows st)) in
  let affected :=
    length (List.filter (fun i => N.eqb (Interview.id i) id)
              (interview_rows st)) in
  (mkStore
     (List.filter (fun i => negb (N.eqb (Interview.id i) id))
        (interview_rows st))
     (List.filter (fun q => negb (of_it_q q)) (question_rows st))
     (List.filter (fun s => negb (of_it_s s)) (session_rows st))
     (List.filter
        (fun r =>
           negb (SessionService.mem (SessionResponse.session_id r) gone_s)
           && negb (SessionService.mem (SessionResponse.question_id r)
                      gone_q))
        (response_rows st))
     (next_key st),
   inr (Nat.ltb 0 affected)).

(** the fields addQuestionToInterview receives; missing points take the
    column default 1 *)
Record QuestionData : Set := mkQuestionData {
  qd_question_text : string;
  qd_question_type : QuestionType;
  qd_expected_answer : option string;
  qd_points : option Z;
  qd_order_index : Z;
  qd_excel_scenario : option ExcelScenario
}.

Definition has_order (interviewId : uuid) (order_index : Z) (st : Store)
    : bool :=
  existsb (fun q => N.eqb (InterviewQuestion.interview_id q) interviewId
                    && (InterviewQuestion.order_index q =? order_index)%Z)
          (question_rows st).

(** jsonb takes no string with a NUL character *)
Definition jsonb_strings (l : list string) : bool :=
  forallb (fun s => negb (Text.has_nul s)) l.

Definition jsonb (e : ExcelScenario) : option ExcelScenario :=
  if jsonb_strings
       (data_setup e :: expected_output e
        :: default [] (required_formulas e) ++ default [] (hints e))
  then Some e else None.

(** the columns of interview_questions accept the entity as it is, or
    refuse it: question_text and expected_answer as text, points and
    order_index as integer, excel_scenario as jsonb *)
Definition question_columns (q : InterviewQuestion.t) : bool :=
  bool_decide (is_Some (Postgres.text (InterviewQuestion.question_text q)))
  && bool_decide
       (is_Some (Postgres.nullable Postgres.text
                   (InterviewQuestion.expected_answer q)))
  && bool_decide (is_Some (Postgres.int4 (InterviewQuestion.points q)))
  && bool_decide (is_Some (Postgres.int4 (InterviewQuestion.order_index q)))
  && bool_decide
       (is_Some (Postgres.nullable jsonb (InterviewQuestion.excel_scenario q))).

(** create({ ...questionData, interview_id }) then save: INSERT under the
    column types, FK_interview_questions_interview_id and
    UQ_interview_questions_interview_id_order_index *)
Definition addQuestionToInterview (now : Date) (interviewId : uuid)
    (questionData : QuestionData) (st : Store)
    : Store * (AppError + InterviewQuestion.t) :=
  let savedQuestion :=
    InterviewQuestion.mk (next_key st) interviewId
      (qd_question_text questionData) (qd_question_type questionData)
      (qd_expected_answer questionData)
      (default 1%Z (qd_points questionData))
      (qd_order_index questionData) (qd_excel_scenario questionData) now in
  if question_columns savedQuestion
     && SessionService.mem interviewId (map Interview.id (interview_rows st))
     && negb (has_order interviewId (qd_order_index questionData) st)
  then
    (mkStore (interview_rows st) (question_rows st ++ [savedQuestion])
       (session_rows st) (response_rows st) (N.succ (next_key st)),
     inr savedQuestion)
  else (st, inl (mkAppError "Failed to add question to interview" 500)).

(** DELETE FROM interview_questions WHERE id = ..., cascading to the
    responses given to the question *)
Definition deleteQuestion (questionId : uuid) (st : Store)
    : Store * (AppError + bool) :=
  let affected :=
    length (List.filter (fun q => N.eqb (InterviewQuestion.id q) questionId)
              (question_rows st)) in
  (mkStore (interview_rows st)
     (List.filter (fun q => negb (N.eqb (InterviewQuestion.id q) questionId))
        (question_rows st))
     (session_rows st)
     (List.filter
        (fun r => negb (N.eqb (SessionResponse.question_id r) questionId))
        (response_rows st))
     (next_key st),
   inr (Nat.ltb 0 affected)).

(** the pagination block of getInterviews, for page >= 1 and limit >= 1
    (what paginationQuerySchema admits) *)
Record Pagination : Set := mkPagination {
  page : positive;
  limit : positive;
  total : nat;
  totalPages : nat;
  hasNext : bool;
  hasPrev : bool
}.

Record PaginatedResponse : Set := mkPaginatedResponse {
  page_data : list LoadedInterview;
  pagination : Pagination
}.

(** Math.ceil(total / limit) *)
Definition ceil_div (total : nat) (limit : positive) : nat :=
  (total + Pos.to_nat limit - 1) / Pos.to_nat limit.

(** getInterviews.  The query itself, findAndCount with relations, order,
    skip and take, is answered by the store and is the argument
    [findAndCount] here: given the sort column, the direction, skip and
    take, it hands back the rows of the page and the count, or fails (on a
    name that is no column, say). *)
Definition getInterviews
    (findAndCount : string -> bool -> nat -> nat
                    -> option (list LoadedInterview * nat))
    (page limit : option positive) (sortBy : option string)
    (descending : option bool) : AppError + PaginatedResponse :=
  let page := default 1%positive page in
  let limit := default 10%positive limit in
  let skip := (Pos.to_nat page - 1) * Pos.to_nat limit in
  match findAndCount (default "created_at" sortBy) (default true descending)
          skip (Pos.to_nat limit) with
  | Some (interviews, total) =>
      let totalPages := ceil_div total limit in
      inr (mkPaginatedResponse interviews
             (mkPagination page limit total totalPages
                (Nat.ltb (Pos.to_nat page) totalPages)
                (Nat.ltb 1 (Pos.to_nat page))))
  | None => inl (mkAppError "Failed to retrieve interviews" 500)
  end.

(** one call on either service.  updateInterview and updateQuestion, which
    write whatever partial entity they are handed, are not among the calls
    followed here. *)
Inductive op : Set :=
  | OpCreateInterview (now : Date) (data : CreateInterviewData)
  | OpDeleteInterview (id : uuid)
  | OpAddQuestion (now : Date) (interviewId : uuid) (data : QuestionData)
  | OpDeleteQuestion (questionId : uuid)
  | OpSession (o : SessionService.op).

Definition step (o : op) (st : Store) : Store :=
  match o with
  | OpCreateInterview now data => fst (createInterview now data st)
  | OpDeleteInterview id => fst (deleteInterview id st)
  | OpAddQuestion now interviewId data =>
      fst (addQuestionToInterview now interviewId data st)
  | OpDeleteQuestion questionId => fst (deleteQuestion questionId st)
  | OpSession o' =>
      with_database st (SessionService.step o' (database_of st))
  end.

Definition run (ops : list op) (st : Store) : Store :=
  fold_left (fun s o => step o s) ops st.

(** all foreign keys of the four tables *)
Definition references_hold (st : Store) : Prop :=
  (forall q, In q (question_rows st) ->
             In (InterviewQuestion.interview_id q)
                (map Interview.id (interview_rows st)))
  /\ Constraints.references_hold (database_of st).

(** all primary keys and the two UNIQUE constraints *)
Definition keys_unique (st : Store) : Prop :=
  Constraints.keys_fresh (database_of st)
  /\ (forall i, In i (interview_rows st) -> (Interview.id i < next_key st)%N)
  /\ (forall q, In q (question_rows st) ->
                (InterviewQuestion.id q < next_key st)%N)
  /\ List.NoDup (map Interview.id (interview_rows st))
  /\ List.NoDup (map InterviewQuestion.id (question_rows st))
  /\ List.NoDup
       (map (fun q => (InterviewQuestion.interview_id q,
                       InterviewQuestion.order_index q))
            (question_rows st))
  /\ List.NoDup (map SessionService.key (response_rows st)).

Definition empty_store : Store := mkStore [] [] [] [] 0%N.

(** the constraints, row by row *)
Definition rows_ok (st : Store) : Prop :=
  ((forall q, In q (question_rows st) ->
              In (InterviewQuestion.interview_id q)
                 (map Interview.id (interview_rows st)))
   /\ (forall s, In s (session_rows st) ->
                 In (InterviewSession.interview_id s)
                    (map Interview.id (interview_rows st)))
   /\ (forall r, In r (response_rows st) ->
                 In (SessionResponse.session_id r)
                    (map InterviewSession.id (session_rows st))
                 /\ In (SessionResponse.question_id r)
                       (map InterviewQuestion.id (question_rows st))))
  /\ ((forall i, In i (interview_rows st) -> (Interview.id i < next_key st)%N)
      /\ (forall q, In q (question_rows st) ->
                    (InterviewQuestion.id q < next_key st)%N)
      /\ (forall s, In s (session_rows st) ->
                    (InterviewSession.id s < next_key st)%N)
      /\ (forall r, In r (response_rows st) ->
                    (SessionResponse.id r < next_key st)%N))
  /\ (List.NoDup (map Interview.id (interview_rows st))
      /\ List.NoDup (map InterviewQuestion.id (question_rows st))
      /\ List.NoDup (map InterviewSession.id (session_rows st))
      /\ List.NoDup (map SessionResponse.id (response_rows st))
      /\ List.NoDup
           (map (fun q => (InterviewQuestion.interview_id q,
                           InterviewQuestion.order_index q))
                (question_rows st))
      /\ List.NoDup (map SessionService.key (response_rows st))).

End InterviewService.

(* ===================================================================== *)
(** ** Sample data                                                       *)
(* ===================================================================== *)

Module Samples.

Import SessionService.

(** one interview (key 1) with two questions (keys 10 and 11) *)
Definition db0 : Database := mkDatabase [1%N] [10%N; 11%N] [] [] 100%N.

Definition alice : CreateSessionData :=
  mkCreateSessionData 1%N "Alice" "alice@example.com".

Definition answer_q10 : SubmitResponseData :=
  mkSubmitResponseData 100%N 10%N "=SUM(A1:A10)" 30%Z None.

Definition answer_q11 : SubmitResponseData :=
  mkSubmitResponseData 100%N 11%N "=VLOOKUP(A1,range,3,FALSE)" 45%Z None.

(** a session is created and started, both questions are answered *)
Definition answered : list op :=
  [ OpCreateSession 1000%Z alice;
    OpStartSession 1001%Z 100%N;
    OpSubmitResponse 1002%Z answer_q10;
    OpSubmitResponse 1003%Z answer_q11 ].

(** ... and both answers are given full marks *)
Definition evaluated : list op :=
  answered ++ [ OpEvaluateResponse 101%N 100%Q true;
                OpEvaluateResponse 102%N 100%Q true ].


(** the session is created and started, and the first answer arrives with
    a score of 100 in the object handed to submitResponse *)
Definition scored_answer_q10 : SubmitResponseData :=
  mkSubmitResponseData 100%N 10%N "=SUM(A1:A10)" 30%Z (Some 100%Q).

Definition started : list op :=
  [ OpCreateSession 1000%Z alice; OpStartSession 1001%Z 100%N ].



Import InterviewApp InterviewApp.InterviewEngine.

(** the SUM question of the seeded interview, as an engine question *)
Definition sum_question : InterviewApp.Question.t :=
  mkQuestion "sum"
    "What is the formula to calculate the sum of cells A1 to A10?".


(** a pydantic that coerces nothing to str *)
Definition strict : PyVal -> option string := fun _ => None.

(** a mock evaluator whose three draws all come out at the top: 5, 5, 5 *)
Definition generous : Env :=
  mkEnv (mock_llm (fun _ => (2, 3, 3)%Z)) 10%Z strict.



(** a scorer whose reply is not the JSON asked for: an empty dictionary *)
Definition malformed : Env := mkEnv (fun _ _ _ => inr (PyDict ∅)) 10%Z strict.


(** a scorer that marks every axis at 1 *)
Definition severe : Env :=
  mkEnv (fun _ _ _ =>
           inr (PyDict
                  {[ "scores" :=
                       PyDict {[ "correctness" := PyInt 1;
                                 "design" := PyInt 1;
                                 "communication" := PyInt 1 ]};
                     "rationale" := PyStr "Mostly wrong.";
                     "advice" := PyList [];
                     "evidence" := PyList [] ]}))
        10%Z strict.

(** the three stock questions, after the welcome message *)
Definition stock_engine : InterviewState.t :=
  snd (ask_next (init "session-2" 0%Z make_questions)).

End Samples.

(* ===================================================================== *)
(** ** More sample data                                                  *)
(* ===================================================================== *)

Module MoreSamples.

Import InterviewApp InterviewApp.InterviewEngine.

(** an engine without questions, asked three times: closed, no report *)
Definition closed_engine : InterviewState.t :=
  run [OpAskNext; OpAskNext; OpAskNext] (init "session-3" 0%Z []).

(** the mock evaluator at another time of day *)
Definition later : Env :=
  mkEnv (mock_llm (fun _ => (0, 1, 2)%Z)) 20%Z Samples.strict.

(** welcome, one answer to the SUM question, one reflection *)
Definition whole_interview : list op :=
  [ OpAskNext;
    OpProcessResponse later "=SUM(A1:A10)";
    OpProcessResponse later "I would practise lookups." ].

(** what the mock makes of that answer: 3, 3 and 4 *)
Definition sum_record : ResponseRecord.t :=
  ResponseRecord.mk "sum"
    "What is the formula to calculate the sum of cells A1 to A10?"
    "=SUM(A1:A10)" 20%Z "mock-v0"
    {[ "correctness" := PyFloat (inject_Z 3);
       "design" := PyFloat (inject_Z 3);
       "communication" := PyFloat (inject_Z 4);
       "overall" :=
         PyFloat (inject_Z 3 * (4 # 10) + inject_Z 3 * (3 # 10)
                  + inject_Z 4 * (3 # 10))%Q ]}
    "Reason: concise and mostly correct." ∅.

(** five chat messages *)
Definition five_messages : list (Env * string) :=
  [ (later, "hello"); (later, "a1"); (later, "a2"); (later, "a3");
    (later, "thanks") ].

(** json.dumps, for a report without time stamps *)
Definition dumps_ok (r : Report) : exn + string := inr "{}".

Import SessionService.



(** Alice's session as loaded after [Samples.answered] *)
Definition alice_session : Loaded :=
  mkLoaded
    (InterviewSession.mk 100%N 1%N "Alice" "alice@example.com" IN_PROGRESS
       (Some 1001%Z) None None 1000%Z)
    [ SessionResponse.mk 101%N 100%N 10%N "=SUM(A1:A10)" None 30%Z false
        1002%Z;
      SessionResponse.mk 102%N 100%N 11%N "=VLOOKUP(A1,range,3,FALSE)" None
        45%Z false 1003%Z ].

Import InterviewService.

Definition fundamentals : CreateInterviewData :=
  mkCreateInterviewData "Excel Fundamentals Assessment" None BEGINNER 30%Z
    (Some ACTIVE).

Definition sum_data : QuestionData :=
  mkQuestionData "What is the formula to calculate the sum of cells A1 to A10?"
    FORMULA (Some "=SUM(A1:A10)") (Some 5%Z) 1%Z None.

Definition reference_data : QuestionData :=
  mkQuestionData "How do you create an absolute reference in Excel?"
    MULTIPLE_CHOICE (Some "Use $ symbol before column and row references")
    None 2%Z None.

(** an interview (key 0) whose second question (key 1) is added before
    its first (key 2), a session (key 3) and an answer (key 4) *)
Definition seeded : list InterviewService.op :=
  [ OpCreateInterview 10%Z fundamentals;
    OpAddQuestion 11%Z 0%N reference_data;
    OpAddQuestion 12%Z 0%N sum_data;
    OpSession
      (OpCreateSession 13%Z
         (mkCreateSessionData 0%N "Alice" "alice@example.com"));
    OpSession
      (OpSubmitResponse 14%Z
         (mkSubmitResponseData 3%N 2%N "=SUM(A1:A10)" 30%Z None)) ].

Definition seeded_store : Store := InterviewService.run seeded empty_store.

(** the interview as getInterviewById loads it from [seeded_store] *)
Definition fundamentals_loaded : LoadedInterview :=
  mkLoadedInterview
    (Interview.mk 0%N "Excel Fundamentals Assessment" None BEGINNER 30%Z
       ACTIVE 10%Z)
    [ InterviewQuestion.mk 2%N 0%N
        "What is the formula to calculate the sum of cells A1 to A10?"
        FORMULA (Some "=SUM(A1:A10)") 5%Z 1%Z None 12%Z;
      InterviewQuestion.mk 1%N 0%N
        "How do you create an absolute reference in Excel?"
        MULTIPLE_CHOICE
        (Some "Use $ symbol before column and row references") 1%Z 2%Z None
        11%Z ].

(** a store with 25 interviews asked for its third page of ten: the five
    rows left (here without their contents) and the count *)
Definition third_page (column : string) (descending : bool) (skip take : nat)
    : option (list LoadedInterview * nat) :=
  Some (firstn take (skipn skip (repeat fundamentals_loaded 25)), 25).

End MoreSamples.

(* ===================================================================== *)
(** ** Proof steps shared by the facts below                             *)
(* ===================================================================== *)

(** the four cases of the engine's phase tests *)
Ltac by_phase s :=
  destruct (String.eqb_spec (InterviewApp.InterviewState.phase s) "intro");
  [|destruct (String.eqb_spec (InterviewApp.InterviewState.phase s) "qa");
    [|destruct (String.eqb_spec (InterviewApp.InterviewState.phase s)
                 "reflection")]].

(* ===================================================================== *)
(** ** Facts about the column types                                      *)
(* ===================================================================== *)

Section ColumnFacts.

Import Postgres.

Local Open Scope string_scope.



Lemma numeric_5_2_Some (q stored : Q) :
  numeric_5_2 q = Some stored ->
  stored = round_hundredths q # 100
  /\ (Z.abs (round_hundredths q) < 100000)%Z.
Proof.
  unfold numeric_5_2.
  destruct (Z.abs (round_hundredths q) <? 100000)%Z eqn:E; [|discriminate].
  intros [= <-]. split; [reflexivity|]. now apply Z.ltb_lt.
Qed.

(** rounding moves a number by half a hundredth at most *)
Lemma round_hundredths_near (q : Q) :
  (q - (1 # 200) <= round_hundredths q # 100
   /\ round_hundredths q # 100 <= q + (1 # 200))%Q.
Proof.
  destruct q as [n d]. unfold round_hundredths. cbn [Qnum Qden].
  destruct (0 <=? n * 100)%Z eqn:E.
  - apply Z.leb_le in E.
    pose proof (Z.div_mod (2 * (n * 100) + Z.pos d) (2 * Z.pos d)
                  ltac:(lia)) as Hdm.
    pose proof (Z.mod_pos_bound (2 * (n * 100) + Z.pos d) (2 * Z.pos d)
                  ltac:(lia)) as Hm.
    set (k := ((2 * (n * 100) + Z.pos d) / (2 * Z.pos d))%Z) in *.
    set (m := ((2 * (n * 100) + Z.pos d) mod (2 * Z.pos d))%Z) in *.
    unfold Qle, Qminus, Qplus, Qopp. cbn [Qnum Qden].
    split; nia.
  - apply Z.leb_gt in E.
    pose proof (Z.div_mod (2 * - (n * 100) + Z.pos d) (2 * Z.pos d)
                  ltac:(lia)) as Hdm.
    pose proof (Z.mod_pos_bound (2 * - (n * 100) + Z.pos d) (2 * Z.pos d)
                  ltac:(lia)) as Hm.
    set (k := ((2 * - (n * 100) + Z.pos d) / (2 * Z.pos d))%Z) in *.
    set (m := ((2 * - (n * 100) + Z.pos d) mod (2 * Z.pos d))%Z) in *.
    unfold Qle, Qminus, Qplus, Qopp. cbn [Qnum Qden].
    split; nia.
Qed.

(** rounding is monotone: it keeps a number between two stored values
    between them *)
Lemma round_hundredths_between (q : Q) (lo hi : Z) :
  (lo # 100 <= q)%Q -> (q <= hi # 100)%Q ->
  (lo <= round_hundredths q <= hi)%Z.
Proof.
  intros Hlo Hhi. pose proof (round_hundredths_near q) as [L U].
  assert (H1 : (lo # 100 <= (round_hundredths q # 100) + (1 # 200))%Q) by lra.
  assert (H2 : ((round_hundredths q # 100) - (1 # 200) <= hi # 100)%Q) by lra.
  unfold Qle, Qminus, Qplus, Qopp in H1, H2. cbn [Qnum Qden] in H1, H2.
  lia.
Qed.


(** *** decimal texts *)

Lemma append_nil (s : string) : EmptyString ++ s = s.
Proof. reflexivity. Qed.

Lemma append_cons (c : ascii) (a b : string) :
  String c a ++ b = String c (a ++ b).
Proof. reflexivity. Qed.

Lemma app_assoc_string (a b c : string) : (a ++ b) ++ c = a ++ (b ++ c).
Proof.
  induction a as [|x a IH]; [reflexivity|].
  rewrite !append_cons. now rewrite IH.
Qed.

(** a text with a character that is no digit is no run of digits *)
Lemma digits_with_other (a b : string) (c : ascii) :
  uint_of_char c (Some Decimal.Nil) = None ->
  digits (a ++ String c b) = None.
Proof.
  intros Hc. unfold digits.
  assert (H : NilEmpty.uint_of_string (a ++ String c b) = None).
  { induction a as [|x a IH].
    - rewrite append_nil. cbn.
      destruct (NilEmpty.uint_of_string b); [|reflexivity].
      revert Hc. unfold uint_of_char.
      destruct c as [[] [] [] [] [] [] [] []]; congruence.
    - rewrite append_cons. cbn. now rewrite IH. }
  now rewrite H.
Qed.

Lemma all_digits_string_of_uint (d : Decimal.uint) :
  all_digits (NilEmpty.string_of_uint d) = true.
Proof. induction d; cbn; try assumption; reflexivity. Qed.

Lemma all_digits_decimal (n : N) : all_digits (decimal n) = true.
Proof.
  unfold decimal, NilZero.string_of_uint.
  destruct (N.to_uint n); try apply all_digits_string_of_uint. reflexivity.
Qed.

Lemma all_digits_two_digits (n : N) : all_digits (two_digits n) = true.
Proof.
  unfold two_digits. destruct (n <? 10)%N.
  - rewrite append_cons, append_nil. cbn. apply all_digits_decimal.
  - apply all_digits_decimal.
Qed.

Lemma digits_decimal (n : N) : digits (decimal n) = Some n.
Proof.
  unfold digits, decimal, NilZero.string_of_uint.
  destruct (N.to_uint n) eqn:E;
    try (rewrite <- E, NilEmpty.usu; cbn; now rewrite Unsigned.of_to).
  cbn. rewrite <- (Unsigned.of_to n), E. reflexivity.
Qed.

Lemma digits_zero_first (s : string) (n : N) :
  digits s = Some n -> digits (String "0" s) = Some n.
Proof.
  unfold digits. cbn.
  destruct (NilEmpty.uint_of_string s); [|discriminate].
  cbn. now intros [= <-].
Qed.

Lemma split_point_app (a b : string) :
  all_digits a = true -> split_point (a ++ String "." b) = (a, Some b).
Proof.
  induction a as [|c a IH]; [reflexivity|].
  rewrite append_cons. cbn.
  intros H. apply andb_prop in H as [Hc Ha].
  destruct (Ascii.eqb c ".") eqn:E.
  - apply Ascii.eqb_eq in E. subst c. discriminate.
  - now rewrite IH.
Qed.

(** the text before the first point of a text, when a minus sign comes
    before that point, is no run of digits *)
Lemma split_point_minus (a b : string) :
  all_digits a = true ->
  digits (fst (split_point (a ++ String "-" b))) = None.
Proof.
  induction a as [|c a IH].
  - intros _. rewrite append_nil. cbn.
    destruct (split_point b) as [x y]. cbn.
    apply (digits_with_other EmptyString). reflexivity.
  - rewrite append_cons. cbn.
    intros H. apply andb_prop in H as [Hc Ha].
    destruct (Ascii.eqb c ".") eqn:E.
    + apply Ascii.eqb_eq in E. subst c. discriminate.
    + specialize (IH Ha).
      destruct (split_point (a ++ String "-" b)) as [x y]. cbn in *.
      unfold digits in *. cbn.
      destruct (NilEmpty.uint_of_string x); [discriminate|reflexivity].
Qed.

Lemma two_digits_spec (n : N) :
  (n < 100)%N ->
  String.length (two_digits n) = 2 /\ digits (two_digits n) = Some n.
Proof.
  intros H.
  assert (Hall :
    forallb (fun k =>
               Nat.eqb (String.length (two_digits (N.of_nat k))) 2
               && bool_decide (digits (two_digits (N.of_nat k))
                               = Some (N.of_nat k)))
            (seq 0 100) = true) by (vm_compute; reflexivity).
  rewrite forallb_forall in Hall.
  assert (Hin : In (N.to_nat n) (seq 0 100)) by (apply in_seq; lia).
  specialize (Hall _ Hin). rewrite N2Nat.id in Hall.
  apply andb_prop in Hall as [H1 H2].
  split; [now apply Nat.eqb_eq|]. now apply bool_decide_eq_true in H2.
Qed.

(** the text of a stored value: sign, digits, point, two digits *)
Lemma numeric_out_shape (q : Q) :
  exists a b,
    numeric_out q = sign_of q ++ a ++ String "." b
    /\ all_digits a = true /\ all_digits b = true
    /\ String.length b = 2
    /\ digits a = Some (Z.to_N (Z.abs (round_hundredths q)) / 100)%N
    /\ digits b = Some (Z.to_N (Z.abs (round_hundredths q)) mod 100)%N.
Proof.
  unfold numeric_out.
  set (c := round_hundredths q). set (n := Z.to_N (Z.abs c)).
  exists (decimal (n / 100)), (two_digits (n mod 100)).
  assert (Hm : (n mod 100 < 100)%N) by (apply N.mod_lt; lia).
  destruct (two_digits_spec _ Hm) as [Hl Hd].
  repeat split; auto using all_digits_decimal, all_digits_two_digits,
                          digits_decimal.
Qed.

Lemma numeric_out_not_empty (q : Q) :
  String.eqb (numeric_out q) EmptyString = false.
Proof.
  destruct (numeric_out_shape q) as (a & b & -> & _).
  unfold sign_of. destruct (round_hundredths q <? 0)%Z; [reflexivity|].
  rewrite append_nil. destruct a; reflexivity.
Qed.

(** read after a 0, the text of a stored value is refused when the value
    is negative and read as the value otherwise *)
Lemma numeric_in_zero_out (q : Q) :
  numeric_in (String "0" (numeric_out q))
  = if (round_hundredths q <? 0)%Z then None
    else Some (round_hundredths q # 100).
Proof.
  destruct (numeric_out_shape q) as (a & b & -> & Ha & Hb & Hl & Hda & Hdb).
  unfold sign_of. set (c := round_hundredths q) in *.
  unfold numeric_in, unsigned_decimal.
  destruct (c <? 0)%Z eqn:E.
  - pose proof (split_point_minus (String "0" EmptyString) (a ++ String "." b)
                  eq_refl) as H.
    rewrite append_cons, append_nil in H. rewrite append_cons, append_nil.
    destruct (split_point (String "0" (String "-" (a ++ String "." b))))
      as [x y].
    cbn [fst] in H. now rewrite H.
  - apply Z.ltb_ge in E. rewrite append_nil, <- append_cons.
    rewrite split_point_app by (cbn; exact Ha).
    rewrite (digits_zero_first _ _ Hda), Hdb, Hl.
    cbn [String.eqb Ascii.eqb Bool.eqb andb].
    f_equal.
    assert (Hn : (Z.of_N (Z.to_N (Z.abs c) / 100) * 100
                  + Z.of_N (Z.to_N (Z.abs c) mod 100) = c)%Z).
    { rewrite N2Z.inj_div, N2Z.inj_mod, Z2N.id by lia.
      change (Z.of_N 100) with 100%Z.
      pose proof (Z.div_mod (Z.abs c) 100 ltac:(lia)). lia. }
    change (Z.to_pos (10 ^ Z.of_nat 2)) with 100%positive.
    change (Z.pos 100) with 100%Z. now rewrite Hn.
Qed.

(** a text with two points is refused *)
Lemma numeric_in_two_points (q1 q2 : Q) (rest : string) :
  numeric_in (String "0" (numeric_out q1 ++ numeric_out q2 ++ rest)) = None.
Proof.
  destruct (numeric_out_shape q1) as (a & b & -> & Ha & Hb & _).
  destruct (numeric_out_shape q2) as (a' & b' & -> & Ha' & _).
  assert (Hf : forall t,
    digits (b ++ (sign_of q2 ++ a' ++ String "." b') ++ t) = None).
  { intros t. rewrite !app_assoc_string.
    unfold sign_of. destruct (round_hundredths q2 <? 0)%Z.
    - rewrite append_cons, append_nil.
      apply digits_with_other. reflexivity.
    - rewrite append_nil, <- app_assoc_string.
      rewrite append_cons.
      apply digits_with_other. reflexivity. }
  unfold numeric_in, unsigned_decimal.
  rewrite !app_assoc_string. rewrite <- (app_assoc_string (sign_of q2)).
  rewrite <- (app_assoc_string (sign_of q2 ++ a')).
  unfold sign_of at 1. destruct (round_hundredths q1 <? 0)%Z.
  - rewrite append_cons, append_nil.
    match goal with
    | |- context [String "0" (String "-" ?t)] =>
        pose proof (split_point_minus (String "0" EmptyString) t eq_refl) as H;
        rewrite append_cons, append_nil in H;
        destruct (split_point (String "0" (String "-" t))) as [x y]
    end.
    cbn [fst] in H. now rewrite H.
  - rewrite append_nil, append_cons, <- append_cons.
    rewrite split_point_app by (cbn; exact Ha).
    destruct (digits (String "0" a)); [|reflexivity].
    specialize (Hf rest). rewrite !app_assoc_string in Hf.
    rewrite !app_assoc_string. rewrite append_cons in Hf |- *.
    now rewrite Hf.
Qed.

End ColumnFacts.

(* ===================================================================== *)
(** ** Facts about the session service                                   *)
(* ===================================================================== *)

Section SessionServiceFacts.

Import SessionService.

Lemma has_key_In (sid qid : uuid) (db : Database) :
  has_key sid qid db = true <-> In (sid, qid) (map key (session_responses db)).
Proof.
  unfold has_key. rewrite existsb_exists, in_map_iff. split.
  - intros (r & Hr & Hk). exists r. split; [|exact Hr].
    apply andb_prop in Hk as [H1 H2].
    apply N.eqb_eq in H1, H2. unfold key. now rewrite H1, H2.
  - intros (r & Hk & Hr). exists r. split; [exact Hr|].
    unfold key in Hk. injection Hk as H1 H2.
    rewrite H1, H2, !N.eqb_refl. reflexivity.
Qed.

Lemma key_set_evaluation (q : Q) (b : bool) (r : SessionResponse.t) :
  key (set_evaluation q b r) = key r.
Proof. reflexivity. Qed.

Lemma keys_update_response (rid : uuid) (q : Q) (b : bool) (db : Database) :
  map key (session_responses (update_response rid (set_evaluation q b) db))
  = map key (session_responses db).
Proof.
  unfold update_response; simpl. rewrite map_map.
  apply map_ext. intros r. now destruct (N.eqb _ _).
Qed.

(** what the columns of session_responses make of an entity *)
Lemma response_columns_Some (r stored : SessionResponse.t) :
  response_columns r = Some stored ->
  exists score,
    Postgres.nullable Postgres.numeric_5_2 (SessionResponse.score r)
    = Some score
    /\ Text.has_nul (SessionResponse.answer r) = false
    /\ (-2147483648 <= SessionResponse.time_taken r <= 2147483647)%Z
    /\ stored
       = SessionResponse.mk (SessionResponse.id r)
           (SessionResponse.session_id r) (SessionResponse.question_id r)
           (SessionResponse.answer r) score (SessionResponse.time_taken r)
           (SessionResponse.is_correct r) (SessionResponse.created_at r).
Proof.
  unfold response_columns, Postgres.text, Postgres.int4.
  destruct (Text.has_nul (SessionResponse.answer r)); [discriminate|].
  destruct (Postgres.nullable _ _) as [score|]; [|discriminate].
  destruct ((-2147483648 <=? SessionResponse.time_taken r)%Z
            && (SessionResponse.time_taken r <=? 2147483647)%Z) eqn:E;
    [|discriminate].
  intros [= <-]. exists score. repeat split; try reflexivity.
  all: apply andb_prop in E as [E1 E2]; lia.
Qed.

(** what the columns of interview_sessions make of an entity *)
Lemma session_columns_Some (s stored : InterviewSession.t) :
  session_columns s = Some stored ->
  exists name email,
    Postgres.varchar 255 (InterviewSession.candidate_name s) = Some name
    /\ Postgres.varchar 255 (InterviewSession.candidate_email s) = Some email
    /\ stored
       = InterviewSession.mk (InterviewSession.id s)
           (InterviewSession.interview_id s) name email
           (InterviewSession.status s) (InterviewSession.started_at s)
           (InterviewSession.completed_at s) (InterviewSession.total_score s)
           (InterviewSession.created_at s).
Proof.
  unfold session_columns.
  destruct (Postgres.varchar 255 (InterviewSession.candidate_name s))
    as [name|]; [|discriminate].
  destruct (Postgres.varchar 255 (InterviewSession.candidate_email s))
    as [email|]; [|discriminate].
  intros [= <-]. now exists name, email.
Qed.

(** what a session creation does to the store: nothing, or one row
    appended under a fresh key *)
Lemma createSession_cases (now : Date) (data : CreateSessionData)
    (db : Database) :
  createSession now data db
    = (db, inl (mkAppError "Failed to create interview session" 500))
  \/ exists s stored,
       createSession now data db
       = (mkDatabase (interviews db) (interview_questions db)
            (interview_sessions db ++ [stored]) (session_responses db)
            (N.succ (next_uuid db)),
          inr (mkLoaded s []))
       /\ s = InterviewSession.mk (next_uuid db) (cs_interview_id data)
                (cs_candidate_name data) (cs_candidate_email data) PENDING
                None None None now
       /\ session_columns s = Some stored
       /\ mem (cs_interview_id data) (interviews db) = true.
Proof.
  unfold createSession, insert_session.
  destruct (session_columns _) as [stored|] eqn:Ec; [|now left].
  cbn [InterviewSession.interview_id].
  destruct (mem _ _) eqn:Em; [|now left].
  right. eexists _, stored. split; [reflexivity|]. now repeat split.
Qed.

(** what a submission does to the store: nothing, or one row appended
    whose pair was not there *)
Lemma submitResponse_cases (now : Date) (data : SubmitResponseData)
    (db : Database) :
  submitResponse now data db
    = (db, inl (mkAppError "Failed to submit response" 500))
  \/ exists r stored,
       submitResponse now data db
       = (mkDatabase (interviews db) (interview_questions db)
            (interview_sessions db) (session_responses db ++ [stored])
            (N.succ (next_uuid db)),
          inr r)
       /\ r = SessionResponse.mk (next_uuid db) (sr_session_id data)
                (sr_question_id data) (sr_answer data) (sr_score data)
                (sr_time_taken data) false now
       /\ response_columns r = Some stored
       /\ session_exists (sr_session_id data) db = true
       /\ mem (sr_question_id data) (interview_questions db) = true
       /\ has_key (sr_session_id data) (sr_question_id data) db = false.
Proof.
  unfold submitResponse, insert_response.
  destruct (response_columns _) as [stored|] eqn:Ec; [|now left].
  cbn [SessionResponse.session_id SessionResponse.question_id].
  destruct (session_exists _ db) eqn:Es; [|now left].
  destruct (mem _ _) eqn:Em; [|now left].
  destruct (has_key _ _ db) eqn:Hk; [now left|].
  right. eexists _, stored. split; [reflexivity|]. now repeat split.
Qed.

(** the row a submission stores *)
Lemma submitResponse_stored (now : Date) (data : SubmitResponseData)
    (db db' : Database) (r : SessionResponse.t) :
  submitResponse now data db = (db', inr r) ->
  exists stored score,
    session_responses db' = session_responses db ++ [stored]
    /\ interview_sessions db' = interview_sessions db
    /\ Postgres.nullable Postgres.numeric_5_2 (sr_score data) = Some score
    /\ stored
       = SessionResponse.mk (next_uuid db) (sr_session_id data)
           (sr_question_id data) (sr_answer data) score (sr_time_taken data)
           false now
    /\ r = SessionResponse.mk (next_uuid db) (sr_session_id data)
             (sr_question_id data) (sr_answer data) (sr_score data)
             (sr_time_taken data) false now
    /\ has_key (sr_session_id data) (sr_question_id data) db = false.
Proof.
  destruct (submitResponse_cases now data db)
    as [->|(r' & stored & -> & Hr & Hc & _ & _ & Hk)]; [discriminate|].
  intros [= <- <-].
  apply response_columns_Some in Hc as (score & Hs & _ & _ & ->).
  subst r'. eexists _, score. now repeat split.
Qed.

Lemma evaluateResponse_cases (rid : uuid) (q : Q) (b : bool) (db : Database) :
  (Postgres.numeric_5_2 q = None
   /\ evaluateResponse rid q b db
      = (db, inl (mkAppError "Failed to evaluate response" 500)))
  \/ exists stored,
       Postgres.numeric_5_2 q = Some stored
       /\ evaluateResponse rid q b db
          = (update_response rid (set_evaluation stored b) db,
             inr (findOne_response rid
                    (update_response rid (set_evaluation stored b) db))).
Proof.
  unfold evaluateResponse.
  destruct (Postgres.numeric_5_2 q) as [stored|]; [right|left].
  - now exists stored.
  - now split.
Qed.

Lemma evaluateResponseSchema_range (q : Q) :
  evaluateResponseSchema q = true <-> (0 <= q /\ q <= 100)%Q.
Proof.
  unfold evaluateResponseSchema.
  rewrite andb_true_iff, !Qle_bool_iff. reflexivity.
Qed.

(** a score the schema admits fits the column, and is stored within
    [0, 100] *)
Lemma schema_fits_column (q : Q) :
  evaluateResponseSchema q = true ->
  exists stored,
    Postgres.numeric_5_2 q = Some stored
    /\ stored = Postgres.round_hundredths q # 100
    /\ (0 <= Postgres.round_hundredths q <= 10000)%Z.
Proof.
  intros H. apply evaluateResponseSchema_range in H as [H0 H1].
  assert (Hr : (0 <= Postgres.round_hundredths q <= 10000)%Z).
  { apply round_hundredths_between.
    - unfold Qle in *. cbn in *. lia.
    - unfold Qle in *. cbn in *. lia. }
  unfold Postgres.numeric_5_2.
  destruct (Z.abs (Postgres.round_hundredths q) <? 100000)%Z eqn:E.
  - eexists. repeat split; lia.
  - apply Z.ltb_ge in E. lia.
Qed.

Lemma evaluateResponse_route_responses (rid : uuid) (q : Q) (b : bool)
    (db : Database) :
  let db' := fst (evaluateResponse_route rid q b db) in
  db' = db
  \/ exists stored,
       evaluateResponseSchema q = true
       /\ Postgres.numeric_5_2 q = Some stored
       /\ db' = update_response rid (set_evaluation stored b) db.
Proof.
  unfold evaluateResponse_route.
  destruct (evaluateResponseSchema q) eqn:Ev; [|now left].
  destruct (evaluateResponse_cases rid q b db)
    as [[_ ->]|(stored & Hs & ->)]; [now left|].
  right. exists stored. repeat split; [exact Hs|].
  now destruct (findOne_response _ _).
Qed.

(** every request but a submission leaves the keys of the table as they
    are *)
Lemma keys_step (o : op) (db : Database) :
  (forall now data, o <> OpSubmitResponse now data) ->
  map key (session_responses (step o db)) = map key (session_responses db).
Proof.
  intros Hns. destruct o as [now d|now sid|now d|rid q b|now sid|sid]; simpl.
  - destruct (createSession_cases now d db) as [->|(s & st & -> & _)];
      reflexivity.
  - reflexivity.
  - now destruct (Hns now d).
  - destruct (evaluateResponse_route_responses rid q b db)
      as [->|(st & _ & _ & ->)].
    + reflexivity.
    + apply keys_update_response.
  - unfold completeSession. now destruct (total_score_column _).
  - reflexivity.
Qed.

Lemma unique_step (o : op) (db : Database) :
  List.NoDup (map key (session_responses db)) ->
  List.NoDup (map key (session_responses (step o db))).
Proof.
  intros Hnd.
  destruct o as [now d|now sid|now d|rid q b|now sid|sid];
    try (rewrite keys_step; [exact Hnd | congruence]).
  simpl. destruct (submitResponse_cases now d db)
    as [->|(r & st & -> & Hr & Hc & _ & _ & Hk)]; [exact Hnd|].
  simpl. rewrite map_app. simpl.
  apply response_columns_Some in Hc as (sc & _ & _ & _ & ->). subst r.
  apply NoDup_ListNoDup, NoDup_app. repeat split.
  - now apply NoDup_ListNoDup.
  - intros x Hx Hx'. apply list_elem_of_singleton in Hx'. subst x.
    apply list_elem_of_In in Hx. unfold key in Hx; simpl in Hx.
    apply has_key_In in Hx. congruence.
  - apply NoDup_singleton.
Qed.

Lemma run_snoc (ops : list op) (o : op) (db : Database) :
  run (ops ++ [o]) db = step o (run ops db).
Proof. unfold run. now rewrite fold_left_app. Qed.




(* --------------------------------------------------------------------- *)

Lemma In_update_response (rid : uuid)
    (f : SessionResponse.t -> SessionResponse.t) (db : Database)
    (r : SessionResponse.t) :
  In r (session_responses (update_response rid f db)) ->
  exists r0, In r0 (session_responses db)
             /\ r = if N.eqb (SessionResponse.id r0) rid then f r0 else r0.
Proof.
  unfold update_response; simpl. rewrite in_map_iff.
  intros (r0 & <- & Hin). now exists r0.
Qed.

Lemma find_map_update {A : Type} (idf : A -> uuid) (f : A -> A) (k : uuid)
    (l : list A) :
  (forall x, idf (f x) = idf x) ->
  List.find (fun x => N.eqb (idf x) k)
    (map (fun x => if N.eqb (idf x) k then f x else x) l)
  = option_map f (List.find (fun x => N.eqb (idf x) k) l).
Proof.
  intros Hid. induction l as [|x l IH]; [reflexivity|]. simpl.
  destruct (N.eqb (idf x) k) eqn:E; simpl.
  - now rewrite Hid, E.
  - now rewrite E.
Qed.

(** the session table is left alone by every request on responses *)
Lemma find_responses_update_session (sid sid' : uuid)
    (f : InterviewSession.t -> InterviewSession.t) (db : Database) :
  find_responses sid (update_session sid' f db) = find_responses sid db.
Proof. reflexivity. Qed.





(** a completion whose total the column refuses *)
Lemma completeSession_refused (now : Date) (sid : uuid) (db : Database) :
  total_score_column (totalScore (find_responses sid db)) = None ->
  completeSession now sid db
  = (db, inl (mkAppError "Failed to complete session" 500)).
Proof. intros Ht. unfold completeSession. now rewrite Ht. Qed.

(* --------------------------------------------------------------------- *)

(** *** the total handed to the UPDATE *)

Lemma fold_js_strings (l : list SessionResponse.t) (s : string) :
  forallb is_scored l = true ->
  fold_left
    (fun sum response =>
       js_add sum (score_or_0 (SessionResponse.score response)))
    l (JsString s)
  = JsString (s ++ texts_of l)%string.
Proof.
  revert s. induction l as [|r l IH]; intros s Hl.
  - cbn. f_equal. induction s as [|c s IHs]; [reflexivity|].
    rewrite append_cons. now rewrite <- IHs.
  - cbn [forallb] in Hl. apply andb_prop in Hl as [Hr Hl].
    unfold is_scored in Hr. cbn [fold_left texts_of fold_right].
    destruct (SessionResponse.score r) as [q|]; [|discriminate].
    unfold score_or_0, score_read. cbn [option_map].
    rewrite numeric_out_not_empty. cbn [js_add js_string].
    rewrite IH by exact Hl. now rewrite app_assoc_string.
Qed.

Lemma forallb_filter {A : Type} (f : A -> bool) (l : list A) :
  forallb f (List.filter f l) = true.
Proof.
  apply forallb_forall. intros x Hx. now apply filter_In in Hx.
Qed.

(** the reduce of completeSession: the number 0 when no response is
    scored, and otherwise a 0 followed by the texts of the scores *)
Lemma totalScore_text (rs : list SessionResponse.t) :
  totalScore rs
  = match List.filter is_scored rs with
    | [] => JsNumber 0
    | r :: l => JsString (String "0" (texts_of (r :: l)))
    end.
Proof.
  unfold totalScore.
  pose proof (forallb_filter is_scored rs) as Hall.
  destruct (List.filter is_scored rs) as [|r l]; [reflexivity|].
  cbn [forallb] in Hall. apply andb_prop in Hall as [Hr Hl].
  unfold is_scored in Hr. cbn [fold_left texts_of fold_right].
  destruct (SessionResponse.score r) as [q|]; [|discriminate].
  unfold score_or_0 at 2, score_read. cbn [option_map].
  rewrite numeric_out_not_empty. cbn [js_add js_string].
  change ((if (0 <? 0)%Z then "-" else EmptyString)
          ++ Postgres.decimal (Z.to_N (Z.abs 0)))%string
    with (String "0" EmptyString).
  rewrite fold_js_strings by exact Hl.
  now rewrite app_assoc_string, append_cons, append_nil.
Qed.

Lemma total_of_none (rs : list SessionResponse.t) :
  List.filter is_scored rs = [] ->
  total_score_column (totalScore rs) = Some (0 # 100).
Proof. intros H. rewrite totalScore_text, H. reflexivity. Qed.

Lemma total_of_one (rs : list SessionResponse.t) (r : SessionResponse.t)
    (q : Q) :
  List.filter is_scored rs = [r] ->
  SessionResponse.score r = Some q ->
  total_score_column (totalScore rs)
  = if (Postgres.round_hundredths q <? 0)%Z then None
    else Postgres.numeric_5_2 (Postgres.round_hundredths q # 100).
Proof.
  intros H Hq. rewrite totalScore_text, H.
  cbn [texts_of fold_right]. rewrite Hq.
  unfold total_score_column.
  assert (E : (Postgres.numeric_out q ++ EmptyString)%string
              = Postgres.numeric_out q).
  { generalize (Postgres.numeric_out q). intros s.
    induction s as [|c s IHs]; [reflexivity|].
    rewrite append_cons. now rewrite IHs. }
  rewrite E, numeric_in_zero_out.
  now destruct (Postgres.round_hundredths q <? 0)%Z.
Qed.

Lemma total_of_more (rs : list SessionResponse.t)
    (r1 r2 : SessionResponse.t) (l : list SessionResponse.t) :
  List.filter is_scored rs = r1 :: r2 :: l ->
  total_score_column (totalScore rs) = None.
Proof.
  intros H. rewrite totalScore_text, H.
  pose proof (forallb_filter is_scored rs) as Hall. rewrite H in Hall.
  cbn [forallb] in Hall.
  apply andb_prop in Hall as [H1 Hall]. apply andb_prop in Hall as [H2 _].
  unfold is_scored in H1, H2. cbn [texts_of fold_right].
  destruct (SessionResponse.score r1) as [q1|]; [|discriminate].
  destruct (SessionResponse.score r2) as [q2|]; [|discriminate].
  unfold total_score_column. now rewrite numeric_in_two_points.
Qed.

(* --------------------------------------------------------------------- *)

(** *** submissions and evaluations *)

(** the responses of the store after a request, row by row *)
Lemma responses_step (o : op) (db : Database) (r : SessionResponse.t) :
  In r (session_responses (step o db)) ->
  In r (session_responses db)
  \/ (SessionResponse.score r = None /\ SessionResponse.is_correct r = false)
  \/ evaluates (SessionResponse.id r) o = true
  \/ submits_a_score o = true.
Proof.
  destruct o as [now d|now sid|now d|rid q b|now sid|sid]; simpl;
    try (now left).
  - destruct (createSession_cases now d db) as [->|(s & st & -> & _)];
      now left.
  - destruct (submitResponse_cases now d db)
      as [->|(r' & st & -> & Hr & Hc & _)]; [now left|].
    cbn [fst session_responses]. rewrite in_app_iff. intros [H|[<-|[]]];
      [now left|].
    apply response_columns_Some in Hc as (sc & Hs & _ & _ & ->). subst r'.
    cbn in *. destruct (sr_score d); [now right; right; right|].
    injection Hs as <-. right; left. now split.
  - destruct (evaluateResponse_route_responses rid q b db)
      as [->|(st & _ & _ & ->)]; [now left|].
    intros H. apply In_update_response in H as (r0 & Hin & ->).
    destruct (N.eqb (SessionResponse.id r0) rid) eqn:E; [|now left].
    right; right; left. simpl. exact E.
  - unfold completeSession. destruct (total_score_column _); now left.
Qed.

Lemma unevaluated_run (ops : list op) (db0 : Database)
    (r : SessionResponse.t) :
  session_responses db0 = [] ->
  In r (session_responses (run ops db0)) ->
  forallb (fun o => negb (evaluates (SessionResponse.id r) o)) ops = true ->
  forallb (fun o => negb (submits_a_score o)) ops = true ->
  SessionResponse.score r = None /\ SessionResponse.is_correct r = false.
Proof.
  intros H0. induction ops as [|o ops IH] using rev_ind.
  - simpl. rewrite H0. intros [].
  - rewrite run_snoc, !forallb_app. simpl. intros Hin Hall Hsub.
    apply andb_prop in Hall as [Hops Ho]. rewrite andb_true_r in Ho.
    apply andb_prop in Hsub as [Hsubs Hs]. rewrite andb_true_r in Hs.
    destruct (responses_step o _ r Hin) as [H|[H|[H|H]]].
    + now apply IH.
    + exact H.
    + rewrite H in Ho. discriminate.
    + rewrite H in Hs. discriminate.
Qed.

(** an evaluation the schema admits, on a response that is there: the row
    is rewritten in the store and handed back *)
Lemma evaluateResponse_route_ok (rid : uuid) (q : Q) (b : bool)
    (db : Database) (r : SessionResponse.t) :
  findOne_response rid db = Some r ->
  evaluateResponseSchema q = true ->
  let stored := Postgres.round_hundredths q # 100 in
  evaluateResponse_route rid q b db
  = (update_response rid (set_evaluation stored b) db,
     inr (set_evaluation stored b r))
  /\ findOne_response rid (update_response rid (set_evaluation stored b) db)
     = Some (set_evaluation stored b r).
Proof.
  intros Hf Hv stored.
  assert (Hfind :
    findOne_response rid (update_response rid (set_evaluation stored b) db)
    = Some (set_evaluation stored b r)).
  { unfold findOne_response, update_response. cbn [session_responses].
    rewrite (find_map_update SessionResponse.id) by reflexivity.
    unfold findOne_response in Hf. now rewrite Hf. }
  split; [|exact Hfind].
  unfold evaluateResponse_route, evaluateResponse. rewrite Hv.
  destruct (schema_fits_column q Hv) as (st & -> & -> & _).
  fold stored. now rewrite Hfind.
Qed.

(** C10 (the code at the failing input, and what holds beside it).  The
    row a submission stores carries is_correct = false and, as its score,
    the score the object handed to submitResponse carries, rounded to two
    decimals: none when the object carries none, but 100 for the answer
    that arrives with a score of 100, which then reads as scored although
    no evaluation has been requested.  For submissions that carry no score
    the claim holds: such a row stays unscored and incorrect as long as no
    evaluation request names it; the evaluation route writes the score
    (rounded) and the verdict into the store when the score lies in
    [0, 100], and refuses any other score with status 400, the store
    untouched. *)
Theorem submitted_score_is_stored_unevaluated :
  (forall now data db db' r,
      submitResponse now data db = (db', inr r) ->
      exists stored,
        session_responses db' = session_responses db ++ [stored]
        /\ SessionResponse.id stored = SessionResponse.id r
        /\ SessionResponse.answer stored = sr_answer data
        /\ SessionResponse.is_correct stored = false
        /\ SessionResponse.score stored
           = option_map (fun q => Postgres.round_hundredths q # 100)
               (sr_score data))
  /\ (let db := run Samples.started Samples.db0 in
      let out := submitResponse 1002%Z Samples.scored_answer_q10 db in
      forallb (fun o => negb (evaluates 101%N o)) Samples.started = true
      /\ exists r,
           snd out = inr r
           /\ findOne_response (SessionResponse.id r) (fst out)
              = Some (SessionResponse.mk 101%N 100%N 10%N "=SUM(A1:A10)"
                        (Some (10000 # 100)) 30%Z false 1002%Z))
  /\ (forall db0 ops r,
        session_responses db0 = [] ->
        In r (session_responses (run ops db0)) ->
        forallb (fun o => negb (evaluates (SessionResponse.id r) o)) ops
          = true ->
        forallb (fun o => negb (submits_a_score o)) ops = true ->
        SessionResponse.score r = None
        /\ SessionResponse.is_correct r = false)
  /\ (forall rid q b db r,
        findOne_response rid db = Some r ->
        evaluateResponseSchema q = true ->
        exists r',
          snd (evaluateResponse_route rid q b db) = inr r'
          /\ findOne_response rid (fst (evaluateResponse_route rid q b db))
             = Some r'
          /\ SessionResponse.score r'
             = Some (Postgres.round_hundredths q # 100)
          /\ (0 <= Postgres.round_hundredths q <= 10000)%Z
          /\ SessionResponse.is_correct r' = b
          /\ SessionResponse.answer r' = SessionResponse.answer r)
  /\ (forall rid q b db,
        evaluateResponseSchema q = false ->
        exists e,
          evaluateResponse_route rid q b db = (db, inl e)
          /\ statusCode e = 400%Z).
Proof.
  split; [|split; [|split; [|split]]].
  - intros now data db db' r H.
    apply submitResponse_stored in H
      as (stored & score & Hrs & _ & Hs & -> & -> & _).
    eexists. split; [exact Hrs|]. cbn. repeat split.
    destruct (sr_score data) as [q|]; cbn in *.
    + destruct (Postgres.numeric_5_2 q) as [st|] eqn:E; [|discriminate].
      injection Hs as <-. apply numeric_5_2_Some in E as [-> _]. reflexivity.
    + now injection Hs as <-.
  - split; [reflexivity|]. eexists. split; vm_compute; reflexivity.
  - intros db0 ops r H0 Hin He Hs. now apply (unevaluated_run ops db0).
  - intros rid q b db r Hf Hv.
    destruct (evaluateResponse_route_ok rid q b db r Hf Hv) as [E Hfind].
    exists (set_evaluation (Postgres.round_hundredths q # 100) b r).
    rewrite E. cbn [fst snd]. repeat split; try exact Hfind.
    all: destruct (schema_fits_column q Hv) as (st & _ & _ & Hr); lia.
  - intros rid q b db Hv. unfold evaluateResponse_route. rewrite Hv.
    eexists. split; reflexivity.
Qed.

Lemma submitted_score_is_stored_unevaluated_witness :
  let r := SessionResponse.mk 101%N 100%N 10%N "=SUM(A1:A10)" None 30%Z false
             1002%Z in
  In r (session_responses (run Samples.answered Samples.db0))
  /\ SessionResponse.score r = None
  /\ SessionResponse.is_correct r = false.
Proof.
  intros r.
  assert (Hin : In r (session_responses (run Samples.answered Samples.db0)))
    by (vm_compute; left; reflexivity).
  split; [exact Hin|].
  apply (proj1 (proj2 (proj2 submitted_score_is_stored_unevaluated))
           Samples.db0 Samples.answered r eq_refl Hin); reflexivity.
Defined.

End SessionServiceFacts.

(* ===================================================================== *)
(** ** Facts about the interview engine                                  *)
(* ===================================================================== *)

Section InterviewAppFacts.

Import InterviewApp InterviewApp.InterviewState InterviewApp.InterviewEngine.
Import InterviewUI.

(** *** ask_next and process_response, field by field *)

Lemma ask_next_keeps (s : InterviewState.t) :
  let s' := snd (ask_next s) in
  q_index s' = q_index s
  /\ questions s' = questions s
  /\ responses s' = responses s
  /\ end_time s' = end_time s
  /\ feedback_report s' = feedback_report s.
Proof.
  unfold ask_next. by_phase s; simpl; try (repeat split; reflexivity).
  destruct (nth_error (questions s) (q_index s)); simpl;
    repeat split; reflexivity.
Qed.

(** the state process_response leaves behind *)
Lemma process_response_state (env : Env) (user_text : string)
    (s : InterviewState.t) :
  snd (process_response env user_text s)
  = if String.eqb (phase s) "qa" then
      match nth_error (questions s) (q_index s) with
      | Some q =>
          match evaluated_record env q user_text with
          | inl _ => s
          | inr resp => snd (ask_next (record_response resp s))
          end
      | None => snd (ask_next s)
      end
    else if String.eqb (phase s) "reflection" then
      match Reporter.generate_report (set_end_time (utcnow env) s) with
      | inl _ => set_end_time (utcnow env) s
      | inr report =>
          set_phase "closing"
            (set_feedback_report report (set_end_time (utcnow env) s))
      end
    else snd (ask_next s).
Proof.
  unfold process_response.
  destruct (String.eqb (phase s) "qa").
  - destruct (nth_error _ _) as [q|].
    + destruct (evaluated_record _ _ _); [reflexivity|].
      now destruct (ask_next _).
    + now destruct (ask_next _).
  - destruct (String.eqb (phase s) "reflection").
    + now destruct (Reporter.generate_report _).
    + now destruct (ask_next _).
Qed.

(** *** the evaluator and the record *)

(** what a record that was built says about the reply it was built from *)
Lemma evaluated_record_inr (env : Env) (q : Question.t) (a : string)
    (resp : ResponseRecord.t) :
  evaluated_record env q a = inr resp ->
  exists reply narrative vc vd vm c d m vr rationale,
    llm env 0 (Question.text q) a = inr (PyDict reply)
    /\ reply !! "scores" = Some (PyDict narrative)
    /\ (narrative !! "correctness" = Some vc /\ as_number vc = Some c)
    /\ (narrative !! "design" = Some vd /\ as_number vd = Some d)
    /\ (narrative !! "communication" = Some vm /\ as_number vm = Some m)
    /\ (reply !! "rationale" = Some vr
        /\ str_field (coerce_str env) vr = inr rationale)
    /\ is_Some (reply !! "advice")
    /\ is_Some (reply !! "evidence")
    /\ resp
       = ResponseRecord.mk (Question.id q) (Question.text q) a (utcnow env)
           "mock-v0"
           (<["overall" :=
                PyFloat (c * (4 # 10) + d * (3 # 10) + m * (3 # 10))]>
              narrative)
           rationale ∅.
Proof.
  unfold evaluated_record, Evaluator.evaluate, response_record, bind.
  destruct (llm env 0 (Question.text q) a) as [e|r]; [discriminate|].
  unfold subscript at 1.
  destruct r as [| | | | | |reply]; try discriminate.
  destruct (reply !! "scores") as [sc|] eqn:Es; [|discriminate].
  unfold subscript at 1.
  destruct sc as [| | | | | |narrative]; try discriminate.
  destruct (narrative !! "correctness") as [vc|] eqn:Ec; [|discriminate].
  unfold times at 1. destruct (as_number vc) as [c|] eqn:Nc; [|discriminate].
  unfold subscript at 1.
  destruct (narrative !! "design") as [vd|] eqn:Ed; [|discriminate].
  unfold times at 1. destruct (as_number vd) as [d|] eqn:Nd; [|discriminate].
  unfold subscript at 1.
  destruct (narrative !! "communication") as [vm|] eqn:Em; [|discriminate].
  unfold times at 1. destruct (as_number vm) as [m|] eqn:Nm; [|discriminate].
  unfold subscript.
  destruct (reply !! "rationale") as [vr|] eqn:Er; [|discriminate].
  destruct (reply !! "advice") as [va|] eqn:Ea; [|discriminate].
  destruct (reply !! "evidence") as [ve|] eqn:Ee; [|discriminate].
  cbn [eval_scores eval_overall eval_rationale unpack].
  destruct (str_field (coerce_str env) vr) as [e|rationale] eqn:Ef;
    [discriminate|].
  intros [= <-].
  exists reply, narrative, vc, vd, vm, c, d, m, vr, rationale.
  repeat split; try assumption; try reflexivity; eexists; eassumption.
Qed.






(** *** an answer to a pending question *)











(** *** phases *)

Lemma phases_from_head (p : string) :
  exists rest, phases_from p = p :: rest.
Proof.
  unfold phases_from.
  destruct (String.eqb_spec p "intro") as [->|]; [now eexists|].
  destruct (String.eqb_spec p "qa") as [->|]; [now eexists|].
  destruct (String.eqb_spec p "reflection") as [->|]; now eexists.
Qed.

Lemma ask_next_advances (s : InterviewState.t) :
  advances (phase s) (phase (snd (ask_next s))).
Proof.
  unfold ask_next, advances. by_phase s; simpl.
  - right. rewrite e. split; [discriminate|reflexivity].
  - destruct (nth_error _ _); simpl; [now left|].
    right. rewrite e. split; [discriminate|reflexivity].
  - right. rewrite e. split; [discriminate|reflexivity].
  - now left.
Qed.

Lemma process_response_advances (env : Env) (user_text : string)
    (s : InterviewState.t) :
  advances (phase s) (phase (snd (process_response env user_text s))).
Proof.
  rewrite process_response_state.
  destruct (String.eqb_spec (phase s) "qa") as [Hq|Hq].
  - destruct (nth_error _ _) as [q|]; [|apply ask_next_advances].
    destruct (evaluated_record _ _ _) as [e|resp]; [now left|].
    apply (ask_next_advances (record_response resp s)).
  - destruct (String.eqb_spec (phase s) "reflection") as [Hr|Hr].
    + destruct (Reporter.generate_report _); [now left|].
      right. simpl. rewrite Hr. split; [discriminate|reflexivity].
    + apply ask_next_advances.
Qed.

Lemma step_advances (o : op) (s : InterviewState.t) :
  advances (phase s) (phase (step o s)).
Proof.
  destruct o; [apply ask_next_advances|apply process_response_advances].
Qed.

Lemma observed_phases_head (ops : list op) (s : InterviewState.t) :
  exists rest, observed_phases ops s = phase s :: rest.
Proof. destruct ops; now eexists. Qed.

Lemma distinct_phases_cons (x y : string) (l : list string) :
  distinct_phases (x :: y :: l)
  = if String.eqb x y then distinct_phases (y :: l)
    else x :: distinct_phases (y :: l).
Proof. reflexivity. Qed.

Lemma distinct_phases_from (ops : list op) (s : InterviewState.t) :
  distinct_phases (observed_phases ops s) `prefix_of` phases_from (phase s).
Proof.
  revert s. induction ops as [|o ops IH]; intros s.
  - simpl. destruct (phases_from_head (phase s)) as [rest ->].
    now exists rest.
  - cbn [observed_phases]. specialize (IH (step o s)).
    destruct (observed_phases_head ops (step o s)) as [rest E].
    rewrite E in *. rewrite distinct_phases_cons.
    destruct (step_advances o s) as [H|[Hne H]].
    + rewrite H in *. now rewrite String.eqb_refl.
    + destruct (String.eqb_spec (phase s) (phase (step o s))) as [Heq|_];
        [now destruct Hne|].
      rewrite H. now apply prefix_cons.
Qed.

(** C2 (as the code has it).  Whatever calls are made on a fresh engine,
    the distinct phases it shows, in the order they appear, are an initial
    segment of intro, qa, reflection, closing; that list has no repeats,
    so no phase comes back, and the list of calls has no override to make
    one come back. *)
Theorem phases_follow_engine_order
    (session_id : string) (start_time : Date) (questions : list Question.t)
    (ops : list op) :
  distinct_phases
    (observed_phases ops (init session_id start_time questions))
    `prefix_of` engine_phases
  /\ NoDup engine_phases.
Proof.
  split.
  - apply (distinct_phases_from ops (init session_id start_time questions)).
  - unfold engine_phases.
    repeat (apply NoDup_cons; split;
            [rewrite ?elem_of_cons, elem_of_nil; intuition discriminate|]).
    apply NoDup_nil_2.
Qed.

(** C2 (as stated) fails on the code: once the one question is answered
    the engine is in reflection, having shown intro, qa, reflection; the
    scenario phase of the phase literals is never entered. *)
Lemma scenario_phase_is_skipped :
  let ops := [OpAskNext; OpProcessResponse Samples.generous "=SUM(A1:A10)"] in
  let seen :=
    distinct_phases
      (observed_phases ops (init "session-1" 0%Z [Samples.sum_question])) in
  seen = ["intro"; "qa"; "reflection"]
  /\ ~ seen `prefix_of` phase_literals.
Proof.
  split; [reflexivity|].
  intros [k Hk]. unfold phase_literals in Hk. discriminate Hk.
Qed.

(** *** the question index *)

Lemma ask_next_qa (s : InterviewState.t) :
  phase s = "qa" ->
  snd (ask_next s)
  = match nth_error (questions s) (q_index s) with
    | Some _ => s
    | None => set_phase "reflection" s
    end.
Proof.
  intros Hp. unfold ask_next. rewrite Hp. simpl.
  now destruct (nth_error _ _).
Qed.

Lemma nth_error_ltb {A : Type} (l : list A) (i : nat) :
  (i <? length l)%nat = match nth_error l i with Some _ => true | None => false end.
Proof.
  destruct (nth_error l i) eqn:E.
  - apply Nat.ltb_lt, nth_error_Some. congruence.
  - apply Nat.ltb_ge, nth_error_None. exact E.
Qed.

(** phase and index after one call: moved on by a call that returns, left
    alone by one that raises; the questions are never touched *)
Lemma process_response_advance (env : Env) (user_text : string)
    (s : InterviewState.t) :
  let out := process_response env user_text s in
  questions (snd out) = questions s
  /\ (phase (snd out), q_index (snd out))
     = match fst out with
       | inr _ => advance (length (questions s)) (phase s, q_index s)
       | inl _ => (phase s, q_index s)
       end.
Proof.
  unfold process_response, advance. rewrite !nth_error_ltb.
  destruct (String.eqb_spec (phase s) "qa") as [Hp|Hp].
  - destruct (nth_error (questions s) (q_index s)) as [q|] eqn:Hq.
    + destruct (evaluated_record env q user_text) as [e|resp];
        [now split|].
      set (s1 := record_response resp s).
      assert (Hp1 : phase s1 = "qa") by exact Hp.
      pose proof (ask_next_qa s1 Hp1) as E.
      destruct (ask_next s1) as [msg s2]. cbn [fst snd] in *. subst s2.
      change (nth_error (questions s) (S (q_index s)))
        with (nth_error (questions s1) (q_index s1)).
      destruct (nth_error (questions s1) (q_index s1)); split;
        try reflexivity; cbn; now rewrite ?Hp.
    + pose proof (ask_next_qa s Hp) as E. rewrite Hq in E.
      destruct (ask_next s) as [msg s2]. cbn [fst snd] in *. subst s2.
      now split.
  - destruct (String.eqb_spec (phase s) "reflection") as [Hr|Hr].
    + destruct (Reporter.generate_report _); now split.
    + unfold ask_next. destruct (String.eqb_spec (phase s) "intro") as [Hi|Hi].
      * now split.
      * destruct (String.eqb_spec (phase s) "qa"); [contradiction|].
        destruct (String.eqb_spec (phase s) "reflection"); [contradiction|].
        now split.
Qed.

Lemma submit_all_cons (i : Env * string) (inputs : list (Env * string))
    (s : InterviewState.t) :
  submit_all (i :: inputs) s
  = submit_all inputs (snd (process_response (fst i) (snd i) s)).
Proof. reflexivity. Qed.

(** phase and index after k calls are those after as many advances as
    calls returned *)
Lemma submit_all_advance (inputs : list (Env * string))
    (s : InterviewState.t) :
  questions (submit_all inputs s) = questions s
  /\ (phase (submit_all inputs s), q_index (submit_all inputs s))
     = Nat.iter (returned_calls inputs s) (advance (length (questions s)))
         (phase s, q_index s).
Proof.
  revert s. induction inputs as [|i inputs IH]; intros s; [now split|].
  rewrite submit_all_cons. cbn [returned_calls].
  destruct (process_response_advance (fst i) (snd i) s) as [Hq Hs].
  destruct (IH (snd (process_response (fst i) (snd i) s))) as [Hq' Hs'].
  rewrite Hq', Hs', Hq, Hs. split; [reflexivity|].
  destruct (fst (process_response (fst i) (snd i) s)); cbn [Nat.add].
  - reflexivity.
  - now rewrite Nat.iter_succ_r.
Qed.








(** *** the order of the questions *)

(** C6 (as the code has it).  The engine keeps no difficulty tier and
    adapts nothing: from any state, after two series of calls of which
    equally many returned, it has the same questions, is in the same phase
    at the same index and asks the same thing next, whatever the scorers
    replied.  The questions are served in list order, and replaying the
    calls reproduces them. *)
Theorem questions_do_not_depend_on_scores
    (inputs inputs' : list (Env * string)) (s : InterviewState.t) :
  returned_calls inputs s = returned_calls inputs' s ->
  let a := submit_all inputs s in
  let b := submit_all inputs' s in
  questions a = questions s
  /\ questions b = questions s
  /\ phase a = phase b
  /\ q_index a = q_index b
  /\ fst (ask_next a) = fst (ask_next b).
Proof.
  intros Hc a b.
  destruct (submit_all_advance inputs s) as [Hqa Ha].
  destruct (submit_all_advance inputs' s) as [Hqb Hb].
  fold a in Hqa, Ha. fold b in Hqb, Hb. rewrite Hc, <- Hb in Ha.
  injection Ha as Hp Hi.
  repeat split; try assumption.
  unfold ask_next. rewrite Hp, Hi, Hqa, Hqb. 
  destruct (String.eqb (phase b) "intro"); [reflexivity|].
  destruct (String.eqb (phase b) "qa").
  - now destruct (nth_error _ _).
  - now destruct (String.eqb (phase b) "reflection").
Qed.

Lemma questions_do_not_depend_on_scores_witness :
  fst (ask_next
         (submit_all [ (Samples.generous, "a1"); (Samples.generous, "a2") ]
            Samples.stock_engine))
  = fst (ask_next
           (submit_all [ (Samples.severe, "a1"); (Samples.severe, "a2") ]
              Samples.stock_engine)).
Proof.
  exact (proj2 (proj2 (proj2 (proj2
           (questions_do_not_depend_on_scores
              [ (Samples.generous, "a1"); (Samples.generous, "a2") ]
              [ (Samples.severe, "a1"); (Samples.severe, "a2") ]
              Samples.stock_engine eq_refl))))).
Defined.

(** C6 (as stated) fails on the code: after two answers whose correctness
    is 5 and 5 (average 5, above 4.0) and after two whose correctness is 1
    and 1 (average 1, below 2.0) the engine holds the same things beside
    the stored records and asks the same third question: no tier was
    raised in the one case or lowered in the other. *)
Lemma top_scores_do_not_escalate :
  let top :=
    run [ OpProcessResponse Samples.generous "a1";
          OpProcessResponse Samples.generous "a2" ] Samples.stock_engine in
  let low :=
    run [ OpProcessResponse Samples.severe "a1";
          OpProcessResponse Samples.severe "a2" ] Samples.stock_engine in
  map correctness_of (responses top)
  = [Some (PyFloat (inject_Z 5)); Some (PyFloat (inject_Z 5))]
  /\ map correctness_of (responses low) = [Some (PyInt 1); Some (PyInt 1)]
  /\ outside_records top = outside_records low
  /\ feedback_report top = feedback_report low
  /\ fst (ask_next top) = "Explain multithreading vs multiprocessing."
  /\ fst (ask_next low) = "Explain multithreading vs multiprocessing.".
Proof. repeat split. Qed.



End InterviewAppFacts.

(* ===================================================================== *)
(** ** Runs of the interview engine                                      *)
(* ===================================================================== *)

Section EngineInvariants.

Import InterviewApp InterviewApp.InterviewState InterviewApp.InterviewEngine.
Import InterviewUI.

Lemma run_cons (o : op) (ops : list op) (s : InterviewState.t) :
  run (o :: ops) s = run ops (step o s).
Proof. reflexivity. Qed.

(** a property kept by every call is kept by every run; likewise when
    only calls of one kind are made *)
Lemma run_keeps (P : InterviewState.t -> Prop) (Q : op -> Prop) :
  (forall o s, Q o -> P s -> P (step o s)) ->
  forall ops s, Forall Q ops -> P s -> P (run ops s).
Proof.
  intros Hstep ops. induction ops as [|o ops IH]; intros s Hq Hs.
  - exact Hs.
  - inversion Hq; subst. rewrite run_cons. apply IH; [assumption|].
    now apply Hstep.
Qed.

Lemma Forall_True_op (ops : list op) : Forall (fun _ => True) ops.
Proof. induction ops; constructor; auto. Qed.

(** *** closing is terminal *)

Lemma step_closing (o : op) (s : InterviewState.t) :
  phase s = "closing" -> step o s = s.
Proof.
  intros Hp. destruct o as [|env user_text]; simpl.
  - unfold ask_next. now rewrite Hp.
  - rewrite process_response_state, Hp. simpl.
    unfold ask_next. now rewrite Hp.
Qed.

(** X1.  Once the phase is closing, no call changes anything in the
    state: not the responses, not the stored report, not the phase. *)
Theorem closing_is_terminal (ops : list op) (s : InterviewState.t) :
  phase s = "closing" -> run ops s = s.
Proof.
  intros Hp. induction ops as [|o ops IH]; [reflexivity|].
  rewrite run_cons, step_closing by exact Hp. exact IH.
Qed.

(** *** what one call does to the index and the responses *)

Lemma step_effect (o : op) (s : InterviewState.t) :
  questions (step o s) = questions s
  /\ ((q_index (step o s) = q_index s
       /\ responses (step o s) = responses s)
      \/ exists env user_text q resp,
           o = OpProcessResponse env user_text
           /\ phase s = "qa"
           /\ nth_error (questions s) (q_index s) = Some q
           /\ evaluated_record env q user_text = inr resp
           /\ q_index (step o s) = S (q_index s)
           /\ responses (step o s) = responses s ++ [resp]).
Proof.
  destruct o as [|env user_text]; simpl.
  - destruct (ask_next_keeps s) as (Hi & Hq & Hr & _). auto.
  - rewrite process_response_state.
    destruct (String.eqb_spec (phase s) "qa") as [Hp|Hp].
    + destruct (nth_error (questions s) (q_index s)) as [q|] eqn:Hn.
      * destruct (evaluated_record env q user_text) as [e|resp] eqn:He;
          [auto|].
        destruct (ask_next_keeps (record_response resp s))
          as (Hi & Hq & Hr & _).
        split; [exact Hq|]. right. exists env, user_text, q, resp.
        rewrite Hi, Hr. repeat split; assumption.
      * destruct (ask_next_keeps s) as (Hi & Hq & Hr & _). auto.
    + destruct (String.eqb (phase s) "reflection").
      * destruct (Reporter.generate_report _); simpl; auto.
      * destruct (ask_next_keeps s) as (Hi & Hq & Hr & _). auto.
Qed.

Lemma firstn_snoc_nth_error {A : Type} (l : list A) (i : nat) (x : A) :
  nth_error l i = Some x -> firstn (S i) l = firstn i l ++ [x].
Proof.
  revert i. induction l as [|y l IH]; intros [|i] H; try discriminate.
  - injection H as ->. reflexivity.
  - simpl in H. cbn [firstn]. rewrite (IH i H). reflexivity.
Qed.

Lemma step_follows_questions (o : op) (s : InterviewState.t) :
  map asked (responses s) = map asks (firstn (q_index s) (questions s))
  /\ q_index s <= length (questions s) ->
  map asked (responses (step o s))
  = map asks (firstn (q_index (step o s)) (questions (step o s)))
  /\ q_index (step o s) <= length (questions (step o s)).
Proof.
  intros [Hm Hle].
  destruct (step_effect o s)
    as (Hq & [[Hi Hr]|(env & txt & q & resp & _ & _ & Hn & He & Hi & Hr)]);
    rewrite Hq, Hi, Hr.
  - now split.
  - split.
    + rewrite (firstn_snoc_nth_error _ _ _ Hn), !map_app, Hm.
      apply evaluated_record_inr in He
        as (? & ? & ? & ? & ? & ? & ? & ? & ? & ? & _ & _ & _ & _ & _ & _
            & _ & _ & ->).
      reflexivity.
    + apply Nat.le_succ_l, nth_error_Some. congruence.
Qed.

(** X2.  Whatever calls are made on a fresh engine, the stored records
    are, in order, records of the first q_index questions of the list: one
    record per question asked, none for a question twice, and the index
    never runs past the list, which itself is never changed. *)
Theorem responses_follow_questions
    (session_id : string) (start_time : Date) (qs : list Question.t)
    (ops : list op) :
  let s := run ops (init session_id start_time qs) in
  questions s = qs
  /\ map asked (responses s) = map asks (firstn (q_index s) qs)
  /\ length (responses s) = q_index s
  /\ q_index s <= length qs.
Proof.
  intros s.
  assert (H : questions s = qs
              /\ map asked (responses s)
                 = map asks (firstn (q_index s) (questions s))
              /\ q_index s <= length (questions s)).
  { subst s.
    apply (run_keeps
             (fun s => questions s = qs
                       /\ map asked (responses s)
                          = map asks (firstn (q_index s) (questions s))
                       /\ q_index s <= length (questions s))
             (fun _ => True)).
    - intros o st _ (Hq & Hinv). split.
      + now rewrite (proj1 (step_effect o st)).
      + now apply step_follows_questions.
    - apply Forall_True_op.
    - repeat split. simpl. lia. }
  destruct H as (Hq & Hm & Hle). rewrite Hq in *.
  repeat split; try assumption.
  apply (f_equal (@length _)) in Hm.
  rewrite !length_map, length_firstn in Hm. lia.
Qed.

(** *** the stored records *)

Lemma run_keeps_records (P : ResponseRecord.t -> Prop) (Q : op -> Prop) :
  (forall env user_text q resp,
      Q (OpProcessResponse env user_text) ->
      evaluated_record env q user_text = inr resp ->
      P resp) ->
  forall ops s,
    Forall Q ops ->
    (forall r, In r (responses s) -> P r) ->
    forall r, In r (responses (run ops s)) -> P r.
Proof.
  intros Hnew ops s Hq Hs.
  apply (run_keeps (fun s => forall r, In r (responses s) -> P r) Q);
    [|exact Hq|exact Hs].
  clear Hq Hs. intros o st Ho Hst r.
  destruct (step_effect o st)
    as (_ & [[_ ->]|(env & txt & q & resp & -> & _ & _ & He & _ & ->)]).
  - apply Hst.
  - rewrite in_app_iff. intros [H|[<-|[]]]; [now apply Hst|].
    now apply Hnew with env txt q.
Qed.

(** the scores of a record that was built *)
Lemma evaluated_record_scores (env : Env) (q : Question.t) (a : string)
    (resp : ResponseRecord.t) :
  evaluated_record env q a = inr resp ->
  exists vc vd vm c d m,
    (ResponseRecord.scores resp !! "correctness" = Some vc
     /\ as_number vc = Some c)
    /\ (ResponseRecord.scores resp !! "design" = Some vd
        /\ as_number vd = Some d)
    /\ (ResponseRecord.scores resp !! "communication" = Some vm
        /\ as_number vm = Some m)
    /\ ResponseRecord.scores resp !! "overall"
       = Some (PyFloat (c * (4 # 10) + d * (3 # 10) + m * (3 # 10))).
Proof.
  intros He.
  destruct (evaluated_record_inr env q a resp He)
    as (reply & narrative & vc & vd & vm & c & d & m & vr & rationale
        & _ & _ & [Hc Nc] & [Hd Nd] & [Hm Nm] & _ & _ & _ & ->).
  exists vc, vd, vm, c, d, m. cbn [ResponseRecord.scores].
  rewrite !lookup_insert_ne by discriminate.
  rewrite lookup_insert_eq. repeat split; assumption.
Qed.

(** X4.  Every record stored by an engine started fresh carries the three
    axes the evaluator reads, each a number, and an overall that is 0.4
    correctness + 0.3 design + 0.3 communication of those very axes,
    whatever the scorer replied, an overall of its own included. *)
Theorem stored_overall_is_weighted_sum
    (session_id : string) (start_time : Date) (qs : list Question.t)
    (ops : list op) (r : ResponseRecord.t) :
  In r (responses (run ops (init session_id start_time qs))) ->
  exists vc vd vm c d m,
    (ResponseRecord.scores r !! "correctness" = Some vc
     /\ as_number vc = Some c)
    /\ (ResponseRecord.scores r !! "design" = Some vd
        /\ as_number vd = Some d)
    /\ (ResponseRecord.scores r !! "communication" = Some vm
        /\ as_number vm = Some m)
    /\ ResponseRecord.scores r !! "overall"
       = Some (PyFloat (c * (4 # 10) + d * (3 # 10) + m * (3 # 10))).
Proof.
  apply (run_keeps_records
           (fun r => exists vc vd vm c d m,
                (ResponseRecord.scores r !! "correctness" = Some vc
                 /\ as_number vc = Some c)
                /\ (ResponseRecord.scores r !! "design" = Some vd
                    /\ as_number vd = Some d)
                /\ (ResponseRecord.scores r !! "communication" = Some vm
                    /\ as_number vm = Some m)
                /\ ResponseRecord.scores r !! "overall"
                   = Some (PyFloat
                             (c * (4 # 10) + d * (3 # 10) + m * (3 # 10))))
           (fun _ => True)).
  - intros env txt q resp _ He.
    exact (evaluated_record_scores env q txt resp He).
  - apply Forall_True_op.
  - intros r0 [].
Qed.

(** *** the report *)

Lemma total_from (l : list ResponseRecord.t) (e : exn) :
  fold_left
    (fun acc resp =>
       bind acc
         (fun a =>
            match as_number (Reporter.overall_of resp) with
            | Some x => inr (a + x)%Q
            | None => inl TypeError
            end))
    l (inl e)
  = inl e.
Proof. induction l as [|x l IH]; [reflexivity|]. exact IH. Qed.

(** the sum the reporter computes lies between the bounds of the stored
    overall values, and is computed at all when they are numbers *)
Lemma fold_overall_between (lo hi : Q) (l : list ResponseRecord.t) (a : Q) :
  (forall r, In r l ->
             exists v, as_number (Reporter.overall_of r) = Some v
                       /\ (lo <= v /\ v <= hi)%Q) ->
  exists t,
    fold_left
      (fun acc resp =>
         bind acc
           (fun a =>
              match as_number (Reporter.overall_of resp) with
              | Some x => inr (a + x)%Q
              | None => inl TypeError
              end))
      l (inr a)
    = inr t
    /\ (a + lo * inject_Z (Z.of_nat (length l)) <= t
        /\ t <= a + hi * inject_Z (Z.of_nat (length l)))%Q.
Proof.
  revert a. induction l as [|x l IH]; intros a Hb.
  - exists a. split; [reflexivity|].
    cbn [length]. change (inject_Z (Z.of_nat 0)) with 0%Q. lra.
  - cbn [fold_left length bind].
    destruct (Hb x (or_introl eq_refl)) as (v & Hv & Hlo & Hhi).
    rewrite Hv.
    destruct (IH (a + v)%Q) as (t & Ht & L & U).
    { intros r Hin. apply Hb. now right. }
    exists t. split; [exact Ht|].
    rewrite Nat2Z.inj_succ, <- Z.add_1_r, inject_Z_plus.
    change (inject_Z 1) with 1%Q. lra.
Qed.

Lemma generate_report_between (lo hi : Q) (s : InterviewState.t) :
  (hi < 6)%Q ->
  (forall r, In r (responses s) ->
             exists v, as_number (Reporter.overall_of r) = Some v
                       /\ (lo <= v /\ v <= hi)%Q) ->
  Reporter.generate_report s = inr (ReportMessage "No responses")
  \/ exists avg,
       Reporter.generate_report s
       = inr (ReportSummary avg "Needs more depth." (responses s))
       /\ (lo <= avg /\ avg <= hi)%Q.
Proof.
  intros Hhi Hb. unfold Reporter.generate_report, Reporter.total.
  destruct (responses s) as [|r0 rs] eqn:E; [now left|]. right.
  destruct (fold_overall_between lo hi (r0 :: rs) 0%Q Hb) as (t & -> & L & U).
  cbn [bind].
  assert (Hpos : (0 < inject_Z (Z.of_nat (length (r0 :: rs))))%Q).
  { change 0%Q with (inject_Z 0). rewrite <- Zlt_Qlt. simpl length. lia. }
  assert (Havg : (lo <= t / inject_Z (Z.of_nat (length (r0 :: rs)))
                  /\ t / inject_Z (Z.of_nat (length (r0 :: rs))) <= hi)%Q).
  { split.
    - apply Qle_shift_div_l; [exact Hpos|]. lra.
    - apply Qle_shift_div_r; [exact Hpos|]. lra. }
  eexists. split; [|exact Havg].
  destruct (Qlt_le_dec 6 _) as [Hgt|_]; [|reflexivity].
  exfalso. lra.
Qed.

(** a list of records whose overall values are all numbers has a total,
    and one with another value among them has none *)
Lemma total_defined (l : list ResponseRecord.t) :
  (forall r, In r l -> is_Some (as_number (Reporter.overall_of r))) ->
  is_Some
    (match Reporter.total l with inr t => Some t | inl _ => None end).
Proof.
  intros H. unfold Reporter.total.
  assert (G : forall a, exists t,
    fold_left
      (fun acc resp =>
         bind acc
           (fun a =>
              match as_number (Reporter.overall_of resp) with
              | Some x => inr (a + x)%Q
              | None => inl TypeError
              end))
      l (inr a) = inr t).
  { induction l as [|x l IH]; intros a; [now exists a|].
    cbn [fold_left bind].
    destruct (H x (or_introl eq_refl)) as [v ->].
    apply IH. intros r Hr. apply H. now right. }
  destruct (G 0%Q) as [t ->]. now exists t.
Qed.

Lemma total_raises (l : list ResponseRecord.t) (e : exn) :
  Reporter.total l = inl e ->
  e = TypeError
  /\ exists r, In r l /\ as_number (Reporter.overall_of r) = None.
Proof.
  unfold Reporter.total. generalize 0%Q.
  induction l as [|x l IH]; intros a; [discriminate|].
  cbn [fold_left bind].
  destruct (as_number (Reporter.overall_of x)) as [v|] eqn:E.
  - intros H. destruct (IH _ H) as (He & r & Hr & Hn).
    split; [exact He|]. exists r. split; [now right|exact Hn].
  - rewrite total_from. intros [= <-]. split; [reflexivity|].
    exists x. split; [now left|exact E].
Qed.

(** every record of an engine started fresh has a number as its overall *)
Lemma run_overall_numbers (session_id : string) (start_time : Date)
    (qs : list Question.t) (ops : list op) (r : ResponseRecord.t) :
  In r (responses (run ops (init session_id start_time qs))) ->
  is_Some (as_number (Reporter.overall_of r)).
Proof.
  apply (run_keeps_records
           (fun r => is_Some (as_number (Reporter.overall_of r)))
           (fun _ => True)).
  - intros env txt q resp _ He.
    destruct (evaluated_record_scores env q txt resp He)
      as (? & ? & ? & ? & ? & ? & _ & _ & _ & Hv).
    unfold Reporter.overall_of. rewrite Hv. now eexists.
  - apply Forall_True_op.
  - intros r0 [].
Qed.

(** C8.  The report is a function of the state alone (no model call, no
    clock, no random draw is among its arguments) and, within the state,
    of the stored responses alone: states with the same responses get the
    same outcome, in particular the state in which the report itself has
    been stored; the responses in the report are the stored records,
    untouched; the only way not to get a report is a stored overall that
    is no number, which no record of an engine started fresh has. *)
Theorem report_regeneration_is_identical (s : InterviewState.t) :
  let r := Reporter.generate_report s in
  Reporter.generate_report
    (match r with
     | inr report => set_feedback_report report s
     | inl _ => s
     end) = r
  /\ (forall s', responses s' = responses s ->
                 Reporter.generate_report s' = r)
  /\ match r with
     | inr (ReportMessage _) => responses s = []
     | inr (ReportSummary _ _ rs) => rs = responses s
     | inl e =>
         e = TypeError
         /\ exists resp, In resp (responses s)
                         /\ as_number (Reporter.overall_of resp) = None
     end
  /\ (forall session_id start_time qs ops,
        s = run ops (init session_id start_time qs) ->
        exists report, r = inr report).
Proof.
  intros r. subst r. repeat split.
  - destruct (Reporter.generate_report s) as [e|report] eqn:E;
      [exact E|exact E].
  - intros s' Hs. unfold Reporter.generate_report. now rewrite Hs.
  - unfold Reporter.generate_report.
    destruct (responses s) as [|r0 rs] eqn:E; [reflexivity|].
    destruct (Reporter.total (r0 :: rs)) as [e|t] eqn:Et; cbn [bind].
    + exact (total_raises _ _ Et).
    + reflexivity.
  - intros session_id start_time qs ops ->.
    unfold Reporter.generate_report.
    destruct (responses (run ops (init session_id start_time qs)))
      as [|r0 rs] eqn:E; [now eexists|].
    destruct (total_defined (r0 :: rs)) as [t Ht].
    { intros x Hx. apply (run_overall_numbers session_id start_time qs ops).
      now rewrite E. }
    destruct (Reporter.total (r0 :: rs)) as [e|t']; [discriminate|].
    cbn [bind]. now eexists.
Qed.

(** *** the stored report *)

Lemma step_report (o : op) (s : InterviewState.t) :
  phase s <> "closing" ->
  feedback_report s = None ->
  feedback_report (step o s) = None
  \/ (exists r,
        feedback_report (step o s) = Some r
        /\ phase (step o s) = "closing"
        /\ Reporter.generate_report (step o s) = inr r
        /\ is_Some (end_time (step o s))).
Proof.
  intros Hc Hn. destruct o as [|env user_text]; simpl.
  - left. now rewrite (proj2 (proj2 (proj2 (proj2 (ask_next_keeps s))))).
  - rewrite process_response_state.
    destruct (String.eqb (phase s) "qa").
    + destruct (nth_error _ _) as [q|].
      * destruct (evaluated_record _ _ _) as [e|resp]; [now left|].
        left.
        now rewrite (proj2 (proj2 (proj2 (proj2 (ask_next_keeps _))))).
      * left.
        now rewrite (proj2 (proj2 (proj2 (proj2 (ask_next_keeps s))))).
    + destruct (String.eqb (phase s) "reflection").
      * destruct (Reporter.generate_report (set_end_time (utcnow env) s))
          as [e|r] eqn:Er; [now left|].
        right. exists r. repeat split.
        -- exact Er.
        -- now eexists.
      * left.
        now rewrite (proj2 (proj2 (proj2 (proj2 (ask_next_keeps s))))).
Qed.

Lemma run_report (session_id : string) (start_time : Date)
    (qs : list Question.t) (ops : list op) :
  let s := run ops (init session_id start_time qs) in
  match feedback_report s with
  | Some r =>
      phase s = "closing"
      /\ Reporter.generate_report s = inr r
      /\ is_Some (end_time s)
  | None => True
  end.
Proof.
  apply (run_keeps
           (fun s => match feedback_report s with
                     | Some r =>
                         phase s = "closing"
                         /\ Reporter.generate_report s = inr r
                         /\ is_Some (end_time s)
                     | None => True
                     end)
           (fun _ => True)); [|apply Forall_True_op|exact I].
  intros o s _ Hs.
  destruct (String.eqb_spec (phase s) "closing") as [Hc|Hc].
  - now rewrite step_closing.
  - destruct (feedback_report s) as [r|] eqn:Hr; [now destruct Hs|].
    destruct (step_report o s Hc Hr) as [->|(r & -> & Hp & Hg & He)];
      [exact I|].
    now repeat split.
Qed.

(** X3.  On an engine started fresh, a stored report means the interview
    is closed and its end time is set, and the report is the one the
    reporter computes from the responses in the state: a report is stored
    only by the answer given in the reflection phase, after which nothing
    changes any more. *)
Theorem stored_report_is_final
    (session_id : string) (start_time : Date) (qs : list Question.t)
    (ops : list op) (r : Report) :
  let s := run ops (init session_id start_time qs) in
  feedback_report s = Some r ->
  phase s = "closing"
  /\ Reporter.generate_report s = inr r
  /\ is_Some (end_time s)
  /\ forall more, run more s = s.
Proof.
  intros s Hr. pose proof (run_report session_id start_time qs ops) as H.
  cbv zeta in H. fold s in H. rewrite Hr in H. destruct H as (Hp & Hg & He).
  repeat split; try assumption.
  intros more. clear Hr Hg He.
  induction more as [|o more IH]; [reflexivity|].
  rewrite run_cons, step_closing by exact Hp. exact IH.
Qed.

(** *** what the mock evaluator and the reporter make of it *)

Lemma randint_range (a b entropy : Z) :
  (a <= b)%Z ->
  (inject_Z a <= randint a b entropy /\ randint a b entropy <= inject_Z b)%Q.
Proof.
  intros Hab. unfold randint. rewrite <- !Zle_Qle.
  pose proof (Z.mod_pos_bound entropy (b - a + 1)). lia.
Qed.

Lemma mock_overall_range (env : Env) (entropy : nat -> Z * Z * Z)
    (q : Question.t) (a : string) (resp : ResponseRecord.t) :
  llm env = mock_llm entropy ->
  evaluated_record env q a = inr resp ->
  exists v, as_number (Reporter.overall_of resp) = Some v
            /\ (12 # 5 <= v /\ v <= 5)%Q.
Proof.
  intros Hl He.
  destruct (evaluated_record_inr env q a resp He)
    as (reply & narrative & vc & vd & vm & c & d & m & vr & rationale
        & Hr & Hs & [Hc Nc] & [Hd Nd] & [Hm Nm] & _ & _ & _ & ->).
  rewrite Hl in Hr. unfold mock_llm, mock_llm_evaluate in Hr.
  destruct (entropy 0) as [[e1 e2] e3].
  injection Hr as <-.
  rewrite lookup_insert_eq in Hs. injection Hs as <-.
  rewrite lookup_insert_eq in Hc. injection Hc as <-.
  rewrite lookup_insert_ne, lookup_insert_eq in Hd by discriminate.
  injection Hd as <-.
  rewrite !lookup_insert_ne, lookup_singleton_eq in Hm by discriminate.
  injection Hm as <-.
  cbn [as_number] in Nc, Nd, Nm.
  injection Nc as <-. injection Nd as <-. injection Nm as <-.
  eexists. split.
  - unfold Reporter.overall_of. cbn [ResponseRecord.scores].
    rewrite lookup_insert_eq. reflexivity.
  - pose proof (randint_range 3 5 e1 ltac:(lia)) as [L1 U1].
    pose proof (randint_range 2 5 e2 ltac:(lia)) as [L2 U2].
    pose proof (randint_range 2 5 e3 ltac:(lia)) as [L3 U3].
    change (inject_Z 5) with 5%Q in *. change (inject_Z 3) with 3%Q in *.
    change (inject_Z 2) with 2%Q in *. lra.
Qed.

(** X5.  With the skeleton's own evaluator (mock_llm_evaluate, any
    draws), a report stored by an engine started fresh is either the "No
    responses" message or a summary whose avg_score lies between 2.4 and 5
    and whose strengths read "Needs more depth.": the average is on the
    0-5 scale, so the test avg > 6 never holds and "Good communication."
    is never reported. *)
Theorem mock_report_never_praises
    (session_id : string) (start_time : Date) (qs : list Question.t)
    (ops : list op) (r : Report) :
  Forall uses_mock ops ->
  let s := run ops (init session_id start_time qs) in
  feedback_report s = Some r ->
  r = ReportMessage "No responses"
  \/ exists avg,
       r = ReportSummary avg "Needs more depth." (responses s)
       /\ (12 # 5 <= avg /\ avg <= 5)%Q.
Proof.
  intros Hm s Hr.
  pose proof (run_report session_id start_time qs ops) as H.
  cbv zeta in H. fold s in H. rewrite Hr in H. destruct H as (_ & Hg & _).
  destruct (generate_report_between (12 # 5) 5 s) as [G|(avg & G & Ha)].
  - reflexivity.
  - subst s.
    apply (run_keeps_records
             (fun r => exists v,
                  as_number (Reporter.overall_of r) = Some v
                  /\ (12 # 5 <= v /\ v <= 5)%Q)
             uses_mock); [|exact Hm|intros r0 []].
    intros env txt q resp [entropy Hl] He.
    exact (mock_overall_range env entropy q txt resp Hl He).
  - left. congruence.
  - right. exists avg. split; [congruence|exact Ha].
Qed.

(** *** the chat handler *)

Lemma process_response_raise_state (env : Env) (user_text : string)
    (s s1 : InterviewState.t) (e : exn) :
  phase s <> "reflection" ->
  process_response env user_text s = (inl e, s1) -> s1 = s.
Proof.
  intros Hp. unfold process_response.
  destruct (String.eqb (phase s) "qa").
  - destruct (nth_error _ _) as [q|].
    + destruct (evaluated_record _ _ _); [now intros [= _ <-]|].
      now destruct (ask_next _).
    + now destruct (ask_next _).
  - destruct (String.eqb_spec (phase s) "reflection"); [contradiction|].
    now destruct (ask_next _).
Qed.

Lemma nth_error_lt {A : Type} (l : list A) (i : nat) :
  i < length l -> exists x, nth_error l i = Some x.
Proof.
  intros H. destruct (nth_error l i) as [x|] eqn:E; [now exists x|].
  apply nth_error_None in E. lia.
Qed.

Lemma ask_next_between (s : InterviewState.t) :
  after_answer s -> between_messages (snd (ask_next s)).
Proof.
  intros (Hf & [[Hp Hi]|[Hp|Hp]]).
  - rewrite (ask_next_qa s Hp).
    destruct (nth_error_lt _ _ Hi) as [q ->]. left. auto.
  - unfold ask_next. rewrite Hp. simpl. right. auto.
  - unfold ask_next. rewrite Hp. simpl. right. auto.
Qed.

Lemma between_not_reflection (s : InterviewState.t) :
  between_messages s -> phase s <> "reflection".
Proof.
  intros [(_ & _ & [Hp|Hp])|(_ & Hp)]; rewrite Hp; discriminate.
Qed.

Lemma process_response_between (env : Env) (user_text : string)
    (s : InterviewState.t) :
  between_messages s -> after_answer (snd (process_response env user_text s)).
Proof.
  intros [(Hf & Hi & [Hp|Hp])|(Hf & Hp)]; rewrite process_response_state, Hp;
    cbn -[nth_error].
  - unfold ask_next. rewrite Hp. simpl. split; [exact Hf|]. left. auto.
  - destruct (nth_error_lt _ _ Hi) as [q ->].
    destruct (evaluated_record _ _ _) as [e|resp];
      [split; [exact Hf|]; left; auto|].
    set (s1 := record_response resp s).
    assert (Hp1 : phase s1 = "qa") by exact Hp.
    rewrite (ask_next_qa s1 Hp1).
    destruct (nth_error (questions s1) (q_index s1)) eqn:Hn.
    + split; [exact Hf|]. left. split; [exact Hp1|].
      apply nth_error_Some. congruence.
    + split; [exact Hf|]. right. now left.
  - unfold ask_next. rewrite Hp. simpl. split; [exact Hf|]. right. now right.
Qed.

Lemma submit_between (dumps dumps' : Report -> exn + string)
    (x : ChatHistory * InterviewState.t) (i : Env * string) :
  between_messages (snd x) ->
  between_messages (snd (submit dumps x i))
  /\ submit dumps' x i = submit dumps x i
  /\ (fst (submit dumps x i) = fst x
      \/ exists next_msg,
           fst (submit dumps x i)
           = fst x ++ [("user", snd i); ("assistant", next_msg)]).
Proof.
  destruct x as [chat s]. destruct i as [env msg]. cbn [fst snd]. intros Hb.
  unfold submit, on_submit. cbn [fst snd].
  pose proof (process_response_between env msg s Hb) as Ha.
  destruct (process_response env msg s) as [[e|reply] s1] eqn:E.
  - apply process_response_raise_state in E;
      [|now apply between_not_reflection].
    subst s1. cbn [fst snd]. auto.
  - cbn [snd] in Ha. pose proof (ask_next_between s1 Ha) as Hb2.
    destruct (ask_next s1) as [next_msg s2]. cbn [snd] in Hb2.
    assert (Hf : feedback_report s2 = None)
      by (destruct Hb2 as [(H & _)|(H & _)]; exact H).
    rewrite Hf. cbn [fst snd]. split; [exact Hb2|]. split; [reflexivity|].
    right. exists next_msg. now rewrite <- app_assoc.
Qed.

Lemma submit_messages_between (dumps dumps' : Report -> exn + string)
    (inputs : list (Env * string)) (x : ChatHistory * InterviewState.t) :
  between_messages (snd x) ->
  between_messages (snd (submit_messages dumps inputs x))
  /\ submit_messages dumps' inputs x = submit_messages dumps inputs x
  /\ length (fst (submit_messages dumps inputs x))
     <= length (fst x) + 2 * length inputs.
Proof.
  revert x. induction inputs as [|i inputs IH]; intros x Hb.
  - simpl. repeat split; [exact Hb|lia].
  - destruct (submit_between dumps dumps' x i Hb) as (Hb1 & He & Hc).
    destruct (IH _ Hb1) as (Hb2 & He2 & Hl).
    unfold submit_messages in *. cbn [fold_left]. rewrite He.
    repeat split; [exact Hb2|exact He2|].
    etransitivity; [exact Hl|]. cbn [length].
    destruct Hc as [->|[m ->]]; [lia|]. rewrite length_app. simpl. lia.
Qed.

(** X6.  Driven through on_submit alone, an engine that has at least one
    question never stores a report: after any number of messages the
    feedback report is still absent, the engine rests in intro, qa or
    closing and never in reflection (the handler's own ask_next steps over
    it), json.dumps is never reached (the outcome is the same whatever it
    would do), and the chat box has grown by at most two entries per
    message. *)
Theorem on_submit_never_reports
    (dumps : Report -> exn + string) (session_id : string)
    (start_time : Date) (qs : list Question.t)
    (inputs : list (Env * string)) :
  qs <> [] ->
  let x := submit_messages dumps inputs ([], init session_id start_time qs) in
  feedback_report (snd x) = None
  /\ (phase (snd x) = "intro" \/ phase (snd x) = "qa"
      \/ phase (snd x) = "closing")
  /\ (forall dumps',
        submit_messages dumps' inputs ([], init session_id start_time qs) = x)
  /\ length (fst x) <= 2 * length inputs.
Proof.
  intros Hne x.
  assert (Hb : between_messages
                 (snd (([] : ChatHistory), init session_id start_time qs))).
  { left. simpl. repeat split; [|now left].
    destruct qs; [now destruct Hne|simpl; lia]. }
  destruct (submit_messages_between dumps dumps inputs _ Hb) as (Hx & _ & Hl).
  fold x in Hx, Hl. repeat split.
  - destruct Hx as [(H & _)|(H & _)]; exact H.
  - destruct Hx as [(_ & _ & [H|H])|(_ & H)]; auto.
  - intros dumps'.
    exact (proj1 (proj2 (submit_messages_between dumps dumps' inputs _ Hb))).
  - exact Hl.
Qed.

End EngineInvariants.

(* ===================================================================== *)
(** ** Scores, totals and the start of a session                         *)
(* ===================================================================== *)

Section ScoresAndStart.

Import InterviewApp.
Import SessionService.









End ScoresAndStart.

(* ===================================================================== *)
(** ** The store of the session service                                  *)
(* ===================================================================== *)

Section SessionStore.

Import SessionService Constraints.

Lemma session_exists_In (sid : uuid) (db : Database) :
  session_exists sid db = true
  <-> In sid (map InterviewSession.id (interview_sessions db)).
Proof.
  unfold session_exists. rewrite existsb_exists, in_map_iff. split.
  - intros (s & Hs & He). apply N.eqb_eq in He. now exists s.
  - intros (s & He & Hs). exists s. split; [exact Hs|].
    now apply N.eqb_eq.
Qed.

Lemma map_update_keeps {A B : Type} (idf : A -> uuid) (g : A -> B)
    (f : A -> A) (k : uuid) (l : list A) :
  (forall x, g (f x) = g x) ->
  map g (map (fun x => if N.eqb (idf x) k then f x else x) l) = map g l.
Proof.
  intros Hg. rewrite map_map. apply map_ext. intros x.
  now destruct (N.eqb (idf x) k).
Qed.

(** what a request does to the two tables it can write *)
Lemma step_tables (o : op) (db : Database) :
  interviews (step o db) = interviews db
  /\ interview_questions (step o db) = interview_questions db
  /\ ((* nothing inserted: rows are rewritten in place, keys kept *)
      (next_uuid (step o db) = next_uuid db
       /\ map InterviewSession.id (interview_sessions (step o db))
          = map InterviewSession.id (interview_sessions db)
       /\ map InterviewSession.interview_id (interview_sessions (step o db))
          = map InterviewSession.interview_id (interview_sessions db)
       /\ map (fun r => (SessionResponse.id r, key r))
              (session_responses (step o db))
          = map (fun r => (SessionResponse.id r, key r))
                (session_responses db))
      \/ (* one session inserted *)
         (exists s,
            interview_sessions (step o db) = interview_sessions db ++ [s]
            /\ session_responses (step o db) = session_responses db
            /\ InterviewSession.id s = next_uuid db
            /\ next_uuid (step o db) = N.succ (next_uuid db)
            /\ mem (InterviewSession.interview_id s) (interviews db) = true)
      \/ (* one response inserted *)
         (exists r,
            interview_sessions (step o db) = interview_sessions db
            /\ session_responses (step o db) = session_responses db ++ [r]
            /\ SessionResponse.id r = next_uuid db
            /\ next_uuid (step o db) = N.succ (next_uuid db)
            /\ session_exists (SessionResponse.session_id r) db = true
            /\ mem (SessionResponse.question_id r) (interview_questions db)
               = true)).
Proof.
  destruct o as [now d|now sid|now d|rid q b|now sid|sid]; simpl.
  - destruct (createSession_cases now d db)
      as [->|(s & st & -> & Hs & Hc & Hm)]; simpl.
    + repeat split. left. repeat split.
    + repeat split. right; left. exists st.
      apply session_columns_Some in Hc as (nm & em & _ & _ & ->).
      subst s. now repeat split.
  - repeat split. left. repeat split;
      apply (map_update_keeps InterviewSession.id); reflexivity.
  - destruct (submitResponse_cases now d db)
      as [->|(r & st & -> & Hr & Hc & Hs & Hm & Hk)]; simpl.
    + repeat split. left. repeat split.
    + repeat split. right; right. exists st.
      apply response_columns_Some in Hc as (sc & _ & _ & _ & ->).
      subst r. now repeat split.
  - destruct (evaluateResponse_route_responses rid q b db)
      as [->|(st & _ & _ & ->)].
    + repeat split. left. repeat split.
    + repeat split. left. repeat split.
      apply (map_update_keeps SessionResponse.id). reflexivity.
  - unfold completeSession. destruct (total_score_column _); simpl.
    + repeat split. left. repeat split;
        apply (map_update_keeps InterviewSession.id); reflexivity.
    + repeat split. left. repeat split.
  - repeat split. left. repeat split;
      apply (map_update_keeps InterviewSession.id); reflexivity.
Qed.

Lemma references_hold_iff (db : Database) :
  references_hold db
  <-> List.Forall (fun i => mem i (interviews db) = true)
        (map InterviewSession.interview_id (interview_sessions db))
      /\ List.Forall
           (fun ik => In (fst (snd ik))
                         (map InterviewSession.id (interview_sessions db))
                      /\ mem (snd (snd ik)) (interview_questions db) = true)
           (map (fun r => (SessionResponse.id r, key r))
                (session_responses db)).
Proof.
  unfold references_hold. rewrite !List.Forall_map, !List.Forall_forall.
  split; intros [H1 H2]; (split; [exact H1|]); intros r Hr;
    specialize (H2 r Hr); simpl in *.
  - now rewrite <- session_exists_In.
  - now rewrite session_exists_In.
Qed.

Lemma keys_fresh_iff (db : Database) :
  keys_fresh db
  <-> List.Forall (fun i => (i < next_uuid db)%N)
        (map InterviewSession.id (interview_sessions db))
      /\ List.Forall (fun ik => (fst ik < next_uuid db)%N)
           (map (fun r => (SessionResponse.id r, key r))
                (session_responses db))
      /\ List.NoDup (map InterviewSession.id (interview_sessions db))
      /\ List.NoDup
           (map fst (map (fun r => (SessionResponse.id r, key r))
                         (session_responses db))).
Proof.
  unfold keys_fresh. rewrite !List.Forall_map, !List.Forall_forall, map_map.
  simpl. reflexivity.
Qed.

Lemma NoDup_snoc_fresh (l : list uuid) (n : uuid) :
  List.Forall (fun i => (i < n)%N) l ->
  List.NoDup l -> List.NoDup (l ++ [n]).
Proof.
  intros Hlt Hnd. apply NoDup_ListNoDup, NoDup_app. repeat split.
  - now apply NoDup_ListNoDup.
  - intros x Hx Hx'. apply list_elem_of_singleton in Hx'. subst x.
    apply list_elem_of_In in Hx.
    rewrite List.Forall_forall in Hlt. specialize (Hlt n Hx). lia.
  - apply NoDup_singleton.
Qed.

Lemma step_keeps_constraints (o : op) (db : Database) :
  references_hold db /\ keys_fresh db ->
  references_hold (step o db) /\ keys_fresh (step o db).
Proof.
  rewrite !references_hold_iff, !keys_fresh_iff.
  intros [[R1 R2] (K1 & K2 & K3 & K4)].
  destruct (step_tables o db)
    as (Hi & Hq & [(Hn & Hsid & Hsiv & Hrk)
                  |[(s & Hs & Hr & Hid & Hn & Hm)
                   |(r & Hs & Hr & Hid & Hn & Hse & Hm)]]);
    rewrite Hi, Hq, Hn.
  - rewrite Hsid, Hsiv, Hrk. auto.
  - rewrite Hs, Hr, !map_app. simpl. rewrite Hid. repeat split.
    + apply List.Forall_app. split; [exact R1|]. now repeat constructor.
    + revert R2. apply List.Forall_impl. intros ik [H1 H2].
      split; [|exact H2]. apply in_or_app. now left.
    + apply List.Forall_app. split.
      * revert K1. apply List.Forall_impl. intros; lia.
      * repeat constructor. lia.
    + revert K2. apply List.Forall_impl. intros; lia.
    + now apply NoDup_snoc_fresh.
    + exact K4.
  - rewrite Hs, Hr, !map_app. simpl. rewrite Hid. repeat split.
    + exact R1.
    + apply List.Forall_app. split; [exact R2|].
      repeat constructor; simpl; [|exact Hm].
      now apply session_exists_In.
    + revert K1. apply List.Forall_impl. intros; lia.
    + apply List.Forall_app. split.
      * revert K2. apply List.Forall_impl. intros; lia.
      * repeat constructor. simpl. lia.
    + exact K3.
    + apply NoDup_snoc_fresh; [|exact K4].
      rewrite List.Forall_map. exact K2.
Qed.

Lemma run_keeps_constraints (ops : list op) (db : Database) :
  references_hold db /\ keys_fresh db ->
  references_hold (run ops db) /\ keys_fresh (run ops db).
Proof.
  revert db. induction ops as [|o ops IH]; intros db H; [exact H|].
  simpl. apply IH, step_keeps_constraints, H.
Qed.

Lemma empty_tables_constraints (db : Database) :
  interview_sessions db = [] ->
  session_responses db = [] ->
  references_hold db /\ keys_fresh db.
Proof.
  intros Hs Hr. unfold references_hold, keys_fresh. rewrite Hs, Hr.
  split; [split; intros ? []|].
  split; [intros ? []|]. split; [intros ? []|]. split; constructor.
Qed.

(** X7.  Whatever requests the session service has served since the two
    tables were empty, every session points to an interview that exists,
    every response to a session and to a question that exist, and no two
    sessions and no two responses share a primary key. *)
Theorem session_store_keeps_its_constraints
    (db0 : Database) (ops : list op) :
  interview_sessions db0 = [] ->
  session_responses db0 = [] ->
  references_hold (run ops db0) /\ keys_fresh (run ops db0).
Proof.
  intros Hs Hr. now apply run_keeps_constraints, empty_tables_constraints.
Qed.

(** *** reading back what was stored *)









(** *** doing it again *)

Lemma update_session_twice (sid : uuid)
    (f g : InterviewSession.t -> InterviewSession.t) (db : Database) :
  (forall s, InterviewSession.id (f s) = InterviewSession.id s) ->
  (forall s, g (f s) = g s) ->
  update_session sid g (update_session sid f db) = update_session sid g db.
Proof.
  intros Hid Hgf. unfold update_session; simpl. f_equal.
  rewrite map_map. apply map_ext. intros s.
  destruct (N.eqb (InterviewSession.id s) sid) eqn:E.
  - now rewrite Hid, E, Hgf.
  - now rewrite E.
Qed.

Lemma update_response_twice (rid : uuid)
    (f g : SessionResponse.t -> SessionResponse.t) (db : Database) :
  (forall r, SessionResponse.id (f r) = SessionResponse.id r) ->
  (forall r, g (f r) = g r) ->
  update_response rid g (update_response rid f db) = update_response rid g db.
Proof.
  intros Hid Hgf. unfold update_response; simpl. f_equal.
  rewrite map_map. apply map_ext. intros r.
  destruct (N.eqb (SessionResponse.id r) rid) eqn:E.
  - now rewrite Hid, E, Hgf.
  - now rewrite E.
Qed.

(** X9.  The last call wins.  Evaluating a response again, with a score
    the column takes, replaces the score and the verdict of the first
    evaluation; completing a session again, or abandoning it again, gives
    what the last call alone would have given: the total is recomputed
    from the same responses and only completed_at moves. *)
Theorem repeated_calls_overwrite (db : Database) :
  (forall rid q1 b1 q2 b2,
      is_Some (Postgres.numeric_5_2 q2) ->
      evaluateResponse rid q2 b2 (fst (evaluateResponse rid q1 b1 db))
      = evaluateResponse rid q2 b2 db)
  /\ (forall now1 now2 sid,
        completeSession now2 sid (fst (completeSession now1 sid db))
        = completeSession now2 sid db)
  /\ (forall sid,
        abandonSession sid (fst (abandonSession sid db))
        = abandonSession sid db).
Proof.
  repeat split.
  - intros rid q1 b1 q2 b2 [st2 H2]. unfold evaluateResponse. rewrite H2.
    destruct (Postgres.numeric_5_2 q1) as [st1|]; [|reflexivity].
    cbn [fst]. now rewrite update_response_twice.
  - intros now1 now2 sid. unfold completeSession.
    destruct (total_score_column (totalScore (find_responses sid db)))
      as [t|] eqn:Et; cbn [fst].
    + rewrite find_responses_update_session, Et.
      now rewrite update_session_twice.
    + now rewrite Et.
  - intros sid. unfold abandonSession; simpl.
    now rewrite update_session_twice.
Qed.

(** *** calls that raise *)


(** *** the types of the columns *)

Lemma take_chars_length (n : nat) (s : string) :
  Text.char_length (Text.take_chars n s) <= n.
Proof.
  revert n. induction s as [|c s IH]; intros n; cbn; [lia|].
  destruct (Text.continues c) eqn:E; cbn; rewrite ?E.
  - apply IH.
  - destruct n as [|n]; cbn; [lia|]. rewrite E. specialize (IH n). lia.
Qed.

Lemma take_chars_nul (n : nat) (s : string) :
  Text.has_nul s = false -> Text.has_nul (Text.take_chars n s) = false.
Proof.
  revert n. induction s as [|c s IH]; intros n; cbn; [reflexivity|].
  intros H. apply orb_false_elim in H as [Hc Hs].
  destruct (Text.continues c); cbn.
  - now rewrite Hc, IH.
  - destruct n as [|n]; cbn; [reflexivity|]. now rewrite Hc, IH.
Qed.

Lemma varchar_fits (n : nat) (s stored : string) :
  Postgres.varchar n s = Some stored -> is_varchar n stored.
Proof.
  unfold Postgres.varchar, is_varchar.
  destruct (Text.has_nul s) eqn:Hn; [discriminate|].
  destruct (Nat.leb_spec (Text.char_length s) n) as [Hl|Hl].
  - intros [= <-]. now split.
  - destruct (Text.all_spaces _); [|discriminate]. intros [= <-].
    split; [now apply take_chars_nul|apply take_chars_length].
Qed.

Lemma numeric_5_2_fits (q stored : Q) :
  Postgres.numeric_5_2 q = Some stored -> is_numeric_5_2 stored.
Proof.
  intros H. apply numeric_5_2_Some in H as [-> Hlt]. now eexists.
Qed.

Lemma step_columns_fit (o : op) (db : Database) :
  columns_fit db -> columns_fit (step o db).
Proof.
  intros [Hs Hr].
  assert (Hupd : forall sid f,
    (forall s, InterviewSession.candidate_name (f s)
               = InterviewSession.candidate_name s
               /\ InterviewSession.candidate_email (f s)
                  = InterviewSession.candidate_email s
               /\ (forall t, InterviewSession.total_score (f s) = Some t ->
                             InterviewSession.total_score s = Some t
                             \/ is_numeric_5_2 t)) ->
    columns_fit (update_session sid f db)).
  { intros sid f Hf. split; [|exact Hr]. cbn [interview_sessions].
    intros s Hin. apply in_map_iff in Hin as (s0 & <- & Hin).
    destruct (N.eqb (InterviewSession.id s0) sid); [|now apply Hs].
    destruct (Hf s0) as (-> & -> & Ht). destruct (Hs s0 Hin) as (H1 & H2 & H3).
    repeat split; try apply H1; try apply H2.
    intros t Hts. destruct (Ht t Hts) as [H|H]; [now apply H3|exact H]. }
  destruct o as [now d|now sid|now d|rid q b|now sid|sid]; simpl.
  - destruct (createSession_cases now d db)
      as [->|(s & st & -> & Hs' & Hc & _)]; [now split|].
    split; [|exact Hr]. cbn [fst interview_sessions]. intros x.
    rewrite in_app_iff. intros [H|[<-|[]]]; [now apply Hs|].
    apply session_columns_Some in Hc as (nm & em & Hn & He & ->).
    subst s. cbn in *. repeat split.
    1,2: now apply varchar_fits in Hn as [? ?].
    1,2: now apply varchar_fits in He as [? ?].
    discriminate.
  - apply Hupd. intros s. repeat split. intros t Ht. now left.
  - destruct (submitResponse_cases now d db)
      as [->|(r & st & -> & Hr' & Hc & _)]; [now split|].
    split; [exact Hs|]. cbn [fst session_responses]. intros x.
    rewrite in_app_iff. intros [H|[<-|[]]]; [now apply Hr|].
    apply response_columns_Some in Hc as (sc & Hsc & Hn & Ht & ->).
    subst r. cbn in *. repeat split; try assumption; try lia.
    intros q ->. destruct (sr_score d) as [q0|]; cbn in Hsc; [|discriminate].
    destruct (Postgres.numeric_5_2 q0) as [st|] eqn:E; [|discriminate].
    injection Hsc as <-. now apply numeric_5_2_fits in E.
  - destruct (evaluateResponse_route_responses rid q b db)
      as [->|(st & _ & Hst & ->)]; [now split|].
    split; [exact Hs|]. intros x Hin.
    apply In_update_response in Hin as (r0 & Hin & ->).
    destruct (N.eqb (SessionResponse.id r0) rid); [|now apply Hr].
    destruct (Hr r0 Hin) as (H1 & H2 & H3). cbn. repeat split; try assumption;
      try lia.
    intros q0 [= <-]. now apply numeric_5_2_fits in Hst.
  - unfold completeSession.
    destruct (total_score_column _) as [t|] eqn:Et; [|now split].
    cbn [fst]. apply Hupd. intros s. repeat split. cbn. intros t0 [= <-].
    right. unfold total_score_column in Et.
    destruct (totalScore _) as [z|str].
    + now apply numeric_5_2_fits in Et.
    + destruct (Postgres.numeric_in str); [|discriminate].
      now apply numeric_5_2_fits in Et.
  - apply Hupd. intros s. repeat split. intros t Ht. now left.
Qed.

(** X11.  Whatever requests the session service has served since the two
    tables were empty, every stored row fits the types of its columns:
    names and e-mail addresses have at most 255 characters, no text holds
    a NUL, time_taken is a 32-bit integer, and every score and total is a
    number of hundredths below 1000 in size. *)
Theorem stored_rows_fit_their_columns (db0 : Database) (ops : list op) :
  interview_sessions db0 = [] ->
  session_responses db0 = [] ->
  columns_fit (run ops db0).
Proof.
  intros Hs Hr.
  assert (H0 : columns_fit db0).
  { split; [rewrite Hs|rewrite Hr]; intros ? []. }
  clear Hs Hr. revert db0 H0.
  induction ops as [|o ops IH]; intros db0 H0; [exact H0|].
  simpl. apply IH. now apply step_columns_fit.
Qed.

(** *** the status of the session *)

Lemma session_exists_update_session (k sid : uuid)
    (f : InterviewSession.t -> InterviewSession.t) (db : Database) :
  (forall s, InterviewSession.id (f s) = InterviewSession.id s) ->
  session_exists k (update_session sid f db) = session_exists k db.
Proof.
  intros Hid. unfold session_exists, update_session.
  cbn [interview_sessions].
  induction (interview_sessions db) as [|s l IH]; [reflexivity|].
  cbn [map existsb]. rewrite IH. f_equal.
  destruct (N.eqb (InterviewSession.id s) sid); [now rewrite Hid|reflexivity].
Qed.

(** X12.  submitResponse never reads the row of the session: rewriting
    that row (starting, completing or abandoning the session, in
    particular) before the submission gives the same outcome and the same
    response row as rewriting it after. *)
Theorem answers_ignore_the_session_status
    (now : Date) (data : SubmitResponseData) (sid : uuid)
    (f : InterviewSession.t -> InterviewSession.t) (db : Database) :
  (forall s, InterviewSession.id (f s) = InterviewSession.id s) ->
  submitResponse now data (update_session sid f db)
  = (update_session sid f (fst (submitResponse now data db)),
     snd (submitResponse now data db)).
Proof.
  intros Hid. unfold submitResponse, insert_response.
  rewrite (session_exists_update_session _ sid f db Hid).
  change (next_uuid (update_session sid f db)) with (next_uuid db).
  change (interview_questions (update_session sid f db))
    with (interview_questions db).
  change (has_key (sr_session_id data) (sr_question_id data)
            (update_session sid f db))
    with (has_key (sr_session_id data) (sr_question_id data) db).
  destruct (response_columns _) as [st|]; [|reflexivity].
  cbn [SessionResponse.session_id SessionResponse.question_id].
  change (has_key (sr_session_id data) (sr_question_id data)
            (update_session sid f db))
    with (has_key (sr_session_id data) (sr_question_id data) db).
  destruct (session_exists _ db && _ && _); reflexivity.
Qed.

(** *** the total at completion *)

Lemma filter_scored_perm (rs rs' : list SessionResponse.t) :
  Permutation rs rs' ->
  Permutation (List.filter is_scored rs) (List.filter is_scored rs').
Proof.
  induction 1 as [|x l l' _ IH|x y l|l l' l'' _ IH1 _ IH2]; cbn.
  - constructor.
  - destruct (is_scored x); [now constructor|exact IH].
  - destruct (is_scored x), (is_scored y); try reflexivity. apply perm_swap.
  - now rewrite IH1.
Qed.

(** X14.  The total handed to the UPDATE at completion comes out the same
    for any order in which the store hands over the responses of the
    session. *)
Theorem completion_ignores_row_order (rs rs' : list SessionResponse.t) :
  Permutation rs rs' ->
  total_score_column (totalScore rs) = total_score_column (totalScore rs').
Proof.
  intros Hp. apply filter_scored_perm in Hp.
  destruct (List.filter is_scored rs) as [|r1 [|r2 l]] eqn:E.
  - apply Permutation_nil in Hp.
    now rewrite (total_of_none rs E), (total_of_none rs' Hp).
  - apply Permutation_length_1_inv in Hp.
    pose proof (forallb_filter is_scored rs) as Hall. rewrite E in Hall.
    cbn in Hall. rewrite andb_true_r in Hall. unfold is_scored in Hall.
    destruct (SessionResponse.score r1) as [q|] eqn:Eq; [|discriminate].
    now rewrite (total_of_one rs r1 q E Eq), (total_of_one rs' r1 q Hp Eq).
  - rewrite (total_of_more rs r1 r2 l E).
    destruct (List.filter is_scored rs') as [|r1' [|r2' l']] eqn:E'.
    + apply Permutation_sym, Permutation_nil in Hp. discriminate.
    + apply Permutation_length in Hp. discriminate.
    + now rewrite (total_of_more rs' r1' r2' l' E').
Qed.

(** X19.  When completion succeeds and when it does not.  With no scored
    response the session completes with a total of 0.  With two or more
    scored responses, or with one whose score is negative, the texts the
    driver hands over are strung together into a value the column
    refuses: the call raises the service's error with status 500 and the
    store is left as it was, the session not completed. *)
Theorem completion_needs_at_most_one_score
    (now : Date) (sid : uuid) (db : Database) :
  (List.filter is_scored (find_responses sid db) = [] ->
   completeSession now sid db
   = (update_session sid (set_completed now (0 # 100)) db,
      inr (findOne_session sid
             (update_session sid (set_completed now (0 # 100)) db))))
  /\ (forall r1 r2 l,
        List.filter is_scored (find_responses sid db) = r1 :: r2 :: l ->
        completeSession now sid db
        = (db, inl (mkAppError "Failed to complete session" 500)))
  /\ (forall r q,
        List.filter is_scored (find_responses sid db) = [r] ->
        SessionResponse.score r = Some q ->
        (Postgres.round_hundredths q < 0)%Z ->
        completeSession now sid db
        = (db, inl (mkAppError "Failed to complete session" 500))).
Proof.
  repeat split.
  - intros H. unfold completeSession. now rewrite (total_of_none _ H).
  - intros r1 r2 l H. apply completeSession_refused.
    exact (total_of_more _ r1 r2 l H).
  - intros r q H Hq Hneg. apply completeSession_refused.
    rewrite (total_of_one _ r q H Hq).
    apply Z.ltb_lt in Hneg. now rewrite Hneg.
Qed.

End SessionStore.

(* ===================================================================== *)
(** ** Loaded relations and their order                                  *)
(* ===================================================================== *)

Section LoadedOrder.

Import SessionService.

Lemma insert_by_created_at_perm (r : SessionResponse.t)
    (l : list SessionResponse.t) :
  Permutation (insert_by_created_at r l) (r :: l).
Proof.
  induction l as [|x l IH]; simpl; [reflexivity|].
  destruct (_ <=? _)%Z; [reflexivity|].
  rewrite IH. apply perm_swap.
Qed.

Lemma order_by_created_at_perm (l : list SessionResponse.t) :
  Permutation (order_by_created_at l) l.
Proof.
  unfold order_by_created_at. induction l as [|x l IH]; simpl; [reflexivity|].
  rewrite insert_by_created_at_perm. now constructor.
Qed.

Lemma insert_by_created_at_sorted (r : SessionResponse.t)
    (l : list SessionResponse.t) :
  Sorted (fun a b => (SessionResponse.created_at a
                      <= SessionResponse.created_at b)%Z) l ->
  Sorted (fun a b => (SessionResponse.created_at a
                      <= SessionResponse.created_at b)%Z)
         (insert_by_created_at r l).
Proof.
  induction l as [|x l IH]; intros Hs; simpl.
  - repeat constructor.
  - destruct (Z.leb_spec (SessionResponse.created_at r)
                (SessionResponse.created_at x)) as [Hle|Hgt].
    + constructor; [exact Hs|]. now constructor.
    + inversion Hs as [|? ? Hs' Hhd]; subst. constructor; [now apply IH|].
      destruct l as [|y l]; simpl.
      * constructor. lia.
      * destruct (_ <=? _)%Z; constructor; [lia|].
        now inversion Hhd.
Qed.

Lemma order_by_created_at_sorted (l : list SessionResponse.t) :
  Sorted (fun a b => (SessionResponse.created_at a
                      <= SessionResponse.created_at b)%Z)
         (order_by_created_at l).
Proof.
  unfold order_by_created_at. induction l as [|x l IH]; simpl.
  - constructor.
  - now apply insert_by_created_at_sorted.
Qed.

Lemma insert_by_created_at_desc_perm (s : InterviewSession.t)
    (l : list InterviewSession.t) :
  Permutation (insert_by_created_at_desc s l) (s :: l).
Proof.
  induction l as [|x l IH]; simpl; [reflexivity|].
  destruct (_ <=? _)%Z; [reflexivity|].
  rewrite IH. apply perm_swap.
Qed.

Lemma insert_by_created_at_desc_sorted (s : InterviewSession.t)
    (l : list InterviewSession.t) :
  Sorted (fun a b => (InterviewSession.created_at b
                      <= InterviewSession.created_at a)%Z) l ->
  Sorted (fun a b => (InterviewSession.created_at b
                      <= InterviewSession.created_at a)%Z)
         (insert_by_created_at_desc s l).
Proof.
  induction l as [|x l IH]; intros Hs; simpl.
  - repeat constructor.
  - destruct (Z.leb_spec (InterviewSession.created_at x)
                (InterviewSession.created_at s)) as [Hle|Hgt].
    + constructor; [exact Hs|]. now constructor.
    + inversion Hs as [|? ? Hs' Hhd]; subst. constructor; [now apply IH|].
      destruct l as [|y l]; simpl.
      * constructor. lia.
      * destruct (_ <=? _)%Z; constructor; [lia|].
        now inversion Hhd.
Qed.

(** X13.  getSessionsByInterview returns the sessions of the interview,
    each exactly once and no other, newest first; every session loaded,
    there or by findOne, carries exactly its own responses, oldest
    first. *)
Theorem loaded_rows_are_complete_and_ordered
    (interviewId : uuid) (db : Database) :
  (exists sessions,
      getSessionsByInterview interviewId db = inr sessions
      /\ Permutation (map row sessions)
           (List.filter
              (fun s => N.eqb (InterviewSession.interview_id s) interviewId)
              (interview_sessions db))
      /\ Sorted (fun a b => (InterviewSession.created_at b
                             <= InterviewSession.created_at a)%Z)
                (map row sessions)
      /\ forall l, In l sessions ->
           Permutation (responses l)
             (find_responses (InterviewSession.id (row l)) db)
           /\ Sorted (fun a b => (SessionResponse.created_at a
                                  <= SessionResponse.created_at b)%Z)
                     (responses l))
  /\ (forall sid l,
        findOne_session sid db = Some l ->
        Permutation (responses l) (find_responses sid db)
        /\ Sorted (fun a b => (SessionResponse.created_at a
                               <= SessionResponse.created_at b)%Z)
                  (responses l)).
Proof.
  split.
  - unfold getSessionsByInterview. eexists. split; [reflexivity|].
    rewrite map_map. simpl. rewrite map_id.
    set (mine := List.filter _ (interview_sessions db)). clearbody mine.
    repeat split.
    + induction mine as [|x l IH]; simpl; [reflexivity|].
      rewrite insert_by_created_at_desc_perm. now constructor.
    + induction mine as [|x l IH]; simpl; [constructor|].
      now apply insert_by_created_at_desc_sorted.
    + apply in_map_iff in H as (s & <- & _). simpl.
      apply order_by_created_at_perm.
    + apply in_map_iff in H as (s & <- & _). simpl.
      apply order_by_created_at_sorted.
  - intros sid l. unfold findOne_session.
    destruct (List.find _ _); [|discriminate]. intros [= <-]. simpl.
    split; [apply order_by_created_at_perm|apply order_by_created_at_sorted].
Qed.

End LoadedOrder.

(* ===================================================================== *)
(** ** The interview service                                             *)
(* ===================================================================== *)

Section Pagination.

Import InterviewService.

Lemma ceil_div_covers (t : nat) (l : positive) :
  t <= ceil_div t l * Pos.to_nat l.
Proof.
  unfold ceil_div. pose proof (Pos2Nat.is_pos l) as Hl.
  pose proof (Nat.div_mod (t + Pos.to_nat l - 1) (Pos.to_nat l)
                ltac:(lia)) as Hd.
  pose proof (Nat.mod_upper_bound (t + Pos.to_nat l - 1) (Pos.to_nat l)
                ltac:(lia)) as Hm.
  nia.
Qed.

Lemma lt_ceil_div (p t : nat) (l : positive) :
  p < ceil_div t l <-> p * Pos.to_nat l < t.
Proof.
  unfold ceil_div. pose proof (Pos2Nat.is_pos l) as Hl.
  pose proof (Nat.div_mod (t + Pos.to_nat l - 1) (Pos.to_nat l)
                ltac:(lia)) as Hd.
  pose proof (Nat.mod_upper_bound (t + Pos.to_nat l - 1) (Pos.to_nat l)
                ltac:(lia)) as Hm.
  split; intros H; nia.
Qed.

(** X15.  The pagination block of getInterviews.  The store is asked for
    the rows from (page - 1) * limit on, at most limit of them, ordered by
    the column and direction asked for (created_at, newest first, when
    none is given; page 1 and limit 10 likewise); what it hands back is
    passed on as it is, with its count as total.  totalPages is the least
    number of pages of that size that hold total rows, hasNext says
    exactly whether rows remain after this page and hasPrev whether the
    page is not the first.  A query the store refuses raises the
    service's error with status 500. *)
Theorem getInterviews_pagination_fields
    (findAndCount : string -> bool -> nat -> nat
                    -> option (list LoadedInterview * nat))
    (page limit : option positive) (sortBy : option string)
    (descending : option bool) :
  let p := default 1%positive page in
  let l := default 10%positive limit in
  let answer :=
    findAndCount (default "created_at" sortBy) (default true descending)
      ((Pos.to_nat p - 1) * Pos.to_nat l) (Pos.to_nat l) in
  (forall rows count,
      answer = Some (rows, count) ->
      exists r,
        getInterviews findAndCount page limit sortBy descending = inr r
        /\ page_data r = rows
        /\ InterviewService.page (pagination r) = p
        /\ InterviewService.limit (pagination r) = l
        /\ total (pagination r) = count
        /\ count <= totalPages (pagination r) * Pos.to_nat l
        /\ (forall n, count <= n * Pos.to_nat l ->
                      totalPages (pagination r) <= n)
        /\ (hasNext (pagination r) = true
            <-> Pos.to_nat p * Pos.to_nat l < count)
        /\ (hasPrev (pagination r) = true <-> 1 < Pos.to_nat p))
  /\ (answer = None ->
      getInterviews findAndCount page limit sortBy descending
      = inl (mkAppError "Failed to retrieve interviews" 500)).
Proof.
  intros p l answer. subst answer p l. split.
  - intros rows count Ha. unfold getInterviews. rewrite Ha.
    eexists. split; [reflexivity|]. cbn [page_data pagination
      InterviewService.page InterviewService.limit total totalPages
      hasNext hasPrev].
    repeat split.
    + apply ceil_div_covers.
    + intros n Hn. apply Nat.nlt_ge. intros Hlt.
      apply lt_ceil_div in Hlt. lia.
    + intros H. apply Nat.ltb_lt in H. now apply lt_ceil_div.
    + intros H. apply Nat.ltb_lt. now apply lt_ceil_div.
    + intros H. now apply Nat.ltb_lt.
    + intros H. now apply Nat.ltb_lt.
  - intros Ha. unfold getInterviews. now rewrite Ha.
Qed.

End Pagination.

Section StoreConstraints.

Import InterviewService.

Lemma mem_In (x : uuid) (l : list uuid) :
  SessionService.mem x l = true <-> In x l.
Proof.
  unfold SessionService.mem. rewrite existsb_exists. split.
  - intros (y & Hy & He). apply N.eqb_eq in He. now subst.
  - intros H. exists x. split; [exact H|apply N.eqb_refl].
Qed.

Lemma In_map_filter {A B : Type} (f : A -> B) (p : A -> bool) (l : list A)
    (y : B) :
  In y (map f (List.filter p l)) -> In y (map f l).
Proof.
  rewrite !in_map_iff. intros (x & <- & Hx). exists x.
  split; [reflexivity|]. now apply filter_In in Hx.
Qed.

Lemma NoDup_map_filter {A B : Type} (f : A -> B) (p : A -> bool)
    (l : list A) :
  List.NoDup (map f l) -> List.NoDup (map f (List.filter p l)).
Proof.
  induction l as [|x l IH]; simpl; [auto|].
  intros H. inversion H as [|? ? Hnin Hnd]; subst.
  destruct (p x); simpl; [|now apply IH].
  constructor; [|now apply IH].
  intros Hin. apply Hnin. now apply In_map_filter in Hin.
Qed.

Lemma rows_ok_iff (st : Store) :
  references_hold st /\ keys_unique st <-> rows_ok st.
Proof.
  unfold references_hold, keys_unique, rows_ok,
    Constraints.references_hold, Constraints.keys_fresh. simpl.
  split.
  - intros [(Hq & Hs & Hr) ((Ks & Kr & Ns & Nr) & Ki & Kq & Ni & Nq & No & Nk)].
    repeat split; try assumption.
    + intros s H. now apply mem_In, Hs.
    + destruct (Hr r H) as [H1 _].
      now apply (session_exists_In _ (database_of st)) in H1.
    + destruct (Hr r H) as [_ H2]. now apply mem_In in H2.
  - intros ((Hq & Hs & Hr) & (Ki & Kq & Ks & Kr) & (Ni & Nq & Ns & Nr & No & Nk)).
    repeat split; try assumption.
    + intros s H. now apply mem_In, Hs.
    + apply (session_exists_In _ (database_of st)).
      now apply Hr.
    + apply mem_In. now apply Hr.
Qed.

Lemma In_map_app_l {A B : Type} (f : A -> B) (l k : list A) (y : B) :
  In y (map f l) -> In y (map f (l ++ k)).
Proof. rewrite map_app. intros H. apply in_or_app. now left. Qed.

Lemma interview_columns_id (i stored : Interview.t) :
  interview_columns i = Some stored -> Interview.id stored = Interview.id i.
Proof.
  unfold interview_columns.
  destruct (Postgres.varchar 255 _); [|discriminate].
  destruct (Postgres.nullable _ _); [|discriminate].
  destruct (Postgres.int4 _); [|discriminate].
  now intros [= <-].
Qed.

Lemma createInterview_rows_ok (now : Date) (data : CreateInterviewData)
    (st : Store) :
  rows_ok st -> rows_ok (fst (createInterview now data st)).
Proof.
  intros Hok. unfold createInterview.
  destruct (interview_columns _) as [stored|] eqn:Ec; [|exact Hok].
  apply interview_columns_id in Ec. cbn [Interview.id] in Ec.
  destruct Hok
    as ((Hq & Hs & Hr) & (Ki & Kq & Ks & Kr) & (Ni & Nq & Ns & Nr & No & Nk)).
  unfold rows_ok; simpl. repeat split; try assumption.
  - intros q H. now apply In_map_app_l, Hq.
  - intros s H. now apply In_map_app_l, Hs.
  - now apply Hr.
  - now apply Hr.
  - intros i H. apply in_app_iff in H as [H|[<-|[]]]; simpl;
      [specialize (Ki i H)|rewrite Ec]; lia.
  - intros q H. specialize (Kq q H). lia.
  - intros x H. specialize (Ks x H). lia.
  - intros r H. specialize (Kr r H). lia.
  - rewrite map_app. simpl. rewrite Ec. apply NoDup_snoc_fresh; [|exact Ni].
    rewrite List.Forall_map, List.Forall_forall. exact Ki.
Qed.

Lemma has_order_In (iid : uuid) (k : Z) (st : Store) :
  has_order iid k st = true
  <-> In (iid, k)
         (map (fun q => (InterviewQuestion.interview_id q,
                         InterviewQuestion.order_index q))
              (question_rows st)).
Proof.
  unfold has_order. rewrite existsb_exists, in_map_iff. split.
  - intros (q & Hq & He). apply andb_prop in He as [H1 H2].
    apply N.eqb_eq in H1. apply Z.eqb_eq in H2. exists q.
    split; [now rewrite H1, H2|exact Hq].
  - intros (q & He & Hq). injection He as H1 H2. exists q.
    split; [exact Hq|]. now rewrite H1, H2, N.eqb_refl, Z.eqb_refl.
Qed.

Lemma addQuestionToInterview_rows_ok (now : Date) (iid : uuid)
    (data : QuestionData) (st : Store) :
  rows_ok st -> rows_ok (fst (addQuestionToInterview now iid data st)).
Proof.
  intros Hok. unfold addQuestionToInterview.
  destruct (question_columns _); simpl; [|exact Hok].
  destruct (SessionService.mem iid _) eqn:Hm; simpl; [|exact Hok].
  destruct (has_order iid _ st) eqn:Ho; simpl; [exact Hok|].
  destruct Hok
    as ((Hq & Hs & Hr) & (Ki & Kq & Ks & Kr) & (Ni & Nq & Ns & Nr & No & Nk)).
  apply mem_In in Hm.
  unfold rows_ok; simpl. repeat split; try assumption.
  - intros q H. apply in_app_iff in H as [H|[<-|[]]]; [now apply Hq|exact Hm].
  - now apply Hr.
  - apply In_map_app_l. now apply Hr.
  - intros i H. specialize (Ki i H). lia.
  - intros q H. apply in_app_iff in H as [H|[<-|[]]]; simpl;
      [specialize (Kq q H)|]; lia.
  - intros x H. specialize (Ks x H). lia.
  - intros r H. specialize (Kr r H). lia.
  - rewrite map_app. simpl. apply NoDup_snoc_fresh; [|exact Nq].
    rewrite List.Forall_map, List.Forall_forall. exact Kq.
  - rewrite map_app. simpl. apply NoDup_ListNoDup, NoDup_app. repeat split.
    + now apply NoDup_ListNoDup.
    + intros x Hx Hx'. apply list_elem_of_singleton in Hx'. subst x.
      apply list_elem_of_In, has_order_In in Hx. congruence.
    + apply NoDup_singleton.
Qed.

Lemma In_id_filter_ne {A : Type} (idf : A -> uuid) (k x : uuid)
    (l : list A) :
  In x (map idf l) -> x <> k ->
  In x (map idf (List.filter (fun y => negb (N.eqb (idf y) k)) l)).
Proof.
  rewrite !in_map_iff. intros (y & <- & Hy) Hne. exists y.
  split; [reflexivity|]. apply filter_In. split; [exact Hy|].
  apply negb_true_iff, N.eqb_neq. exact Hne.
Qed.

Lemma deleteQuestion_rows_ok (qid : uuid) (st : Store) :
  rows_ok st -> rows_ok (fst (deleteQuestion qid st)).
Proof.
  intros ((Hq & Hs & Hr) & (Ki & Kq & Ks & Kr) & (Ni & Nq & Ns & Nr & No & Nk)).
  unfold deleteQuestion, rows_ok; simpl. repeat split;
    try assumption; try (now apply NoDup_map_filter).
  - intros q H. apply filter_In in H as [H _]. now apply Hq.
  - apply filter_In in H as [H _]. now apply Hr.
  - apply filter_In in H as [H Hne].
    apply (In_id_filter_ne InterviewQuestion.id); [now apply Hr|].
    now apply negb_true_iff, N.eqb_neq in Hne.
  - intros q H. apply filter_In in H as [H _]. now apply Kq.
  - intros r H. apply filter_In in H as [H _]. now apply Kr.
Qed.

Lemma In_filter_other {A : Type} (idf fk : A -> uuid) (k x : uuid)
    (l : list A) :
  In x (map idf l) ->
  ~ In x (map idf (List.filter (fun y => N.eqb (fk y) k) l)) ->
  In x (map idf (List.filter (fun y => negb (N.eqb (fk y) k)) l)).
Proof.
  rewrite !in_map_iff. intros (y & <- & Hy) Hnot.
  exists y. split; [reflexivity|]. apply filter_In. split; [exact Hy|].
  destruct (N.eqb (fk y) k) eqn:E; [|reflexivity].
  exfalso. apply Hnot. exists y. split; [reflexivity|].
  apply filter_In. now split.
Qed.

Lemma deleteInterview_rows_ok (id : uuid) (st : Store) :
  rows_ok st -> rows_ok (fst (deleteInterview id st)).
Proof.
  intros ((Hq & Hs & Hr) & (Ki & Kq & Ks & Kr) & (Ni & Nq & Ns & Nr & No & Nk)).
  unfold deleteInterview, rows_ok; simpl. repeat split;
    try assumption; try (now apply NoDup_map_filter).
  - intros q H. apply filter_In in H as [H Hne].
    apply (In_id_filter_ne Interview.id); [now apply Hq|].
    now apply negb_true_iff, N.eqb_neq in Hne.
  - intros s H. apply filter_In in H as [H Hne].
    apply (In_id_filter_ne Interview.id); [now apply Hs|].
    now apply negb_true_iff, N.eqb_neq in Hne.
  - apply filter_In in H as [H Hk]. apply andb_prop in Hk as [Hk _].
    apply (In_filter_other InterviewSession.id
             InterviewSession.interview_id); [now apply Hr|].
    intros Hin. apply mem_In in Hin. rewrite Hin in Hk. discriminate.
  - apply filter_In in H as [H Hk]. apply andb_prop in Hk as [_ Hk].
    apply (In_filter_other InterviewQuestion.id
             InterviewQuestion.interview_id); [now apply Hr|].
    intros Hin. apply mem_In in Hin. rewrite Hin in Hk. discriminate.
  - intros i H. apply filter_In in H as [H _]. now apply Ki.
  - intros q H. apply filter_In in H as [H _]. now apply Kq.
  - intros s H. apply filter_In in H as [H _]. now apply Ks.
  - intros r H. apply filter_In in H as [H _]. now apply Kr.
Qed.

Lemma database_of_with_database (st : Store) (db : Database) :
  interviews db = interviews (database_of st) ->
  interview_questions db = interview_questions (database_of st) ->
  database_of (with_database st db) = db.
Proof.
  destruct db; simpl. intros -> ->. reflexivity.
Qed.

Lemma session_step_rows_ok (o : SessionService.op) (st : Store) :
  rows_ok st ->
  rows_ok (with_database st (SessionService.step o (database_of st))).
Proof.
  intros Hok.
  pose proof (proj2 (rows_ok_iff st) Hok) as [[Hq Href] [Hkeys Hrest]].
  destruct (step_keeps_constraints o (database_of st) (conj Href Hkeys))
    as [Href' Hkeys'].
  destruct (step_tables o (database_of st)) as (Hi & Hiq & Hcases).
  apply rows_ok_iff.
  unfold references_hold, keys_unique.
  rewrite (database_of_with_database st _ Hi Hiq).
  destruct Hrest as (Ki & Kq & Ni & Nq & No & Nk).
  assert (Hnext : (next_key st
                   <= next_uuid (SessionService.step o (database_of st)))%N).
  { destruct Hcases as [(Hn & _)|[(s & _ & _ & _ & Hn & _)
                                |(r & _ & _ & _ & Hn & _)]];
      rewrite Hn; simpl; lia. }
  split; [split; [exact Hq|exact Href']|].
  split; [exact Hkeys'|]. simpl.
  split; [intros i H; specialize (Ki i H); lia|].
  split; [intros q H; specialize (Kq q H); lia|].
  split; [exact Ni|]. split; [exact Nq|]. split; [exact No|].
  now apply (unique_step o (database_of st)).
Qed.

Lemma step_rows_ok (o : op) (st : Store) :
  rows_ok st -> rows_ok (step o st).
Proof.
  destruct o; simpl.
  - apply createInterview_rows_ok.
  - apply deleteInterview_rows_ok.
  - apply addQuestionToInterview_rows_ok.
  - apply deleteQuestion_rows_ok.
  - apply session_step_rows_ok.
Qed.

Lemma run_rows_ok (ops : list op) (st : Store) :
  rows_ok st -> rows_ok (run ops st).
Proof.
  revert st. induction ops as [|o ops IH]; intros st H; [exact H|].
  simpl. apply IH, step_rows_ok, H.
Qed.

Lemma empty_store_rows_ok : rows_ok empty_store.
Proof.
  unfold rows_ok, empty_store; simpl.
  split; [|split].
  - split; [intros ? []|]. split; intros ? [].
  - split; [intros ? []|]. split; [intros ? []|]. split; intros ? [].
  - repeat split; constructor.
Qed.

(** X16.  Whatever the two services have done to a store that started
    empty, creations, answers, evaluations and cascading deletions
    included, every foreign key points to a row that exists, no two rows
    of a table share their primary key, no two questions of an interview
    share their order_index, and no two responses of a session answer the
    same question. *)
Theorem store_keeps_all_constraints (ops : list op) :
  references_hold (run ops empty_store)
  /\ keys_unique (run ops empty_store).
Proof.
  apply rows_ok_iff, run_rows_ok, empty_store_rows_ok.
Qed.

(** *** questions of an interview *)

Lemma insert_by_order_index_In (q x : InterviewQuestion.t)
    (l : list InterviewQuestion.t) :
  In x (insert_by_order_index q l) <-> x = q \/ In x l.
Proof.
  induction l as [|y l IH]; simpl.
  - intuition.
  - destruct (_ <=? _)%Z; simpl; [intuition|]. rewrite IH. intuition.
Qed.

Lemma insert_by_order_index_perm (q : InterviewQuestion.t)
    (l : list InterviewQuestion.t) :
  Permutation (insert_by_order_index q l) (q :: l).
Proof.
  induction l as [|x l IH]; simpl; [reflexivity|].
  destruct (_ <=? _)%Z; [reflexivity|].
  rewrite IH. apply perm_swap.
Qed.

Lemma insert_by_order_index_sorted (q : InterviewQuestion.t)
    (l : list InterviewQuestion.t) :
  ~ In (InterviewQuestion.order_index q)
       (map InterviewQuestion.order_index l) ->
  Sorted (fun a b => (InterviewQuestion.order_index a
                      < InterviewQuestion.order_index b)%Z) l ->
  Sorted (fun a b => (InterviewQuestion.order_index a
                      < InterviewQuestion.order_index b)%Z)
         (insert_by_order_index q l).
Proof.
  induction l as [|x l IH]; intros Hnin Hs; simpl.
  - repeat constructor.
  - assert (Hne : InterviewQuestion.order_index q
                  <> InterviewQuestion.order_index x)
      by (intros E; apply Hnin; left; now rewrite E).
    destruct (Z.leb_spec (InterviewQuestion.order_index q)
                (InterviewQuestion.order_index x)) as [Hle|Hgt].
    + constructor; [exact Hs|]. constructor. lia.
    + inversion Hs as [|? ? Hs' Hhd]; subst.
      constructor; [apply IH; [|exact Hs']|].
      * intros Hin. apply Hnin. now right.
      * destruct l as [|y l]; simpl.
        -- constructor. lia.
        -- destruct (_ <=? _)%Z; constructor; [lia|]. now inversion Hhd.
Qed.

Lemma NoDup_order_of_interview (iid : uuid) (l : list InterviewQuestion.t) :
  List.NoDup
    (map (fun q => (InterviewQuestion.interview_id q,
                    InterviewQuestion.order_index q)) l) ->
  List.NoDup
    (map InterviewQuestion.order_index
       (List.filter (fun q => N.eqb (InterviewQuestion.interview_id q) iid)
          l)).
Proof.
  induction l as [|x l IH]; simpl; [constructor|].
  intros H. inversion H as [|? ? Hnin Hnd]; subst.
  destruct (N.eqb (InterviewQuestion.interview_id x) iid) eqn:E;
    [|now apply IH].
  simpl. constructor; [|now apply IH].
  intros Hin. apply Hnin. apply in_map_iff in Hin as (y & Hy & Hin).
  apply filter_In in Hin as [Hin Ey]. apply N.eqb_eq in E, Ey.
  apply in_map_iff. exists y. split; [|exact Hin]. now rewrite Hy, E, Ey.
Qed.

Lemma sorted_questions (l : list InterviewQuestion.t) :
  List.NoDup (map InterviewQuestion.order_index l) ->
  Sorted (fun a b => (InterviewQuestion.order_index a
                      < InterviewQuestion.order_index b)%Z)
         (fold_right insert_by_order_index [] l)
  /\ Permutation (fold_right insert_by_order_index [] l) l.
Proof.
  induction l as [|x l IH]; simpl; intros H.
  - split; constructor.
  - inversion H as [|? ? Hnin Hnd]; subst. destruct (IH Hnd) as [Hs Hp].
    split.
    + apply insert_by_order_index_sorted; [|exact Hs].
      intros Hin. apply Hnin. apply in_map_iff in Hin as (y & Hy & Hin).
      apply in_map_iff. exists y. split; [exact Hy|].
      now apply (Permutation_in _ Hp).
    + rewrite insert_by_order_index_perm. now constructor.
Qed.

(** X17.  In a store built by the two services, an interview is loaded
    with exactly its own questions, each once, in strictly increasing
    order_index; and a question just added is among the questions of its
    interview, with the order_index asked for and 1 point when none was
    given. *)
Theorem questions_are_loaded_in_order (ops : list op) :
  let st := run ops empty_store in
  (forall id l,
      getInterviewById id st = inr (Some l) ->
      Interview.id (interview l) = id
      /\ Permutation (questions l) (questions_of id st)
      /\ Sorted (fun a b => (InterviewQuestion.order_index a
                             < InterviewQuestion.order_index b)%Z)
                (questions l))
  /\ (forall now iid data st' q,
        addQuestionToInterview now iid data st = (st', inr q) ->
        InterviewQuestion.order_index q = qd_order_index data
        /\ InterviewQuestion.points q = default 1%Z (qd_points data)
        /\ exists l, getInterviewById iid st' = inr (Some l)
                     /\ In q (questions l)).
Proof.
  intros st.
  pose proof (run_rows_ok ops empty_store empty_store_rows_ok) as Hok.
  fold st in Hok. destruct Hok as (_ & _ & (_ & _ & _ & _ & No & _)).
  split.
  - intros id l. unfold getInterviewById.
    destruct (List.find _ (interview_rows st)) as [i|] eqn:Hf; [|discriminate].
    intros [= <-]. apply find_some in Hf as [_ Hid]. apply N.eqb_eq in Hid.
    unfold load. simpl. rewrite Hid.
    destruct (sorted_questions (questions_of id st)
                (NoDup_order_of_interview id _ No)) as [Hs Hp].
    auto.
  - intros now iid data st' q. unfold addQuestionToInterview.
    destruct (question_columns _); simpl; [|discriminate].
    destruct (SessionService.mem iid _) eqn:Hm; simpl; [|discriminate].
    destruct (has_order iid _ st); simpl; [discriminate|].
    intros [= <- <-]. simpl. repeat split.
    unfold getInterviewById. simpl.
    apply mem_In, in_map_iff in Hm as (i & Hi & Hin).
    destruct (List.find (fun i0 => N.eqb (Interview.id i0) iid)
                (interview_rows st)) as [i'|] eqn:Hf.
    + eexists. split; [reflexivity|].
      apply find_some in Hf as [_ Hid]. apply N.eqb_eq in Hid.
      unfold load, questions_of. simpl. rewrite Hid.
      match goal with
      | |- In ?q (fold_right _ _ ?l) =>
          assert (Hq : In q l)
      end.
      { apply filter_In. split; [apply in_or_app; right; now left|].
        simpl. apply N.eqb_refl. }
      revert Hq. generalize (List.filter
        (fun q0 => N.eqb (InterviewQuestion.interview_id q0) iid)
        (question_rows st ++
           [InterviewQuestion.mk (next_key st) iid (qd_question_text data)
              (qd_question_type data) (qd_expected_answer data)
              (default 1%Z (qd_points data)) (qd_order_index data)
              (qd_excel_scenario data) now])).
      intros l. induction l as [|x l IH]; simpl; [auto|].
      rewrite insert_by_order_index_In. intros [->|H]; auto.
    + exfalso. apply (find_none _ _ Hf) in Hin.
      rewrite Hi, N.eqb_refl in Hin. discriminate.
Qed.

(** *** deleting an interview *)




End StoreConstraints.

(* ===================================================================== *)
(** ** The properties above, on the sample data                          *)
(* ===================================================================== *)

Section OnSamples.

Import InterviewApp InterviewApp.InterviewState.

Lemma report_regeneration_is_identical_witness :
  let s := InterviewEngine.run
             [ InterviewEngine.OpProcessResponse Samples.generous "a1" ]
             Samples.stock_engine in
  Reporter.generate_report (InterviewEngine.set_phase "closing" s)
  = Reporter.generate_report s.
Proof.
  intros s.
  exact (proj1 (proj2 (report_regeneration_is_identical s))
           (InterviewEngine.set_phase "closing" s) eq_refl).
Defined.

Lemma closing_is_terminal_witness :
  InterviewEngine.run
    [ InterviewEngine.OpAskNext;
      InterviewEngine.OpProcessResponse MoreSamples.later "again" ]
    MoreSamples.closed_engine
  = MoreSamples.closed_engine.
Proof.
  apply (closing_is_terminal
           [ InterviewEngine.OpAskNext;
             InterviewEngine.OpProcessResponse MoreSamples.later "again" ]
           MoreSamples.closed_engine).
  reflexivity.
Defined.

Lemma responses_follow_questions_witness :
  length
    (responses
       (InterviewEngine.run MoreSamples.whole_interview
          (InterviewEngine.init "session-1" 0%Z [Samples.sum_question])))
  = q_index
      (InterviewEngine.run MoreSamples.whole_interview
         (InterviewEngine.init "session-1" 0%Z [Samples.sum_question])).
Proof.
  exact (proj1 (proj2 (proj2 (responses_follow_questions "session-1" 0%Z
                                [Samples.sum_question]
                                MoreSamples.whole_interview)))).
Defined.

Lemma stored_report_is_final_witness :
  phase (InterviewEngine.run MoreSamples.whole_interview
           (InterviewEngine.init "session-1" 0%Z [Samples.sum_question]))
  = "closing".
Proof.
  eapply (fun r H =>
            proj1 (stored_report_is_final "session-1" 0%Z
                     [Samples.sum_question] MoreSamples.whole_interview
                     r H)).
  reflexivity.
Defined.

Lemma stored_overall_is_weighted_sum_witness :
  exists vc vd vm c d m,
    (ResponseRecord.scores MoreSamples.sum_record !! "correctness" = Some vc
     /\ as_number vc = Some c)
    /\ (ResponseRecord.scores MoreSamples.sum_record !! "design" = Some vd
        /\ as_number vd = Some d)
    /\ (ResponseRecord.scores MoreSamples.sum_record !! "communication"
        = Some vm
        /\ as_number vm = Some m)
    /\ ResponseRecord.scores MoreSamples.sum_record !! "overall"
       = Some (PyFloat (c * (4 # 10) + d * (3 # 10) + m * (3 # 10))).
Proof.
  apply (stored_overall_is_weighted_sum "session-1" 0%Z
           [Samples.sum_question] MoreSamples.whole_interview
           MoreSamples.sum_record).
  left. reflexivity.
Defined.

Lemma mock_report_never_praises_witness :
  exists r,
    feedback_report
      (InterviewEngine.run MoreSamples.whole_interview
         (InterviewEngine.init "session-1" 0%Z [Samples.sum_question]))
    = Some r
    /\ (r = ReportMessage "No responses"
        \/ exists avg,
             r = ReportSummary avg "Needs more depth."
                   (responses
                      (InterviewEngine.run MoreSamples.whole_interview
                         (InterviewEngine.init "session-1" 0%Z
                            [Samples.sum_question])))
             /\ (12 # 5 <= avg /\ avg <= 5)%Q).
Proof.
  eexists. split; [reflexivity|].
  apply (mock_report_never_praises "session-1" 0%Z [Samples.sum_question]
           MoreSamples.whole_interview).
  - repeat constructor; now exists (fun _ => (0, 1, 2)%Z).
  - reflexivity.
Defined.

Lemma on_submit_never_reports_witness :
  feedback_report
    (snd (InterviewUI.submit_messages MoreSamples.dumps_ok
            MoreSamples.five_messages
            ([], InterviewEngine.init "session-2" 0%Z make_questions)))
  = None.
Proof.
  apply (on_submit_never_reports MoreSamples.dumps_ok "session-2" 0%Z
           make_questions MoreSamples.five_messages).
  discriminate.
Defined.

End OnSamples.

Section OnStoreSamples.

Import SessionService.



Lemma session_store_keeps_its_constraints_witness :
  Constraints.references_hold (run Samples.evaluated Samples.db0)
  /\ Constraints.keys_fresh (run Samples.evaluated Samples.db0).
Proof.
  apply (session_store_keeps_its_constraints Samples.db0 Samples.evaluated);
    reflexivity.
Defined.


Lemma repeated_calls_overwrite_witness :
  evaluateResponse 101%N 80%Q false
    (fst (evaluateResponse 101%N 60%Q true
            (run Samples.answered Samples.db0)))
  = evaluateResponse 101%N 80%Q false (run Samples.answered Samples.db0).
Proof.
  apply (proj1 (repeated_calls_overwrite (run Samples.answered Samples.db0))).
  now eexists.
Defined.


Lemma stored_rows_fit_their_columns_witness :
  Constraints.columns_fit (run Samples.evaluated Samples.db0).
Proof.
  apply (stored_rows_fit_their_columns Samples.db0 Samples.evaluated);
    reflexivity.
Defined.

Lemma answers_ignore_the_session_status_witness :
  snd (submitResponse 1002%Z Samples.answer_q10
         (fst (abandonSession 100%N (run Samples.started Samples.db0))))
  = snd (submitResponse 1002%Z Samples.answer_q10
           (run Samples.started Samples.db0)).
Proof.
  exact (f_equal snd
           (answers_ignore_the_session_status 1002%Z Samples.answer_q10
              100%N set_abandoned (run Samples.started Samples.db0)
              (fun s => eq_refl))).
Defined.

Lemma loaded_rows_are_complete_and_ordered_witness :
  Sorted (fun a b => (SessionResponse.created_at a
                      <= SessionResponse.created_at b)%Z)
         (responses MoreSamples.alice_session).
Proof.
  exact (proj2 (proj2 (loaded_rows_are_complete_and_ordered 1%N
                         (run Samples.answered Samples.db0))
                  100%N MoreSamples.alice_session eq_refl)).
Defined.

Lemma completion_ignores_row_order_witness :
  total_score_column
    (totalScore
       [ SessionResponse.mk 101%N 100%N 10%N "a" (Some (350 # 100)) 30%Z
           true 1%Z;
         SessionResponse.mk 102%N 100%N 11%N "b" None 45%Z false 2%Z ])
  = total_score_column
      (totalScore
         [ SessionResponse.mk 102%N 100%N 11%N "b" None 45%Z false 2%Z;
           SessionResponse.mk 101%N 100%N 10%N "a" (Some (350 # 100)) 30%Z
             true 1%Z ]).
Proof.
  apply completion_ignores_row_order. apply perm_swap.
Defined.

Lemma completion_needs_at_most_one_score_witness :
  completeSession 2000%Z 100%N (run Samples.evaluated Samples.db0)
  = (run Samples.evaluated Samples.db0,
     inl (mkAppError "Failed to complete session" 500)).
Proof.
  eapply (proj1 (proj2 (completion_needs_at_most_one_score 2000%Z 100%N
                          (run Samples.evaluated Samples.db0)))).
  vm_compute. reflexivity.
Defined.

Lemma getInterviews_pagination_fields_witness :
  exists r,
    InterviewService.getInterviews MoreSamples.third_page
      (Some 3%positive) None None None
    = inr r
    /\ InterviewService.total (InterviewService.pagination r) = 25
    /\ InterviewService.totalPages (InterviewService.pagination r) <= 3
    /\ (InterviewService.hasNext (InterviewService.pagination r) = true
        <-> 3 * 10 < 25)
    /\ (InterviewService.hasPrev (InterviewService.pagination r) = true
        <-> 1 < 3).
Proof.
  destruct (proj1 (getInterviews_pagination_fields MoreSamples.third_page
                     (Some 3%positive) None None None)
              (firstn 10 (skipn 20 (repeat MoreSamples.fundamentals_loaded 25)))
              25 eq_refl)
    as (r & Hr & _ & _ & _ & Ht & _ & Hmin & Hn & Hp).
  exists r. split; [exact Hr|]. split; [exact Ht|].
  split; [apply Hmin; vm_compute; lia|]. split; [exact Hn|exact Hp].
Defined.

Lemma store_keeps_all_constraints_witness :
  InterviewService.references_hold MoreSamples.seeded_store
  /\ InterviewService.keys_unique MoreSamples.seeded_store.
Proof. exact (store_keeps_all_constraints MoreSamples.seeded). Defined.

Lemma questions_are_loaded_in_order_witness :
  Sorted (fun a b => (InterviewQuestion.order_index a
                      < InterviewQuestion.order_index b)%Z)
         (questions MoreSamples.fundamentals_loaded).
Proof.
  exact (proj2 (proj2 (proj1 (questions_are_loaded_in_order
                                MoreSamples.seeded)
                         0%N MoreSamples.fundamentals_loaded eq_refl))).
Defined.


End OnStoreSamples.
